(** * OMG Premium TV: the cache/refresh engine

    A shallow embedding of the two stores of the addon and of the
    queries served from them:

    - [EPGManager] (epg-manager.js): the programme guide kept in an
      SQLite database, its ingestion, retention and point queries;
    - [CacheManager]: the channel catalogue, its rebuild protocol and
      its lookups.

    JavaScript strings are sequences of UTF-16 code units, instants are
    integer milliseconds since the epoch, and what the JavaScript
    runtime, the SQL engine and the network provide is taken through
    the interfaces [JsRuntime], [SqlEngine] and [Network]. *)

From Stdlib Require Import ZArith NArith List Lia Bool Permutation.
From Stdlib Require Import Ascii String.
From stdpp Require Import base option list gmap strings sorting.

Local Open Scope Z_scope.

(** ** JavaScript strings *)

Module Js.

(** A string value: its UTF-16 code units. *)
Abbreviation str := (list N).

(** A string literal of the source, read as code units. *)
Definition lit (s : string) : str :=
  map N_of_ascii (list_ascii_of_string s).

(** What the runtime provides and the repository only calls. *)
Class JsRuntime := {
  (** [String.prototype.toLowerCase] on a code unit outside ASCII: the
      code units the Unicode case conversion puts in its place. The
      normaliser keeps only the ASCII ones among them. *)
  unicodeLower : N → str;
  (** [new Date(iso).getTime()]: [None] is the invalid date (NaN). *)
  dateFromISO : str → option Z;
  (** [new Date(t).toLocaleString('it-IT', {hour, minute})] with its
      dots replaced by colons; [None] is the invalid date. *)
  localeTime : option Z → str
}.

Definition isAsciiUpper (c : N) : bool := ((65 <=? c) && (c <=? 90))%N.
Definition isAsciiLower (c : N) : bool := ((97 <=? c) && (c <=? 122))%N.
Definition isDigit (c : N) : bool := ((48 <=? c) && (c <=? 57))%N.

(** [\w] of a regular expression without the [u] and [i] flags. *)
Definition isWord (c : N) : bool :=
  isAsciiUpper c || isAsciiLower c || isDigit c || (c =? 95)%N.

(** The class [[\w.]]. *)
Definition isWordOrDot (c : N) : bool := isWord c || (c =? 46)%N.

(** WhiteSpace and LineTerminator of ECMAScript: what [trim] strips and
    what [\s] matches. *)
Definition isSpace (c : N) : bool :=
  (((9 <=? c) && (c <=? 13)) || (c =? 32) || (c =? 160) || (c =? 5760)
   || ((8192 <=? c) && (c <=? 8202)) || (c =? 8232) || (c =? 8233)
   || (c =? 8239) || (c =? 8287) || (c =? 12288) || (c =? 65279))%N.

(** [toLowerCase] on one code unit: ASCII is written out, the rest is
    the runtime's table. *)
Definition lowerUnit `{JsRuntime} (c : N) : str :=
  if (c <? 128)%N then [if isAsciiUpper c then (c + 32)%N else c]
  else unicodeLower c.

(** [s.toLowerCase()] *)
Definition toLowerCase `{JsRuntime} (s : str) : str := flat_map lowerUnit s.

Fixpoint trimStart (s : str) : str :=
  match s with
  | c :: s' => if isSpace c then trimStart s' else s
  | [] => []
  end.

Definition trimEnd (s : str) : str := rev (trimStart (rev s)).

(** [s.trim()] *)
Definition trim (s : str) : str := trimEnd (trimStart s).

(** [s.startsWith(p)] *)
Fixpoint startsWith (s p : str) : bool :=
  match p, s with
  | [], _ => true
  | a :: p', b :: s' => (a =? b)%N && startsWith s' p'
  | _ :: _, [] => false
  end.

(** [s.endsWith(p)] *)
Definition endsWith (s p : str) : bool := startsWith (rev s) (rev p).

(** [s.includes(p)] *)
Fixpoint includes (s p : str) : bool :=
  startsWith s p ||
  match s with
  | [] => false
  | _ :: s' => includes s' p
  end.

(** [s.replace(p, '')] with a string pattern: the first occurrence of
    [p] is removed, wherever it is. *)
Fixpoint removeFirst (s p : str) : str :=
  if startsWith s p then drop (length p) s
  else match s with
       | [] => []
       | c :: s' => c :: removeFirst s' p
       end.

(** Truthiness of a string value. *)
Definition truthy (s : str) : bool :=
  match s with [] => false | _ => true end.

(** [parseInt(s, 10)] on a run of decimal digits. *)
Definition parseDigits (s : str) : Z :=
  fold_left (λ acc c, acc * 10 + (Z.of_N c - 48)) s 0.

(** [s.split(c)] for a separator of one code unit. *)
Fixpoint split (c : N) (s : str) : list str :=
  match s with
  | [] => [[]]
  | x :: s' =>
      if (x =? c)%N then [] :: split c s'
      else match split c s' with
           | w :: ws => (x :: w) :: ws
           | [] => [[x]]
           end
  end.

(** The match of [/^(\d{1,2}):(\d{2})$/]: hours and minutes. *)
Definition matchHHMM (s : str) : option (str * str) :=
  match split 58 s with
  | [h; m] =>
      if ((length h =? 1)%nat || (length h =? 2)%nat) && forallb isDigit h
         && (length m =? 2)%nat && forallb isDigit m
      then Some (h, m) else None
  | _ => None
  end.

End Js.

Import Js.

(** The identifier normaliser, as the three files that carry a copy of
    it write it:
    [id?.toLowerCase().replace(/[^\w.]/g, '').trim() || ''] *)
Definition normalizeExpr `{JsRuntime} (id : option str) : str :=
  match id with
  | None => []
  | Some s =>
      let r := trim (List.filter isWordOrDot (toLowerCase s)) in
      if truthy r then r else []
  end.

(** What the normaliser needs of the runtime: no case conversion yields
    an upper-case ASCII letter. *)
Definition LowerCaseSound `{JsRuntime} : Prop :=
  ∀ c u, (128 ≤ c)%N → In u (unicodeLower c) → isAsciiUpper u = false.

(** The alphabet of normalised identifiers: [a-z0-9_.]. *)
Definition canonical (c : N) : bool :=
  isWordOrDot c && negb (isAsciiUpper c).

(** ** Effects

    A method body runs over the state of its object and either returns
    or throws; what it wrote before throwing stays written. *)

Module Eff.

Inductive exn :=
| TypeError (what : string)
| SqlError (what : string)
| Failure (what : string).

Inductive outcome (A : Type) :=
| Ret (a : A)
| Throw (e : exn).
Arguments Ret {A} a.
Arguments Throw {A} e.

Definition M (S A : Type) : Type := S → outcome A * S.

Definition ret {S A} (a : A) : M S A := λ s, (Ret a, s).
Definition throw {S A} (e : exn) : M S A := λ s, (Throw e, s).

Definition bind {S A B} (c : M S A) (k : A → M S B) : M S B :=
  λ s, match c s with
       | (Ret a, s') => k a s'
       | (Throw e, s') => (Throw e, s')
       end.

Definition get {S} : M S S := λ s, (Ret s, s).
Definition modify {S} (f : S → S) : M S unit := λ s, (Ret tt, f s).

(** [try { c } catch (e) { h(e) }] *)
Definition tryCatch {S A} (c : M S A) (h : exn → M S A) : M S A :=
  λ s, match c s with
       | (Ret a, s') => (Ret a, s')
       | (Throw e, s') => h e s'
       end.

(** [try { c } finally { f }] *)
Definition tryFinally {S A} (c : M S A) (f : M S unit) : M S A :=
  λ s, match c s with
       | (r, s') =>
           match f s' with
           | (Ret _, s'') => (r, s'')
           | (Throw e, s'') => (Throw e, s'')
           end
       end.

(** [for (const x of l) { f(x) }] *)
Fixpoint forEach {S A} (f : A → M S unit) (l : list A) : M S unit :=
  match l with
  | [] => ret tt
  | x :: l' => bind (f x) (λ _, forEach f l')
  end.

(** Component [f] of the state is the same in [s'] as in [s]. *)
Definition unchanged {S X} (f : S → X) (s s' : S) : Prop := f s' = f s.

Module Notations.
Notation "x <- c ;; k" := (bind c (λ x, k))
  (at level 100, c at next level, right associativity).
Notation "c ;; k" := (bind c (λ _, k))
  (at level 100, right associativity).
End Notations.

End Eff.

Import Eff Eff.Notations.

(** ** The world outside the process *)

(** An element body as xml2js hands it over: a bare string when the
    element has no attribute, an object with the text under [_] and the
    attributes under [$] otherwise. *)
Inductive XNode :=
| NText (s : str)
| NElem (underscore : option str) (attrText : option str).

Record ChannelAttrs := { xc_id : option str }.

(** A [<channel>] element: [channel.$] and [channel.icon?.[0]?.$?.src]. *)
Record XChannel := {
  xc_attrs : option ChannelAttrs;
  xc_icon : option str
}.

Record ProgrammeAttrs := {
  xp_channel : option str;
  xp_start : option str;
  xp_stop : option str
}.

(** A [<programme>] element: [program.$] and the first [title], [desc]
    and [category] children. *)
Record XProgramme := {
  xp_attrs : option ProgrammeAttrs;
  xp_title : option XNode;
  xp_desc : option XNode;
  xp_category : option XNode
}.

Record XTv := {
  tv_channel : option (list XChannel);
  tv_programme : option (list XProgramme)
}.

(** A parsed guide document; [tv] is absent when the root is not [<tv>]. *)
Record XmlDoc := { tv : option XTv }.

(** The body of an HTTP answer as axios decodes it. *)
Inductive Body :=
| Text (s : str)
| NotText.

(** Clock and network. Answers are indexed by the number of requests
    made before, so that the same URL may answer differently later. *)
Class Network := {
  (** the k-th reading of [Date.now()] / [new Date()] *)
  clock : nat → Z;
  (** [axios.get(url)] of [readExternalFile]; [None] when it rejects *)
  httpGet : nat → str → option Body;
  (** download, decompression and [parseStringPromise] of one guide
      source; [None] when any of them fails *)
  fetchGuide : nat → str → option XmlDoc
}.

(** ** The guide store (epg-manager.js) *)

Module EPGManager.

(** A row of the [programs] table. The surrogate [id] column is never
    read back; rows are kept in insertion order. *)
Record ProgramRow := {
  channel_id : str;
  start_time : Z;
  stop_time : Z;
  title : str;
  description : str;
  category : str
}.

(** The SQL engine decides in which order a [SELECT] without
    [ORDER BY] visits the rows of a table. *)
Class SqlEngine := { rowOrder : list ProgramRow → list ProgramRow }.

(** The tables of [epg.db] that the manager reads and writes. *)
Record Database := {
  programs : list ProgramRow;
  channel_icons : gmap str str
}.

(** The fields of the manager, followed by what it has done to the
    outside: clock readings taken, URLs requested, file written. *)
Record State := {
  db : option Database;
  lastUpdate : option Z;
  isUpdating : bool;
  offsetMinutes : option Z;
  ticks : nat;
  requests : list str;
  disk : option Database
}.

Definition with_db (d : option Database) (s : State) : State :=
  {| db := d; lastUpdate := lastUpdate s; isUpdating := isUpdating s;
     offsetMinutes := offsetMinutes s; ticks := ticks s;
     requests := requests s; disk := disk s |}.
Definition with_lastUpdate (t : option Z) (s : State) : State :=
  {| db := db s; lastUpdate := t; isUpdating := isUpdating s;
     offsetMinutes := offsetMinutes s; ticks := ticks s;
     requests := requests s; disk := disk s |}.
Definition with_isUpdating (b : bool) (s : State) : State :=
  {| db := db s; lastUpdate := lastUpdate s; isUpdating := b;
     offsetMinutes := offsetMinutes s; ticks := ticks s;
     requests := requests s; disk := disk s |}.
Definition with_ticks (n : nat) (s : State) : State :=
  {| db := db s; lastUpdate := lastUpdate s; isUpdating := isUpdating s;
     offsetMinutes := offsetMinutes s; ticks := n;
     requests := requests s; disk := disk s |}.
Definition with_requests (r : list str) (s : State) : State :=
  {| db := db s; lastUpdate := lastUpdate s; isUpdating := isUpdating s;
     offsetMinutes := offsetMinutes s; ticks := ticks s;
     requests := r; disk := disk s |}.
Definition with_disk (d : option Database) (s : State) : State :=
  {| db := db s; lastUpdate := lastUpdate s; isUpdating := isUpdating s;
     offsetMinutes := offsetMinutes s; ticks := ticks s;
     requests := requests s; disk := d |}.

Definition with_programs (l : list ProgramRow) (d : Database) : Database :=
  {| programs := l; channel_icons := channel_icons d |}.
Definition with_icons (m : gmap str str) (d : Database) : Database :=
  {| programs := programs d; channel_icons := m |}.

(** [ORDER BY start_time ASC] *)
Definition byStart (a b : ProgramRow) : Prop := start_time a ≤ start_time b.

#[global] Instance byStart_dec : RelDecision byStart.
Proof. intros a b. unfold byStart. apply _. Defined.

Definition CHUNK_SIZE : nat := 5000.
Definition HOUR : Z := 60 * 60 * 1000.
Definition SEVEN_DAYS : Z := 7 * 24 * 60 * 60 * 1000.
Definition DAY : Z := 24 * 60 * 60 * 1000.

Section Methods.
Context {RT : JsRuntime} {NET : Network} {SQL : SqlEngine}.

Abbreviation M := (Eff.M State).

(** [Date.now()] *)
Definition Date_now : M Z :=
  λ s, (Ret (clock (ticks s)), with_ticks (S (ticks s)) s).

(** [this.db.<method>]: a null handle throws. *)
Definition theDb : M Database :=
  s <- get;;
  match db s with
  | Some d => ret d
  | None => throw (TypeError "Cannot read properties of null")
  end.

(** A statement that rewrites the tables. *)
Definition db_run (f : Database → Database) : M unit :=
  d <- theDb;; modify (with_db (Some (f d))).

(** [saveDatabase()]: a failure of the export is caught and logged. *)
Definition saveDatabase : M unit :=
  modify (λ s, match db s with
               | Some d => with_disk (Some d) s
               | None => s
               end).

(** [normalizeId(id)] *)
Definition normalizeId (id : option str) : str := normalizeExpr id.

(** The match of
    [/^(\d{4})(\d{2})(\d{2})(\d{2})(\d{2})(\d{2})\s*([+-]\d{4})$/]:
    the fourteen digits and the zone, or nothing. *)
Definition matchEPGDate (s : str) : option (str * str) :=
  let digits := take 14 s in
  let zone := trimStart (drop 14 s) in
  if (length digits =? 14)%nat && forallb isDigit digits then
    match zone with
    | sign :: tz =>
        if ((sign =? 43) || (sign =? 45))%N
           && (length tz =? 4)%nat && forallb isDigit tz
        then Some (digits, zone) else None
    | [] => None
    end
  else None.

(** The ISO string [parseEPGDate] hands to [new Date]. *)
Definition isoString (digits zone : str) : str :=
  take 4 digits ++ lit "-" ++ take 2 (drop 4 digits) ++ lit "-"
  ++ take 2 (drop 6 digits) ++ lit "T" ++ take 2 (drop 8 digits) ++ lit ":"
  ++ take 2 (drop 10 digits) ++ lit ":" ++ take 2 (drop 12 digits)
  ++ take 3 zone ++ lit ":" ++ drop 3 zone.

(** [parseEPGDate(dateString)]: the instant, or null. *)
Definition parseEPGDate (dateString : option str) : option Z :=
  match dateString with
  | None => None
  | Some s =>
      if truthy s then
        match matchEPGDate s with
        | Some (digits, zone) => dateFromISO (isoString digits zone)
        | None => None
        end
      else None
  end.

(** [formatDateIT(new Date(t))] *)
Definition formatDateIT (s : State) (t : Z) : str :=
  localeTime ((λ m, t + m * 60000) <$> offsetMinutes s).

(** [cleanupOldPrograms()]; the count it returns is only logged. *)
Definition cleanupOldPrograms : M unit :=
  now <- Date_now;;
  let oneHourAgo := now - HOUR in
  db_run (λ d, with_programs
                 (List.filter (λ r, negb (stop_time r <? oneHourAgo)) (programs d)) d);;
  saveDatabase.

(** What reaches a bind parameter of the insert statement: a string, or
    the element object itself, which sql.js refuses to bind. *)
Inductive Bound :=
| BText (s : str)
| BObject.

(** [n?._ || n?.$?.text || n || dflt] where [n] is the first child of
    that name. *)
Definition textOf (n : option XNode) (dflt : str) : Bound :=
  match n with
  | None => BText dflt
  | Some (NText s) => if truthy s then BText s else BText dflt
  | Some (NElem u a) =>
      match u with
      | Some s => if truthy s then BText s else
          match a with
          | Some t => if truthy t then BText t else BObject
          | None => BObject
          end
      | None =>
          match a with
          | Some t => if truthy t then BText t else BObject
          | None => BObject
          end
      end
  end.

(** [stmt.run([channelId, start, stop, title, description, category])]
    of the insert into [programs]. No column of the row has a uniqueness
    constraint besides the generated id, so OR REPLACE never replaces. *)
Definition insertProgram (channelId : str) (start stop : Z)
    (t d c : Bound) : M unit :=
  match t, d, c with
  | BText t', BText d', BText c' =>
      db_run (λ db, with_programs
        (programs db ++
           [{| channel_id := channelId; start_time := start;
               stop_time := stop; title := t'; description := d';
               category := c' |}]) db)
  | _, _, _ => throw (SqlError "tried to bind a value of an unknown type")
  end.

(** The body of the inner loop of [processEPGInChunks]. *)
Definition processProgramme (oneHourAgo sevenDaysFromNow : Z)
    (program : XProgramme) : M unit :=
  match xp_attrs program with
  | None => throw (TypeError "Cannot read properties of undefined")
  | Some a =>
      let channelId := normalizeId (xp_channel a) in
      match parseEPGDate (xp_start a), parseEPGDate (xp_stop a) with
      | Some start, Some stop =>
          if stop <? oneHourAgo then ret tt
          else if sevenDaysFromNow <? start then ret tt
          else insertProgram channelId start stop
                 (textOf (xp_title program) (lit "Nessun Titolo"))
                 (textOf (xp_desc program) [])
                 (textOf (xp_category program) [])
      | _, _ => ret tt
      end
  end.

(** The body of the icon loop: INSERT OR REPLACE on the primary key. *)
Definition processChannel (channel : XChannel) : M unit :=
  match xc_attrs channel with
  | None => throw (TypeError "Cannot read properties of undefined")
  | Some a =>
      let id := normalizeId (xc_id a) in
      match xc_icon channel with
      | Some icon =>
          if truthy id && truthy icon
          then db_run (λ db, with_icons (<[id := icon]> (channel_icons db)) db)
          else ret tt
      | None => ret tt
      end
  end.

(** [programs.slice(i, i + n)] for [i = 0, n, 2n, ...] below the length. *)
Fixpoint chunksFrom {A} (fuel n : nat) (l : list A) : list (list A) :=
  match fuel with
  | O => []
  | S fuel' =>
      match l with
      | [] => []
      | _ :: _ => take n l :: chunksFrom fuel' n (drop n l)
      end
  end.

Definition chunks {A} (n : nat) (l : list A) : list (list A) :=
  chunksFrom (length l) n l.

(** [processEPGInChunks(data)] *)
Definition processEPGInChunks (data : XmlDoc) : M unit :=
  match tv data with
  | None => ret tt
  | Some t =>
      match tv_channel t with
      | Some channels => theDb;; forEach processChannel channels
      | None => ret tt
      end;;
      match tv_programme t with
      | None => ret tt
      | Some programmes =>
          now <- Date_now;;
          let oneHourAgo := now - HOUR in
          let sevenDaysFromNow := now + SEVEN_DAYS in
          theDb;;
          forEach (forEach (processProgramme oneHourAgo sevenDaysFromNow))
                  (chunks CHUNK_SIZE programmes);;
          saveDatabase
      end
  end.

(** [axios.get]: the request is made, then answered. *)
Definition request {A} (answer : nat → str → option A) (url : str) : M A :=
  s <- get;;
  modify (with_requests (requests s ++ [url]));;
  match answer (length (requests s)) url with
  | Some a => ret a
  | None => throw (Failure "request failed")
  end.

(** [downloadAndProcessEPG(epgUrl)]: whatever fails is logged. *)
Definition downloadAndProcessEPG (epgUrl : str) : M unit :=
  tryCatch
    (xmlData <- request fetchGuide (trim epgUrl);;
     match tv xmlData with
     | None => throw (Failure "Struttura XML EPG non valida")
     | Some _ => processEPGInChunks xmlData
     end)
    (λ _, ret tt).

(** [s.split(c)] for a separator of one code unit. *)
Fixpoint splitOn (c : N) (s : str) : list str :=
  match s with
  | [] => [[]]
  | x :: s' =>
      if (x =? c)%N then [] :: splitOn c s'
      else match splitOn c s' with
           | w :: ws => (x :: w) :: ws
           | [] => [[x]]
           end
  end.

(** The value the caller passes for the guide source. *)
Inductive UrlArg :=
| UrlList (l : list str)
| UrlString (s : str)
| UrlAbsent.

(** [readExternalFile(url)] *)
Definition readExternalFile (url : UrlArg) : M (list str) :=
  match url with
  | UrlList l => ret l
  | UrlAbsent => throw (TypeError "Cannot read properties of null")
  | UrlString u =>
      if includes u (lit ",") then ret (map trim (splitOn 44 u))
      else
        tryCatch
          (if endsWith u (lit ".gz") then ret [u]
           else
             content <- request httpGet (trim u);;
             match content with
             | Text c =>
                 if includes c (lit "<?xml") || includes c (lit "<tv")
                 then ret [u]
                 else
                   let urls :=
                     List.filter
                       (λ line, truthy (trim line) && startsWith line (lit "http"))
                       (splitOn 10 c) in
                   match urls with
                   | _ :: _ => ret urls
                   | [] => ret [u]
                   end
             | NotText => throw (TypeError "content.split is not a function")
             end)
          (λ _, ret [u])
  end.

(** [startEPGUpdate(url)] *)
Definition startEPGUpdate (url : UrlArg) : M unit :=
  s <- get;;
  if isUpdating s then ret tt
  else
    _ <- Date_now;;
    tryFinally
      (tryCatch
         (modify (with_isUpdating true);;
          epgUrls <- readExternalFile url;;
          db_run (with_programs []);;
          db_run (with_icons ∅);;
          forEach downloadAndProcessEPG epgUrls;;
          _ <- Date_now;;
          cleanupOldPrograms)
         (λ _, ret tt))
      (modify (with_isUpdating false);;
       t <- Date_now;;
       modify (with_lastUpdate (Some t))).

(** A programme as the queries hand it out. *)
Record Shown := {
  sh_title : str;
  sh_description : str;
  sh_category : str;
  sh_start : str;
  sh_stop : str
}.

Definition show (s : State) (r : ProgramRow) : Shown :=
  {| sh_title := title r; sh_description := description r;
     sh_category := category r;
     sh_start := formatDateIT s (start_time r);
     sh_stop := formatDateIT s (stop_time r) |}.

(** [!channelId] *)
Definition absent (channelId : option str) : bool :=
  match channelId with
  | Some s => negb (truthy s)
  | None => true
  end.

(** The rows of
    [WHERE channel_id = ? AND start_time <= ? AND stop_time >= ? LIMIT 1] *)
Definition selectCurrent (id : str) (now : Z) (t : list ProgramRow)
    : list ProgramRow :=
  take 1 (filter (λ r, channel_id r = id ∧ start_time r ≤ now ∧ now ≤ stop_time r)
                 (rowOrder t)).

(** [getCurrentProgram(channelId)] *)
Definition getCurrentProgram (channelId : option str) : M (option Shown) :=
  s <- get;;
  if absent channelId then ret None
  else
    match db s with
    | None => ret None
    | Some d =>
        let normalizedId := normalizeId channelId in
        now <- Date_now;;
        match selectCurrent normalizedId now (programs d) with
        | row :: _ => ret (Some (show s row))
        | [] => ret None
        end
    end.

(** The rows of
    [WHERE channel_id = ? AND start_time >= ? ORDER BY start_time ASC LIMIT 2] *)
Definition selectUpcoming (id : str) (now : Z) (t : list ProgramRow)
    : list ProgramRow :=
  take 2 (merge_sort byStart
            (filter (λ r, channel_id r = id ∧ now ≤ start_time r) (rowOrder t))).

(** [getUpcomingPrograms(channelId)] *)
Definition getUpcomingPrograms (channelId : option str) : M (list Shown) :=
  s <- get;;
  if absent channelId then ret []
  else
    match db s with
    | None => ret []
    | Some d =>
        let normalizedId := normalizeId channelId in
        now <- Date_now;;
        ret (map (show s) (selectUpcoming normalizedId now (programs d)))
    end.

(** [needsUpdate()] *)
Definition needsUpdate : M bool :=
  s <- get;;
  match lastUpdate s with
  | None => ret true
  | Some t =>
      if t =? 0 then ret true
      else now <- Date_now;; ret (DAY <=? now - t)
  end.

(** The rows of [programs]; none without a database. *)
Definition stored (s : State) : list ProgramRow :=
  match db s with
  | Some d => programs d
  | None => []
  end.

(** The retention window around an ingestion time. *)
Definition inWindow (now : Z) (r : ProgramRow) : Prop :=
  now - HOUR ≤ stop_time r ∧ start_time r ≤ now + SEVEN_DAYS.

(** Row [r] was read off programme element [p]. *)
Definition readFrom (p : XProgramme) (r : ProgramRow) : Prop :=
  ∃ a, xp_attrs p = Some a
       ∧ channel_id r = normalizeId (xp_channel a)
       ∧ parseEPGDate (xp_start a) = Some (start_time r)
       ∧ parseEPGDate (xp_stop a) = Some (stop_time r).

(** An element whose dates parse and pass the two tests of the loop
    against the bounds [lo] and [hi]. *)
Definition passes (lo hi : Z) (p : XProgramme) : Prop :=
  ∃ a start stop,
    xp_attrs p = Some a
    ∧ parseEPGDate (xp_start a) = Some start
    ∧ parseEPGDate (xp_stop a) = Some stop
    ∧ lo ≤ stop ∧ start ≤ hi.

(** An element the loop can process without throwing: it has
    attributes, and its text fields are strings. *)
Definition bindable (p : XProgramme) : Prop :=
  is_Some (xp_attrs p)
  ∧ textOf (xp_title p) (lit "Nessun Titolo") ≠ BObject
  ∧ textOf (xp_desc p) [] ≠ BObject
  ∧ textOf (xp_category p) [] ≠ BObject.

(** An open database stays open. *)
Definition staysOpen (s s' : State) : Prop := is_Some (db s) → is_Some (db s').

(** The row of [channel_icons] a [<channel>] element gives rise to:
    its normalised identifier and its icon, both non-empty. *)
Definition iconRow (c : XChannel) : option (str * str) :=
  match xc_attrs c, xc_icon c with
  | Some a, Some icon =>
      if truthy (normalizeId (xc_id a)) && truthy icon
      then Some (normalizeId (xc_id a), icon) else None
  | _, _ => None
  end.

(** What the INSERT OR REPLACE of one element does to the table. *)
Definition upsertIcon (m : gmap str str) (c : XChannel) : gmap str str :=
  match iconRow c with
  | Some (k, v) => <[k := v]> m
  | None => m
  end.

(** [getChannelIcon(channelId)] *)
Definition getChannelIcon (channelId : option str) : M (option str) :=
  s <- get;;
  if absent channelId then ret None
  else
    match db s with
    | None => ret None
    | Some d =>
        let normalizedId := normalizeId channelId in
        ret (channel_icons d !! normalizedId)
    end.

(** [isEPGAvailable()] *)
Definition isEPGAvailable : M bool :=
  s <- get;;
  match db s with
  | None => ret false
  | Some d =>
      if isUpdating s then ret false
      else ret (0 <? length (programs d))%nat
  end.

(** [initializeDatabase()]: the file is loaded when it exists, a new
    database is created otherwise; [sqlReady] tells whether [initSqlJs]
    resolves. Whatever fails is logged and leaves the handle null. *)
Definition initializeDatabase (sqlReady : bool) : M unit :=
  tryCatch
    (if sqlReady then
       modify (λ s, with_db
                      (Some (match disk s with
                             | Some d => d
                             | None => {| programs := []; channel_icons := ∅ |}
                             end)) s)
     else throw (Failure "initSqlJs"))
    (λ _, ret tt).

(** The tasks the manager registers with node-cron: the daily refresh
    ['0 3 * * *'] and the cleanup ['0 */6 * * *']. *)
Inductive Job :=
| DailyRefresh
| PeriodicCleanup.

(** The manager with the fields the guide queries do not read, and the
    tasks registered so far. *)
Record Manager := {
  state : State;
  timeZoneOffset : option str;
  lastEpgUrl : option str;
  cronJob : option Job;
  cleanupJob : option Job;
  scheduled : list Job
}.

Definition with_state (s : State) (m : Manager) : Manager :=
  {| state := s; timeZoneOffset := timeZoneOffset m;
     lastEpgUrl := lastEpgUrl m; cronJob := cronJob m;
     cleanupJob := cleanupJob m; scheduled := scheduled m |}.
Definition with_timeZoneOffset (z : option str) (m : Manager) : Manager :=
  {| state := state m; timeZoneOffset := z;
     lastEpgUrl := lastEpgUrl m; cronJob := cronJob m;
     cleanupJob := cleanupJob m; scheduled := scheduled m |}.
Definition with_lastEpgUrl (u : option str) (m : Manager) : Manager :=
  {| state := state m; timeZoneOffset := timeZoneOffset m;
     lastEpgUrl := u; cronJob := cronJob m;
     cleanupJob := cleanupJob m; scheduled := scheduled m |}.
Definition with_cronJob (j : option Job) (m : Manager) : Manager :=
  {| state := state m; timeZoneOffset := timeZoneOffset m;
     lastEpgUrl := lastEpgUrl m; cronJob := j;
     cleanupJob := cleanupJob m; scheduled := scheduled m |}.
Definition with_cleanupJob (j : option Job) (m : Manager) : Manager :=
  {| state := state m; timeZoneOffset := timeZoneOffset m;
     lastEpgUrl := lastEpgUrl m; cronJob := cronJob m;
     cleanupJob := j; scheduled := scheduled m |}.
Definition with_scheduled (l : list Job) (m : Manager) : Manager :=
  {| state := state m; timeZoneOffset := timeZoneOffset m;
     lastEpgUrl := lastEpgUrl m; cronJob := cronJob m;
     cleanupJob := cleanupJob m; scheduled := l |}.
Definition with_offsetMinutes (o : option Z) (s : State) : State :=
  {| db := db s; lastUpdate := lastUpdate s; isUpdating := isUpdating s;
     offsetMinutes := o; ticks := ticks s;
     requests := requests s; disk := disk s |}.

(** A method of the store, run on the manager. *)
Definition onState {A} (c : M A) : Eff.M Manager A :=
  λ m, let (r, s') := c (state m) in (r, with_state s' m).

(** The match of [/^[+-]\d{1,2}:\d{2}$/]: sign, hours and minutes. *)
Definition matchTimezone (s : str) : option (N * str * str) :=
  match s with
  | sign :: rest =>
      if ((sign =? 43) || (sign =? 45))%N then
        match matchHHMM rest with
        | Some (h, m) => Some (sign, h, m)
        | None => None
        end
      else None
  | [] => None
  end.

(** [validateAndSetTimezone()], [env] being
    [process.env.TIMEZONE_OFFSET]. *)
Definition validateAndSetTimezone (env : option str) : Eff.M Manager unit :=
  let timeZone :=
    match env with
    | Some z => if truthy z then z else lit "+2:00"
    | None => lit "+2:00"
    end in
  match matchTimezone timeZone with
  | None => modify (with_timeZoneOffset (Some (lit "+2:00")))
  | Some (sign, hours, minutes) =>
      modify (with_timeZoneOffset (Some timeZone));;
      modify (λ m, with_state
                     (with_offsetMinutes
                        (Some ((parseDigits hours * 60 + parseDigits minutes)
                               * (if (sign =? 43)%N then 1 else -1)))
                        (state m)) m)
  end.

(** [cron.schedule(expression, task)]: the task is registered and
    handed back. *)
Definition cron_schedule (j : Job) : Eff.M Manager Job :=
  modify (λ m, with_scheduled (scheduled m ++ [j]) m);; ret j.

(** [schedulePeriodicCleanup()] *)
Definition schedulePeriodicCleanup : Eff.M Manager unit :=
  m <- get;;
  match cleanupJob m with
  | Some _ => ret tt
  | None =>
      job <- cron_schedule PeriodicCleanup;;
      modify (with_cleanupJob (Some job))
  end.

(** [initializeEPG(url)] for a URL string. *)
Definition initializeEPG (url : str) : Eff.M Manager unit :=
  m <- get;;
  available <- (if bool_decide (lastEpgUrl m = Some url)
                then onState isEPGAvailable else ret false);;
  if available then ret tt
  else
    modify (with_lastEpgUrl (Some url));;
    onState (startEPGUpdate (UrlString url));;
    m' <- get;;
    match cronJob m' with
    | Some _ => ret tt
    | None =>
        job <- cron_schedule DailyRefresh;;
        modify (with_cronJob (Some job))
    end.

(** What a registered task does when node-cron fires it. *)
Definition fire (j : Job) : Eff.M Manager unit :=
  match j with
  | DailyRefresh =>
      m <- get;;
      onState (startEPGUpdate
                 (match lastEpgUrl m with
                  | Some u => UrlString u
                  | None => UrlAbsent
                  end))
  | PeriodicCleanup => onState cleanupOldPrograms
  end.

(** What [getStatus()] returns. *)
Record Status := {
  st_isUpdating : bool;
  st_lastUpdate : str;
  st_channelsCount : nat;
  st_iconsCount : nat;
  st_programsCount : nat;
  st_timezone : option str;
  st_storageType : str
}.

(** [getStatus()] *)
Definition getStatus : Eff.M Manager Status :=
  m <- get;;
  let s := state m in
  ret {| st_isUpdating := isUpdating s;
         st_lastUpdate :=
           match lastUpdate s with
           | Some t => if t =? 0 then lit "Mai" else formatDateIT s t
           | None => lit "Mai"
           end;
         st_channelsCount :=
           match db s with
           | Some d => length (remove_dups (channel_id <$> programs d))
           | None => 0%nat
           end;
         st_iconsCount :=
           match db s with
           | Some d => size (channel_icons d)
           | None => 0%nat
           end;
         st_programsCount :=
           match db s with
           | Some d => length (programs d)
           | None => 0%nat
           end;
         st_timezone := timeZoneOffset m;
         st_storageType := lit "SQLite (Disk)" |}.

(** [new EPGManager()] up to the asynchronous opening of the database,
    in a process whose environment holds [env] and whose data directory
    holds [file]. *)
Definition construct (env : option str) (file : option Database) : Manager :=
  let m0 :=
    {| state := {| db := None; lastUpdate := None; isUpdating := false;
                   offsetMinutes := None; ticks := 0; requests := [];
                   disk := file |};
       timeZoneOffset := None; lastEpgUrl := None; cronJob := None;
       cleanupJob := None; scheduled := [] |} in
  (schedulePeriodicCleanup (validateAndSetTimezone env m0).2).2.

(** What reaches a manager over its life: the database opens (or
    fails to), the add-on asks for a guide, the cleanup is scheduled
    again, node-cron fires a task. *)
Inductive Call :=
| Open (sqlReady : bool)
| Initialize (url : str)
| ScheduleCleanup
| Fire (j : Job).

Definition call (c : Call) : Eff.M Manager unit :=
  match c with
  | Open sqlReady => onState (initializeDatabase sqlReady)
  | Initialize url => initializeEPG url
  | ScheduleCleanup => schedulePeriodicCleanup
  | Fire j => fire j
  end.

(** The manager after a run of calls, each one made when the one
    before it has settled. *)
Definition calls (l : list Call) (m : Manager) : Manager :=
  fold_left (λ m c, (call c m).2) l m.


End Methods.
End EPGManager.

(** ** The catalogue store (class CacheManager) *)

Module CacheManager.

(** What the store reads of a channel record. *)
Record Channel := {
  ch_id : str;
  ch_name : option str;
  ch_genre : option (list str);
  ch_tvg_id : option str
}.

(** What [loadAndTransform] resolves to. *)
Record StremioData := {
  channels : list Channel;
  genres : list str;
  data_epgUrls : option (list str)
}.

(** [this.cache] *)
Record Cache := {
  stremioData : option StremioData;
  lastUpdated : option Z;
  updateInProgress : bool;
  m3uUrl : option str;
  epgUrls : option (list str)
}.

(** The tables of [cache.db]; a channel row holds the record itself in
    place of its JSON text, the metadata rows are typed. *)
Record Database := {
  channels_table : list (str * Channel);
  genres_table : list str;
  meta_lastUpdated : option Z;
  meta_m3uUrl : option str;
  meta_epgUrls : option (list str)
}.

Inductive Event :=
| cacheUpdated (c : Cache)
| cacheError (e : exn).

(** The fields of the manager, followed by what it has done to the
    outside: events emitted, calls of the transformer, clock readings,
    file written. *)
Record State := {
  config : option (gmap string str);
  cache : option Cache;
  db : option Database;
  emitted : list Event;
  transformCalls : list (option str * option (gmap string str));
  ticks : nat;
  disk : option Database
}.

Definition with_config (c : option (gmap string str)) (s : State) : State :=
  {| config := c; cache := cache s; db := db s; emitted := emitted s;
     transformCalls := transformCalls s; ticks := ticks s; disk := disk s |}.
Definition with_cache (c : option Cache) (s : State) : State :=
  {| config := config s; cache := c; db := db s; emitted := emitted s;
     transformCalls := transformCalls s; ticks := ticks s; disk := disk s |}.
Definition with_db (d : option Database) (s : State) : State :=
  {| config := config s; cache := cache s; db := d; emitted := emitted s;
     transformCalls := transformCalls s; ticks := ticks s; disk := disk s |}.
Definition with_emitted (l : list Event) (s : State) : State :=
  {| config := config s; cache := cache s; db := db s; emitted := l;
     transformCalls := transformCalls s; ticks := ticks s; disk := disk s |}.
Definition with_transformCalls
    (l : list (option str * option (gmap string str))) (s : State) : State :=
  {| config := config s; cache := cache s; db := db s; emitted := emitted s;
     transformCalls := l; ticks := ticks s; disk := disk s |}.
Definition with_ticks (n : nat) (s : State) : State :=
  {| config := config s; cache := cache s; db := db s; emitted := emitted s;
     transformCalls := transformCalls s; ticks := n; disk := disk s |}.
Definition with_disk (d : option Database) (s : State) : State :=
  {| config := config s; cache := cache s; db := db s; emitted := emitted s;
     transformCalls := transformCalls s; ticks := ticks s; disk := d |}.

Definition with_updateInProgress (b : bool) (c : Cache) : Cache :=
  {| stremioData := stremioData c; lastUpdated := lastUpdated c;
     updateInProgress := b; m3uUrl := m3uUrl c; epgUrls := epgUrls c |}.

(** The three results of a lookup. *)
Inductive Lookup :=
| Null
| Undefined
| Found (c : Channel).

(** Where an asynchronous call stands when it first yields. *)
Inductive Pending :=
| Returned
| AwaitingTransform.

Section Methods.
Context {RT : JsRuntime} {NET : Network}.

Abbreviation M := (Eff.M State).

Definition Date_now : M Z :=
  λ s, (Ret (clock (ticks s)), with_ticks (S (ticks s)) s).

(** [this.cache.<field>]: a null cache throws. *)
Definition theCache : M Cache :=
  s <- get;;
  match cache s with
  | Some c => ret c
  | None => throw (TypeError "Cannot read properties of null")
  end.

Definition theDb : M Database :=
  s <- get;;
  match db s with
  | Some d => ret d
  | None => throw (TypeError "Cannot read properties of null")
  end.

Definition db_run (f : Database → Database) : M unit :=
  d <- theDb;; modify (with_db (Some (f d))).

Definition emit (e : Event) : M unit :=
  modify (λ s, with_emitted (emitted s ++ [e]) s).

(** [saveDatabase()] *)
Definition saveDatabase : M unit :=
  modify (λ s, match db s with
               | Some d => with_disk (Some d) s
               | None => s
               end).

(** [this.config?.id_suffix], when truthy *)
Definition id_suffix (cfg : option (gmap string str)) : option str :=
  match cfg with
  | Some c =>
      match c !! "id_suffix"%string with
      | Some x => if truthy x then Some x else None
      | None => None
      end
  | None => None
  end.

(** [normalizeId(id, removeSuffix = false)] *)
Definition normalizeId (s : State) (id : option str) (removeSuffix : bool) : str :=
  let normalized := normalizeExpr id in
  if removeSuffix then
    match id_suffix (config s) with
    | Some x =>
        let suffix := lit "." ++ x in
        if endsWith normalized suffix
        then take (length normalized - length suffix) normalized
        else normalized
    | None => normalized
    end
  else normalized.

(** The insert of one channel row; a primary-key conflict is caught and
    logged by the caller, the row is not written. *)
Definition insertChannel (ch : Channel) (d : Database) : Database :=
  if bool_decide (ch_id ch ∈ (channels_table d).*1) then d
  else {| channels_table := channels_table d ++ [(ch_id ch, ch)];
          genres_table := genres_table d;
          meta_lastUpdated := meta_lastUpdated d;
          meta_m3uUrl := meta_m3uUrl d; meta_epgUrls := meta_epgUrls d |}.

(** The insert of one genre row; a primary-key conflict throws. *)
Definition insertGenre (g : str) : M unit :=
  d <- theDb;;
  if bool_decide (g ∈ genres_table d)
  then throw (SqlError "UNIQUE constraint failed: genres.genre")
  else db_run (λ d, {| channels_table := channels_table d;
                       genres_table := genres_table d ++ [g];
                       meta_lastUpdated := meta_lastUpdated d;
                       meta_m3uUrl := meta_m3uUrl d;
                       meta_epgUrls := meta_epgUrls d |}).

(** [saveCacheToDB()] *)
Definition saveCacheToDB : M unit :=
  tryCatch
    (c <- theCache;;
     match lastUpdated c with
     | Some t =>
         if t =? 0 then ret tt
         else db_run (λ d, {| channels_table := channels_table d;
                              genres_table := genres_table d;
                              meta_lastUpdated := Some t;
                              meta_m3uUrl := meta_m3uUrl d;
                              meta_epgUrls := meta_epgUrls d |})
     | None => ret tt
     end;;
     match m3uUrl c with
     | Some u =>
         if truthy u
         then db_run (λ d, {| channels_table := channels_table d;
                              genres_table := genres_table d;
                              meta_lastUpdated := meta_lastUpdated d;
                              meta_m3uUrl := Some u;
                              meta_epgUrls := meta_epgUrls d |})
         else ret tt
     | None => ret tt
     end;;
     match epgUrls c with
     | Some l => db_run (λ d, {| channels_table := channels_table d;
                                 genres_table := genres_table d;
                                 meta_lastUpdated := meta_lastUpdated d;
                                 meta_m3uUrl := meta_m3uUrl d;
                                 meta_epgUrls := Some l |})
     | None => ret tt
     end;;
     match stremioData c with
     | Some data =>
         db_run (λ d, {| channels_table := [];
                         genres_table := genres_table d;
                         meta_lastUpdated := meta_lastUpdated d;
                         meta_m3uUrl := meta_m3uUrl d;
                         meta_epgUrls := meta_epgUrls d |});;
         forEach (λ ch, db_run (insertChannel ch)) (channels data);;
         db_run (λ d, {| channels_table := channels_table d;
                         genres_table := [];
                         meta_lastUpdated := meta_lastUpdated d;
                         meta_m3uUrl := meta_m3uUrl d;
                         meta_epgUrls := meta_epgUrls d |});;
         forEach insertGenre (genres data)
     | None => ret tt
     end;;
     saveDatabase)
    (λ _, ret tt).

(** [rebuildCache(m3uUrl, config)] up to its [await]: the guard, the
    flag, the merge of the configuration and the call of the
    transformer. *)
Definition rebuildCache_enter (url : option str)
    (cfg : option (gmap string str)) : M Pending :=
  c <- theCache;;
  if updateInProgress c then ret Returned
  else
    modify (with_cache (Some (with_updateInProgress true c)));;
    match cfg with
    | Some new =>
        modify (λ s, with_config (Some (new ∪ default ∅ (config s))) s)
    | None => ret tt
    end;;
    modify (λ s, with_transformCalls (transformCalls s ++ [(url, config s)]) s);;
    ret AwaitingTransform.

(** [rebuildCache(m3uUrl, config)] from the moment the transformer
    settles with [answer]. *)
Definition rebuildCache_resume (url : option str)
    (answer : exn + StremioData) : M unit :=
  tryCatch
    (match answer with
     | inl e => throw e
     | inr data =>
         now <- Date_now;;
         modify (with_cache (Some
           {| stremioData := Some data; lastUpdated := Some now;
              updateInProgress := false; m3uUrl := url;
              epgUrls := data_epgUrls data |}));;
         saveCacheToDB;;
         c <- theCache;;
         emit (cacheUpdated c)
     end)
    (λ error,
       c <- theCache;;
       modify (with_cache (Some (with_updateInProgress false c)));;
       emit (cacheError error);;
       throw error).

(** [await rebuildCache(m3uUrl, config)] with nothing else running in
    between. *)
Definition rebuildCache (answer : exn + StremioData) (url : option str)
    (cfg : option (gmap string str)) : M unit :=
  p <- rebuildCache_enter url cfg;;
  match p with
  | Returned => ret tt
  | AwaitingTransform => rebuildCache_resume url answer
  end.

(** [this.cache?.stremioData?.channels] *)
Definition cachedChannels (s : State) : option (list Channel) :=
  match cache s with
  | Some c => channels <$> stremioData c
  | None => None
  end.

(** [!channelId] *)
Definition absent (x : option str) : bool :=
  match x with
  | Some s => negb (truthy s)
  | None => true
  end.

(** [getChannel(channelId)] *)
Definition getChannel (s : State) (channelId : option str) : Lookup :=
  if absent channelId then Null
  else
    match cachedChannels s with
    | None => Null
    | Some chans =>
        let normalizedSearchId := normalizeId s channelId false in
        let channel :=
          List.find
            (λ ch,
               let normalizedChannelId :=
                 normalizeId s (Some (removeFirst (ch_id ch) (lit "tv|"))) false in
               let normalizedTvgId := normalizeId s (ch_tvg_id ch) false in
               bool_decide (normalizedChannelId = normalizedSearchId)
               || bool_decide (normalizedTvgId = normalizedSearchId))
            chans in
        match channel with
        | Some ch => Found ch
        | None =>
            match List.find
                    (λ ch, bool_decide (normalizeId s (ch_name ch) false
                                        = normalizedSearchId))
                    chans with
            | Some ch => Found ch
            | None => Undefined
            end
        end
    end.

(** [getChannelsByGenre(genre)] *)
Definition getChannelsByGenre (s : State) (genre : option str) : list Channel :=
  match genre with
  | None => []
  | Some g =>
      if truthy g then
        match cachedChannels s with
        | None => []
        | Some chans =>
            List.filter
              (λ channel,
                 match ch_genre channel with
                 | Some gs => bool_decide (g ∈ gs)
                 | None => false
                 end)
              chans
        end
      else []
  end.

(** [searchChannels(query)] *)
Definition searchChannels (s : State) (query : option str) : list Channel :=
  match cachedChannels s with
  | None => []
  | Some chans =>
      if absent query then chans
      else
        let normalizedQuery := normalizeId s query false in
        List.filter
          (λ channel, includes (normalizeId s (ch_name channel) false) normalizedQuery)
          chans
  end.

(** Between two states the transformer was not called. *)
Definition quiet (s s' : State) : Prop :=
  transformCalls s' = transformCalls s.

(** The three ways a channel can answer to a normalised identifier. *)
Definition byId (s : State) (n : str) (ch : Channel) : Prop :=
  normalizeId s (Some (removeFirst (ch_id ch) (lit "tv|"))) false = n.
Definition byTvgId (s : State) (n : str) (ch : Channel) : Prop :=
  normalizeId s (ch_tvg_id ch) false = n.
Definition byName (s : State) (n : str) (ch : Channel) : Prop :=
  normalizeId s (ch_name ch) false = n.

(** [addSuffix(id)] *)
Definition addSuffix (s : State) (id : option str) : option str :=
  match id with
  | None => None
  | Some i =>
      if truthy i then
        match id_suffix (config s) with
        | Some x =>
            let suffix := lit "." ++ x in
            if endsWith i suffix then Some i else Some (i ++ suffix)
        | None => id
        end
      else id
  end.

(** [getCachedData()] *)
Definition getCachedData (s : State) : list Channel * list str :=
  match cache s with
  | Some c =>
      match stremioData c with
      | Some data => (channels data, genres data)
      | None => ([], [])
      end
  | None => ([], [])
  end.

Definition TWELVE_HOURS : Z := 12 * 60 * 60 * 1000.

(** The interval [isStale] reads off [config.update_interval]. *)
Definition updateIntervalMs (cfg : gmap string str) : Z :=
  match cfg !! "update_interval"%string with
  | Some v =>
      if truthy v then
        match matchHHMM v with
        | Some (h, m) =>
            let hours := parseDigits h in
            let minutes := parseDigits m in
            if (0 <=? hours) && (hours <? 24) && (0 <=? minutes) && (minutes <? 60)
            then (hours * 60 * 60 + minutes * 60) * 1000
            else TWELVE_HOURS
        | None => TWELVE_HOURS
        end
      else TWELVE_HOURS
  | None => TWELVE_HOURS
  end.

(** [isStale(config)]; a null [config] is not replaced by the default
    of the parameter and throws where it is read. *)
Definition isStale (cfg : option (gmap string str)) : M bool :=
  s <- get;;
  match cache s with
  | None => ret true
  | Some c =>
      match lastUpdated c, stremioData c with
      | Some t, Some _ =>
          if t =? 0 then ret true
          else
            match cfg with
            | None => throw (TypeError "Cannot read properties of null")
            | Some cfg' =>
                let interval := updateIntervalMs cfg' in
                now <- Date_now;;
                ret (interval <=? now - t)
            end
      | _, _ => ret true
      end
  end.

(** [initializeDatabase()], as in the guide store. *)
Definition initializeDatabase (sqlReady : bool) : M unit :=
  tryCatch
    (if sqlReady then
       modify (λ s, with_db
                      (Some (match disk s with
                             | Some d => d
                             | None => {| channels_table := [];
                                          genres_table := [];
                                          meta_lastUpdated := None;
                                          meta_m3uUrl := None;
                                          meta_epgUrls := None |}
                             end)) s)
     else throw (Failure "initSqlJs"))
    (λ _, ret tt).

(** The order in which the engine hands over the rows of
    [SELECT id, data FROM channels] and [SELECT genre FROM genres]. *)
Class TableOrder := {
  channelOrder : list (str * Channel) → list (str * Channel);
  genreOrder : list str → list str
}.

Context {ORD : TableOrder}.

(** [lastFilter]: [{type, value}] *)
Record Filter := {
  filter_type : str;
  filter_value : option str
}.

(** The manager with the fields the catalogue queries do not read, and
    the interval timers alive in the process. *)
Record Manager := {
  state : State;
  lastFilter : option Filter;
  pollingInterval : option nat;
  timers : list nat;
  nextTimer : nat
}.

Definition with_state (s : State) (m : Manager) : Manager :=
  {| state := s; lastFilter := lastFilter m;
     pollingInterval := pollingInterval m; timers := timers m;
     nextTimer := nextTimer m |}.
Definition with_lastFilter (f : option Filter) (m : Manager) : Manager :=
  {| state := state m; lastFilter := f;
     pollingInterval := pollingInterval m; timers := timers m;
     nextTimer := nextTimer m |}.
Definition with_pollingInterval (h : option nat) (m : Manager) : Manager :=
  {| state := state m; lastFilter := lastFilter m;
     pollingInterval := h; timers := timers m;
     nextTimer := nextTimer m |}.

(** A method of the store, run on the manager. *)
Definition onState {A} (c : M A) : Eff.M Manager A :=
  λ m, let (r, s') := c (state m) in (r, with_state s' m).

(** [setInterval(callback, 60000)]: a new timer, alive until cleared. *)
Definition setInterval : Eff.M Manager nat :=
  λ m, (Ret (nextTimer m),
        {| state := state m; lastFilter := lastFilter m;
           pollingInterval := pollingInterval m;
           timers := timers m ++ [nextTimer m];
           nextTimer := S (nextTimer m) |}).

(** [clearInterval(h)] *)
Definition clearInterval (h : nat) : Eff.M Manager unit :=
  modify (λ m, {| state := state m; lastFilter := lastFilter m;
                  pollingInterval := pollingInterval m;
                  timers := List.filter (λ x, negb (x =? h)%nat) (timers m);
                  nextTimer := nextTimer m |}).

(** [initCache()] *)
Definition initCache : Eff.M Manager unit :=
  modify (λ m, with_lastFilter None
                 (with_state
                    (with_cache
                       (Some {| stremioData := None; lastUpdated := None;
                                updateInProgress := false; m3uUrl := None;
                                epgUrls := Some [] |})
                       (state m)) m)).

(** [loadCacheFromDB()] *)
Definition loadCacheFromDB : Eff.M Manager unit :=
  tryCatch
    (d <- onState theDb;;
     let chans := (channelOrder (channels_table d)).*2 in
     let gens := genreOrder (genres_table d) in
     modify (λ m, with_state
       (with_cache
          (Some {| stremioData :=
                     match chans with
                     | _ :: _ => Some {| channels := chans; genres := gens;
                                         data_epgUrls := None |}
                     | [] => None
                     end;
                   lastUpdated := meta_lastUpdated d;
                   updateInProgress := false;
                   m3uUrl := match meta_m3uUrl d with
                             | Some u => if truthy u then Some u else None
                             | None => None
                             end;
                   epgUrls := match meta_epgUrls d with
                              | Some l => Some l
                              | None => Some []
                              end |})
          (state m)) m))
    (λ _, initCache).

(** [startPolling()]; the callback of the timer is [pollTick]. *)
Definition startPolling : Eff.M Manager unit :=
  m <- get;;
  match pollingInterval m with
  | Some h => clearInterval h
  | None => ret tt
  end;;
  h' <- setInterval;;
  modify (with_pollingInterval (Some h')).

(** [cleanup()] *)
Definition cleanup : Eff.M Manager unit :=
  m <- get;;
  match pollingInterval m with
  | Some h => clearInterval h;; modify (with_pollingInterval None)
  | None => ret tt
  end.

(** The callback [startPolling] hands to [setInterval]; [answer] is
    what the transformer settles with if it is called. *)
Definition pollTick (answer : exn + StremioData) : M unit :=
  s <- get;;
  match cache s with
  | None => ret tt
  | Some c =>
      match stremioData c with
      | None => ret tt
      | Some _ =>
          stale <- isStale (config s);;
          if stale then
            tryCatch (rebuildCache answer (m3uUrl c) (config s)) (λ _, ret tt)
          else ret tt
      end
  end.

(** [this.config?.<k> !== newConfig.<k>] *)
Definition changed (s : State) (newConfig : gmap string str) (k : string)
    : bool :=
  negb (bool_decide (match config s with
                     | Some c => c !! k
                     | None => None
                     end = newConfig !! k)).

(** The branch of [updateConfig] for a playlist that changed: the data
    and the URL of the snapshot are dropped, and the catalogue is
    rebuilt if the merged configuration names a playlist. *)
Definition reloadPlaylist (answer : exn + StremioData) : M unit :=
  c <- theCache;;
  modify (with_cache
            (Some {| stremioData := None; lastUpdated := lastUpdated c;
                     updateInProgress := updateInProgress c;
                     m3uUrl := None; epgUrls := epgUrls c |}));;
  s <- get;;
  match default ∅ (config s) !! "m3u"%string with
  | Some u =>
      if truthy u then rebuildCache answer (Some u) (config s)
      else ret tt
  | None => ret tt
  end.

(** [updateConfig(newConfig)] *)
Definition updateConfig (answer : exn + StremioData)
    (newConfig : gmap string str) : Eff.M Manager unit :=
  m <- get;;
  let hasM3UChanges := changed (state m) newConfig "m3u" in
  let hasOtherChanges :=
    changed (state m) newConfig "update_interval"
    || changed (state m) newConfig "id_suffix"
    || changed (state m) newConfig "remapper_path" in
  onState (modify (λ s, with_config
                          (Some (newConfig ∪ default ∅ (config s))) s));;
  (if hasM3UChanges then onState (reloadPlaylist answer) else ret tt);;
  if hasOtherChanges then startPolling else ret tt.

(** [setLastFilter(filterType, value)] *)
Definition setLastFilter (filterType : str) (value : option str)
    : Eff.M Manager unit :=
  modify (with_lastFilter
            (Some {| filter_type := filterType; filter_value := value |})).

(** [clearLastFilter()] *)
Definition clearLastFilter : Eff.M Manager unit :=
  modify (with_lastFilter None).

(** [getFilteredChannels()] *)
Definition getFilteredChannels (m : Manager) : list Channel :=
  match cachedChannels (state m) with
  | None => []
  | Some chans =>
      match lastFilter m with
      | Some f =>
          if bool_decide (filter_type f = lit "genre")
          then getChannelsByGenre (state m) (filter_value f)
          else if bool_decide (filter_type f = lit "search")
          then searchChannels (state m) (filter_value f)
          else chans
      | None => chans
      end
  end.

(** The export of the module: a new manager over the data directory
    holding [file], its database opened, its cache loaded, its
    configuration set and its polling started. *)
Definition create (sqlReady : bool) (file : option Database)
    (cfg : option (gmap string str)) : Manager :=
  let m0 :=
    {| state := {| config := None; cache := None; db := None; emitted := [];
                   transformCalls := []; ticks := 0; disk := file |};
       lastFilter := None; pollingInterval := None; timers := [];
       nextTimer := 0 |} in
  let m1 := (onState (initializeDatabase sqlReady) m0).2 in
  let m2 := (loadCacheFromDB m1).2 in
  let m3 := with_state (with_config cfg (state m2)) m2 in
  (startPolling m3).2.

(** What reaches a manager once it is created; a rebuild is taken
    whole, from its call to its end. *)
Inductive Call :=
| Rebuild (answer : exn + StremioData) (url : option str)
    (cfg : option (gmap string str))
| UpdateConfig (answer : exn + StremioData) (newConfig : gmap string str)
| StartPolling
| Cleanup
| Tick (answer : exn + StremioData)
| SetLastFilter (filterType : str) (value : option str)
| ClearLastFilter.

Definition call (c : Call) : Eff.M Manager unit :=
  match c with
  | Rebuild answer url cfg => onState (rebuildCache answer url cfg)
  | UpdateConfig answer newConfig => updateConfig answer newConfig
  | StartPolling => startPolling
  | Cleanup => cleanup
  | Tick answer => onState (pollTick answer)
  | SetLastFilter filterType value => setLastFilter filterType value
  | ClearLastFilter => clearLastFilter
  end.

(** The manager after a run of calls, each one made when the one
    before it has settled. *)
Definition calls (l : list Call) (m : Manager) : Manager :=
  fold_left (λ m c, (call c m).2) l m.

(** The snapshot object exists. *)
Definition keepsCache (s s' : State) : Prop :=
  is_Some (cache s) → is_Some (cache s').

(** The timers alive are the one the manager holds, if it holds one. *)
Definition oneTimer (m : Manager) : Prop :=
  timers m = match pollingInterval m with
             | Some h => [h]
             | None => []
             end.

End Methods.
End CacheManager.

(** ** The guide lines of a channel page (meta-handler.js) *)

Module MetaHandler.

Import EPGManager.

(** The two fields of [meta] that [enrichWithDetailedEPG] writes. *)
Record Meta := {
  meta_description : str;
  meta_releaseInfo : str
}.

(** [lines.join(sep)] *)
Fixpoint join (sep : str) (lines : list str) : str :=
  match lines with
  | [] => []
  | [l] => l
  | l :: rest => l ++ sep ++ join sep rest
  end.

(** The pictographs of the labels, in code units. *)
Definition television : str := [55357; 56570]%N.
Definition alarmClock : str := [9200]%N.
Definition label : str := [55356; 57335; 65039]%N.
Definition calendar : str := [55357; 56517]%N.
Definition bullet : str := [8226]%N.

Section Handler.
Context {RT : JsRuntime} {NET : Network} {SQL : SqlEngine}.

(** [normalizeId(id)] of this file *)
Definition normalizeId (id : option str) : str := normalizeExpr id.

(** The lines pushed for one upcoming programme. *)
Definition upcomingLines (program : Shown) : list str :=
  [ []; bullet ++ lit " " ++ sh_start program ++ lit " - " ++ sh_title program ]
  ++ (if truthy (sh_description program)
      then [lit "  " ++ sh_description program] else [])
  ++ (if truthy (sh_category program)
      then [lit "  " ++ label ++ lit " " ++ sh_category program] else []).

(** [enrichWithDetailedEPG(meta, channelId, userConfig)], [epg_enabled]
    being the truth value of [userConfig.epg_enabled]. *)
Definition enrichWithDetailedEPG (meta : Meta) (channelId : option str)
    (epg_enabled : bool) : Eff.M State Meta :=
  if negb epg_enabled then ret meta
  else
    let normalizedId := normalizeId channelId in
    currentProgram <- getCurrentProgram (Some normalizedId);;
    upcomingPrograms <- getUpcomingPrograms (Some normalizedId);;
    match currentProgram with
    | Some cur =>
        let description :=
          [ television ++ lit " IN ONDA ORA:"; sh_title cur ]
          ++ (if truthy (sh_description cur)
              then [ []; sh_description cur ] else [])
          ++ [ []; alarmClock ++ lit " " ++ sh_start cur ++ lit " - "
                   ++ sh_stop cur ]
          ++ (if truthy (sh_category cur)
              then [ label ++ lit " " ++ sh_category cur ] else [])
          ++ (match upcomingPrograms with
              | _ :: _ =>
                  [ []; calendar ++ lit " PROSSIMI PROGRAMMI:" ]
                  ++ flat_map upcomingLines upcomingPrograms
              | [] => []
              end) in
        ret {| meta_description := join [10%N] description;
               meta_releaseInfo := sh_title cur ++ lit " (" ++ sh_start cur
                                   ++ lit ")" |}
    | None => ret meta
    end.

End Handler.
End MetaHandler.

(** ** Reference instances of the interfaces

    Used to run the model on concrete inputs. *)

Module Ref.

(** Decimal value of a run of digits. *)
Definition decimal (s : str) : Z :=
  fold_left (λ acc c, acc * 10 + (Z.of_N c - 48)) s 0.

(** Days from the epoch to a civil date of the proleptic Gregorian
    calendar. *)
Definition daysFromCivil (y m d : Z) : Z :=
  let y' := if m <=? 2 then y - 1 else y in
  let era := y' / 400 in
  let yoe := y' - era * 400 in
  let mp := if 2 <? m then m - 3 else m + 9 in
  let doy := (153 * mp + 2) / 5 + d - 1 in
  let doe := yoe * 365 + yoe / 4 - yoe / 100 + doy in
  era * 146097 + doe - 719468.

Definition daysInMonth (y m : Z) : Z :=
  if m =? 2 then
    if ((y mod 4 =? 0) && negb (y mod 100 =? 0)) || (y mod 400 =? 0)
    then 29 else 28
  else if (m =? 4) || (m =? 6) || (m =? 9) || (m =? 11) then 30 else 31.

(** The date-time format [YYYY-MM-DDTHH:mm:ss±HH:mm] of ECMAScript. *)
Definition isoInstant (s : str) : option Z :=
  if (length s =? 25)%nat then
    let y := decimal (take 4 s) in
    let m := decimal (take 2 (drop 5 s)) in
    let d := decimal (take 2 (drop 8 s)) in
    let h := decimal (take 2 (drop 11 s)) in
    let mi := decimal (take 2 (drop 14 s)) in
    let sec := decimal (take 2 (drop 17 s)) in
    let sign := if bool_decide (take 1 (drop 19 s) = lit "-") then -1 else 1 in
    let th := decimal (take 2 (drop 20 s)) in
    let tm := decimal (take 2 (drop 23 s)) in
    if (1 <=? m) && (m <=? 12) && (1 <=? d) && (d <=? daysInMonth y m)
       && (h <=? 23) && (mi <=? 59) && (sec <=? 59) && (th <=? 23) && (tm <=? 59)
    then Some ((((daysFromCivil y m d * 24 + h) * 60 + mi) * 60 + sec) * 1000
               - sign * (th * 60 + tm) * 60000)
    else None
  else None.

Definition twoDigits (n : Z) : str :=
  [Z.to_N (48 + n / 10); Z.to_N (48 + n mod 10)].

(** Hours and minutes of the day, [HH:MM]. *)
Definition hhmm (t : option Z) : str :=
  match t with
  | Some t => twoDigits ((t / 3600000) mod 24) ++ lit ":"
              ++ twoDigits ((t / 60000) mod 60)
  | None => lit "Invalid Date"
  end.

(** The code units outside ASCII whose lower case holds an ASCII letter
    are the Kelvin sign and the dotted capital I; every other one is
    left in place here, the normaliser drops it in either case. *)
Definition lowerOutsideAscii (c : N) : str :=
  if (c =? 8490)%N then [107%N]
  else if (c =? 304)%N then [105%N; 775%N]
  else [c].

#[export] Instance runtime : JsRuntime :=
  {| unicodeLower := lowerOutsideAscii;
     dateFromISO := isoInstant;
     localeTime := hhmm |}.

(** Rows in insertion order. *)
#[export] Instance rowidOrder : EPGManager.SqlEngine :=
  {| EPGManager.rowOrder := λ t, t |}.

(** A clock that starts at [t0] and advances by [dt] per reading, over
    a network on which every request fails. *)
Definition offline (t0 dt : Z) : Network :=
  {| clock := λ k, t0 + dt * Z.of_nat k;
     httpGet := λ _ _, None;
     fetchGuide := λ _ _, None |}.

(** The same clock over a network that serves one guide document. *)
Definition serving (t0 dt : Z) (doc : XmlDoc) : Network :=
  {| clock := λ k, t0 + dt * Z.of_nat k;
     httpGet := λ _ _, None;
     fetchGuide := λ _ _, Some doc |}.

(** The same clock over a network whose plain requests answer [body]
    and whose guide sources cannot be fetched. *)
Definition listed (t0 dt : Z) (body : Body) : Network :=
  {| clock := λ k, t0 + dt * Z.of_nat k;
     httpGet := λ _ _, Some body;
     fetchGuide := λ _ _, None |}.

Definition t0 : Z := 1700000000000.

Definition programme (ch a b t : string) : XProgramme :=
  {| xp_attrs := Some {| xp_channel := Some (lit ch);
                         xp_start := Some (lit a);
                         xp_stop := Some (lit b) |};
     xp_title := Some (NText (lit t));
     xp_desc := None;
     xp_category := None |}.

(** The programmes of a guide read at [t0] (2023-11-14 22:13:20 UTC):
    one that stops before it starts, one that ended the day before, one
    that starts nine days later, and a regular one. *)
Definition programmes : list XProgramme :=
  [ programme "Rai 1" "20231115120000 +0000" "20231115110000 +0000"
      "Al contrario";
    programme "Rai 1" "20231113200000 +0000" "20231113210000 +0000" "Ieri";
    programme "Rai 1" "20231123200000 +0000" "20231123210000 +0000"
      "Fra nove giorni";
    programme "Rai 1" "20231114230000 +0100" "20231115003000 +0100" "TG1" ].

Definition listing : XTv :=
  {| tv_channel := Some
       [ {| xc_attrs := Some {| xc_id := Some (lit "Rai 1") |};
            xc_icon := Some (lit "http://img.example/rai1.png") |} ];
     tv_programme := Some programmes |}.

Definition document : XmlDoc := {| tv := Some listing |}.

(** A manager with empty tables, as [startEPGUpdate] leaves them before
    it ingests the first source. *)
Definition cleared : EPGManager.State :=
  {| EPGManager.db := Some {| EPGManager.programs := [];
                              EPGManager.channel_icons := ∅ |};
     EPGManager.lastUpdate := None;
     EPGManager.isUpdating := true;
     EPGManager.offsetMinutes := Some 120;
     EPGManager.ticks := 0;
     EPGManager.requests := [];
     EPGManager.disk := None |}.

Definition row (ch t : string) (a b : Z) : EPGManager.ProgramRow :=
  {| EPGManager.channel_id := lit ch; EPGManager.start_time := a;
     EPGManager.stop_time := b; EPGManager.title := lit t;
     EPGManager.description := []; EPGManager.category := [] |}.

(** A guide in which two programmes of one channel overlap at [t0] and
    one programme carries the empty channel identifier. *)
Definition guide : EPGManager.State :=
  {| EPGManager.db := Some
       {| EPGManager.programs :=
            [ row "rai1" "TG1" (t0 - 600000) (t0 + 1200000);
              row "rai1" "Meteo" (t0 - 300000) (t0 + 600000);
              row "" "Senza canale" (t0 - 1000) (t0 + 1000);
              row "rai1" "Notte" (t0 + 9000000) (t0 + 9900000);
              row "rai1" "Film" (t0 + 1200000) (t0 + 6000000);
              row "rai1" "Sport" (t0 + 6000000) (t0 + 9000000);
              row "rai2" "TG2" (t0 + 100) (t0 + 200) ];
          EPGManager.channel_icons := ∅ |};
     EPGManager.lastUpdate := Some (t0 - 86400000);
     EPGManager.isUpdating := false;
     EPGManager.offsetMinutes := Some 120;
     EPGManager.ticks := 0;
     EPGManager.requests := [];
     EPGManager.disk := None |}.

Definition channel (id name tvg : string) : CacheManager.Channel :=
  {| CacheManager.ch_id := lit id;
     CacheManager.ch_name := Some (lit name);
     CacheManager.ch_genre := Some [lit "Rai"];
     CacheManager.ch_tvg_id := Some (lit tvg) |}.

(** A catalogue whose first channel is linked to the guide of "rai1"
    and whose second channel has "rai1" as its own identifier. *)
Definition lineup : CacheManager.StremioData :=
  {| CacheManager.channels :=
       [ channel "tv|rai1hd" "Rai 1 HD" "rai1";
         channel "tv|rai1" "Rai 1" "rai1.it";
         channel "tv|rai2" "Rai 2" "rai2.it" ];
     CacheManager.genres := [lit "Rai"];
     CacheManager.data_epgUrls := None |}.

Definition snapshot : CacheManager.Cache :=
  {| CacheManager.stremioData := Some lineup;
     CacheManager.lastUpdated := Some (t0 - 1000);
     CacheManager.updateInProgress := false;
     CacheManager.m3uUrl := Some (lit "http://tv.example/list.m3u");
     CacheManager.epgUrls := None |}.

Definition catalog : CacheManager.State :=
  {| CacheManager.config := Some ∅;
     CacheManager.cache := Some snapshot;
     CacheManager.db := None;
     CacheManager.emitted := [];
     CacheManager.transformCalls := [];
     CacheManager.ticks := 0;
     CacheManager.disk := None |}.

(** The same manager while a rebuild is under way. *)
Definition rebuilding : CacheManager.State :=
  CacheManager.with_cache
    (Some (CacheManager.with_updateInProgress true snapshot)) catalog.

(** A guide whose second programme element has no attributes. *)
Definition broken : XmlDoc :=
  {| tv := Some
       {| tv_channel := tv_channel listing;
          tv_programme := Some
            [ programme "Rai 1" "20231114230000 +0100" "20231115003000 +0100"
                "TG1";
              {| xp_attrs := None; xp_title := None; xp_desc := None;
                 xp_category := None |};
              programme "Rai 1" "20231115003000 +0100" "20231115013000 +0100"
                "Notte" ] |} |}.

(** The guide manager with its database open. *)
Definition opened : EPGManager.State :=
  EPGManager.with_isUpdating false cleared.

(** Rows in insertion order. *)
#[export] Instance insertionOrder : CacheManager.TableOrder :=
  {| CacheManager.channelOrder := λ t, t;
     CacheManager.genreOrder := λ t, t |}.

(** The catalogue manager with an open, empty database. *)
Definition stocked : CacheManager.State :=
  CacheManager.with_db
    (Some {| CacheManager.channels_table := [];
             CacheManager.genres_table := [];
             CacheManager.meta_lastUpdated := None;
             CacheManager.meta_m3uUrl := None;
             CacheManager.meta_epgUrls := None |}) catalog.

(** A manager created over an empty data directory, with the
    catalogue in place. *)
Definition manager : CacheManager.Manager :=
  CacheManager.with_state catalog (CacheManager.create true None (Some ∅)).

(** A catalogue in which one genre is listed twice. *)
Definition repeated : CacheManager.StremioData :=
  {| CacheManager.channels := CacheManager.channels lineup;
     CacheManager.genres := [lit "Rai"; lit "News"; lit "Rai"];
     CacheManager.data_epgUrls := None |}.

End Ref.

(** * Properties *)

(** ** The identifier normaliser *)

Section Normalizer.
Context {RT : JsRuntime}.

Lemma canonical_not_space c : isWordOrDot c = true → isSpace c = false.
Proof.
  unfold isWordOrDot, isWord, isAsciiUpper, isAsciiLower, isDigit, isSpace.
  intros H.
  assert (46 ≤ c ≤ 122)%N as Hr.
  { repeat (apply orb_prop in H as [H | H]);
      rewrite ?andb_true_iff, ?N.leb_le, ?N.eqb_eq in H; lia. }
  repeat (apply orb_false_intro);
    rewrite ?andb_false_iff, ?N.leb_gt, ?N.eqb_neq; lia.
Qed.

Lemma trimStart_no_space s :
  Forall (λ c, isSpace c = false) s → trimStart s = s.
Proof. destruct 1 as [| c s Hc _]; simpl; [done | by rewrite Hc]. Qed.

Lemma trim_no_space s :
  Forall (λ c, isSpace c = false) s → trim s = s.
Proof.
  intros Hs. unfold trim, trimEnd.
  rewrite (trimStart_no_space s Hs).
  rewrite trimStart_no_space; [apply rev_involutive |].
  by apply Forall_rev.
Qed.

Lemma filter_word_no_space s :
  Forall (λ c, isSpace c = false) (List.filter isWordOrDot s).
Proof.
  apply List.Forall_forall. intros c Hc.
  apply filter_In in Hc as [_ Hc]. by apply canonical_not_space.
Qed.

Lemma truthy_id (r : str) : (if truthy r then r else []) = r.
Proof. by destruct r. Qed.

(** The normaliser is the filter of the lower-cased input: [trim] and
    the [|| ''] fallback have nothing left to do. *)
Lemma normalizeExpr_Some s :
  normalizeExpr (Some s) = List.filter isWordOrDot (toLowerCase s).
Proof.
  unfold normalizeExpr. rewrite truthy_id.
  apply trim_no_space, filter_word_no_space.
Qed.

Lemma lowerUnit_not_upper (HL : LowerCaseSound) c u :
  In u (lowerUnit c) → isAsciiUpper u = false.
Proof.
  unfold lowerUnit. destruct (N.ltb_spec c 128) as [Hc | Hc].
  - intros [<- | []]. unfold isAsciiUpper.
    destruct (N.leb_spec 65 c), (N.leb_spec c 90); simpl;
      rewrite ?andb_false_iff, ?N.leb_gt; lia.
  - by apply HL.
Qed.

Lemma normalizeExpr_canonical (HL : LowerCaseSound) id :
  Forall (λ c, canonical c = true) (normalizeExpr id).
Proof.
  destruct id as [s |]; [| constructor].
  rewrite normalizeExpr_Some. apply List.Forall_forall. intros u Hu.
  apply filter_In in Hu as [Hu Hw]. unfold canonical. rewrite Hw. simpl.
  unfold toLowerCase in Hu. apply in_flat_map in Hu as (c & _ & Hu).
  by rewrite (lowerUnit_not_upper HL c u Hu).
Qed.

Lemma canonical_fixed s :
  Forall (λ c, canonical c = true) s → normalizeExpr (Some s) = s.
Proof.
  intros Hs. rewrite normalizeExpr_Some.
  induction Hs as [| c s Hc _ IH]; [done |].
  unfold canonical in Hc. apply andb_true_iff in Hc as [Hw Hu].
  apply negb_true_iff in Hu.
  assert (lowerUnit c = [c]) as Hl.
  { unfold lowerUnit. rewrite Hu.
    destruct (N.ltb_spec c 128) as [_ | Hc]; [done |]. exfalso.
    unfold isWordOrDot, isWord, isAsciiUpper, isAsciiLower, isDigit in Hw.
    repeat (apply orb_prop in Hw as [Hw | Hw]);
      rewrite ?andb_true_iff, ?N.leb_le, ?N.eqb_eq in Hw; lia. }
  unfold toLowerCase in *. simpl. rewrite Hl. simpl. rewrite Hw.
  by rewrite IH.
Qed.

Lemma normalizeExpr_idempotent (HL : LowerCaseSound) id :
  normalizeExpr (Some (normalizeExpr id)) = normalizeExpr id.
Proof. apply canonical_fixed, normalizeExpr_canonical, HL. Qed.

End Normalizer.

Lemma Ref_lower_sound : @LowerCaseSound Ref.runtime.
Proof.
  intros c u Hc. simpl. unfold Ref.lowerOutsideAscii.
  destruct (N.eqb_spec c 8490) as [-> | _].
  { by intros [<- | []]. }
  destruct (N.eqb_spec c 304) as [-> | _].
  { by intros [<- | [<- | []]]. }
  intros [<- | []]. unfold isAsciiUpper.
  apply andb_false_iff. right. apply N.leb_gt. lia.
Qed.

(** C1. The normaliser of both stores is idempotent, maps an absent or
    empty identifier to the empty string, and returns the lower-cased
    input restricted to word characters and dots, trimmed; its output
    is made of [a-z0-9_.] only. *)
Theorem normalizeId_idempotent `{RT : JsRuntime} (HL : LowerCaseSound)
    (st : CacheManager.State) (id : option str) :
  EPGManager.normalizeId (Some (EPGManager.normalizeId id))
    = EPGManager.normalizeId id
  ∧ CacheManager.normalizeId st
      (Some (CacheManager.normalizeId st id false)) false
    = CacheManager.normalizeId st id false
  ∧ EPGManager.normalizeId None = []
  ∧ EPGManager.normalizeId (Some []) = []
  ∧ CacheManager.normalizeId st None false = []
  ∧ CacheManager.normalizeId st (Some []) false = []
  ∧ (∀ s, EPGManager.normalizeId (Some s)
          = trim (List.filter isWordOrDot (toLowerCase s))
        ∧ CacheManager.normalizeId st (Some s) false
          = trim (List.filter isWordOrDot (toLowerCase s)))
  ∧ Forall (λ c, canonical c = true) (EPGManager.normalizeId id)
  ∧ Forall (λ c, canonical c = true) (CacheManager.normalizeId st id false).
Proof.
  unfold EPGManager.normalizeId, CacheManager.normalizeId.
  repeat split; try reflexivity;
    try (by apply normalizeExpr_idempotent);
    try (by apply normalizeExpr_canonical).
  - rewrite normalizeExpr_Some. symmetry.
    apply trim_no_space, filter_word_no_space.
  - rewrite normalizeExpr_Some. symmetry.
    apply trim_no_space, filter_word_no_space.
Qed.

Lemma normalizeId_idempotent_witness :
  @LowerCaseSound Ref.runtime
  ∧ @EPGManager.normalizeId Ref.runtime (Some (lit " Rai 1-HD.IT ")) = lit "rai1hd.it"
  ∧ @EPGManager.normalizeId Ref.runtime
      (Some (@EPGManager.normalizeId Ref.runtime (Some (lit " Rai 1-HD.IT "))))
    = @EPGManager.normalizeId Ref.runtime (Some (lit " Rai 1-HD.IT ")).
Proof.
  split; [exact Ref_lower_sound |]. split; [vm_compute; reflexivity |].
  exact (proj1 (@normalizeId_idempotent Ref.runtime Ref_lower_sound
                  {| CacheManager.config := None; CacheManager.cache := None;
                     CacheManager.db := None; CacheManager.emitted := [];
                     CacheManager.transformCalls := []; CacheManager.ticks := 0;
                     CacheManager.disk := None |}
                  (Some (lit " Rai 1-HD.IT ")))).
Defined.

(** ** The guide store: freshness and the single-flight guard *)

Section GuideFreshness.
Context {RT : JsRuntime} {NET : Network} {SQL : EPGManager.SqlEngine}.
Import EPGManager.

(** Unfolds the monadic plumbing of a method body. *)
Ltac run :=
  unfold Eff.bind, Eff.ret, Eff.get, Eff.modify, Eff.throw, Eff.tryCatch;
  simpl.

Lemma needsUpdate_run s :
  needsUpdate s =
    match lastUpdate s with
    | None => (Ret true, s)
    | Some t =>
        if t =? 0 then (Ret true, s)
        else (Ret (DAY <=? clock (ticks s) - t), with_ticks (S (ticks s)) s)
    end.
Proof.
  unfold needsUpdate. run. destruct (lastUpdate s) as [t |]; [| done].
  by destruct (t =? 0).
Qed.

(** A call made while a refresh is running is dropped whole. *)
Lemma startEPGUpdate_guarded url s :
  isUpdating s = true → startEPGUpdate url s = (Ret tt, s).
Proof. intros H. unfold startEPGUpdate. run. by rewrite H. Qed.

(** Whatever the refresh did, its [finally] block ran last. *)
Lemma startEPGUpdate_finally url s :
  isUpdating s = false →
  ∃ s1,
    startEPGUpdate url s
    = (Ret tt,
       with_lastUpdate (Some (clock (ticks s1)))
         (with_ticks (S (ticks s1)) (with_isUpdating false s1))).
Proof.
  intros H. unfold startEPGUpdate.
  unfold Eff.bind at 1, Eff.get at 1. rewrite H.
  unfold Eff.bind at 1, Date_now at 1.
  unfold Eff.tryFinally.
  match goal with
  | |- context [Eff.tryCatch ?c ?h ?s0] =>
      destruct (Eff.tryCatch c h s0) as [r s1] eqn:Hbody
  end.
  exists s1. run.
  unfold Eff.tryCatch in Hbody.
  match type of Hbody with
  | (let (_, _) := ?x in _) = _ => destruct x as [[[] | e] s2]
  end; by inversion Hbody.
Qed.

Lemma request_run {A} (answer : nat → str → option A) u s :
  request answer u s
  = (match answer (length (requests s)) u with
     | Some a => Ret a
     | None => Throw (Failure "request failed")
     end, with_requests (requests s ++ [u]) s).
Proof. unfold request. run. by destruct (answer _ _). Qed.

(** Reading the list of sources leaves the tables alone and only
    throws on an absent argument. *)
Lemma readExternalFile_db url s :
  db (readExternalFile url s).2 = db s
  ∧ (url ≠ UrlAbsent → ∃ l, (readExternalFile url s).1 = Ret l).
Proof.
  destruct url as [l | u |]; simpl.
  - split; [done | by exists l].
  - destruct (includes u (lit ",")); [split; [done | by eexists] |].
    unfold Eff.tryCatch. destruct (endsWith u (lit ".gz")).
    { split; [done | by eexists]. }
    unfold Eff.bind. rewrite request_run.
    destruct (httpGet _ _) as [[c |] |]; simpl.
    + destruct (includes c (lit "<?xml") || includes c (lit "<tv")).
      { split; [done | by eexists]. }
      destruct (List.filter _ _); split; try done; by eexists.
    + split; [done | by eexists].
    + split; [done | by eexists].
  - split; [done | by intros []].
Qed.

(** A source that cannot be fetched changes nothing but the list of
    requests made. *)
Lemma downloadAndProcessEPG_failed u s :
  fetchGuide (length (requests s)) (trim u) = None →
  downloadAndProcessEPG u s = (Ret tt, with_requests (requests s ++ [trim u]) s).
Proof.
  intros H. unfold downloadAndProcessEPG, Eff.tryCatch, Eff.bind.
  by rewrite request_run, H.
Qed.

Lemma downloads_all_failed urls s :
  (∀ n u, fetchGuide n u = None) →
  ∃ s', forEach downloadAndProcessEPG urls s = (Ret tt, s')
        ∧ db s' = db s ∧ ticks s' = ticks s.
Proof.
  intros H. revert s. induction urls as [| u urls IH]; intros s; simpl.
  { by exists s. }
  unfold Eff.bind. rewrite downloadAndProcessEPG_failed by apply H.
  destruct (IH (with_requests (requests s ++ [trim u]) s)) as (s' & -> & ? & ?).
  by exists s'.
Qed.

(** A refresh in which no source could be fetched ends with both
    tables empty. *)
Lemma startEPGUpdate_all_failed url s d :
  isUpdating s = false → db s = Some d → url ≠ UrlAbsent →
  (∀ n u, fetchGuide n u = None) →
  ∃ d', db (startEPGUpdate url s).2 = Some d'
        ∧ programs d' = [] ∧ channel_icons d' = ∅.
Proof.
  intros Hflag Hdb Hurl Hnet. unfold startEPGUpdate.
  unfold Eff.bind at 1, Eff.get at 1. rewrite Hflag.
  unfold Eff.bind at 1, Date_now at 1.
  unfold Eff.tryFinally, Eff.tryCatch.
  unfold Eff.bind at 1, Eff.modify at 1.
  unfold Eff.bind at 1.
  set (s0 := with_isUpdating true (with_ticks (S (ticks s)) s)).
  destruct (readExternalFile_db url s0) as [Hd Hr].
  destruct (Hr Hurl) as [l Hl].
  destruct (readExternalFile url s0) as [r s1]. simpl in Hd, Hl. subst r.
  assert (db s1 = Some d) as Hd1 by (by rewrite Hd).
  unfold db_run, theDb. run. rewrite Hd1. simpl.
  match goal with
  | |- context [forEach downloadAndProcessEPG l ?s2] =>
      destruct (downloads_all_failed l s2 Hnet) as (s3 & -> & Hd3 & _)
  end.
  simpl in Hd3. unfold cleanupOldPrograms, db_run, theDb. run.
  rewrite Hd3. simpl. by eexists.
Qed.

(** C9 (amended). [needsUpdate()] returns true exactly when no update
    time is recorded (null, or the zero timestamp) or at least 24 hours
    have elapsed since it; at exactly 24 hours it returns true. *)
Theorem needsUpdate_threshold s :
  ∃ b, (needsUpdate s).1 = Ret b
       ∧ (b = true ↔
            lastUpdate s = None ∨ lastUpdate s = Some 0
            ∨ ∃ t, lastUpdate s = Some t ∧ DAY ≤ clock (ticks s) - t)
       ∧ (∀ t, lastUpdate s = Some t → clock (ticks s) - t = DAY → b = true).
Proof.
  rewrite needsUpdate_run. destruct (lastUpdate s) as [t |] eqn:Ht.
  - destruct (Z.eqb_spec t 0) as [-> | Hne]; simpl.
    + exists true. repeat split; auto.
    + eexists. split; [reflexivity |]. split.
      * rewrite Z.leb_le. split; [intros; right; right; by exists t |].
        intros [? | [? | (t' & ? & ?)]]; simplify_eq; done.
      * intros t' [= <-] Hd. apply Z.leb_le; lia.
  - exists true. repeat split; auto.
Qed.

(** C10. A refresh that passed the guard always ends by recording its
    completion time, whatever failed on the way, so [needsUpdate()]
    returns false until 24 hours later, also when no source could be
    fetched and the tables were left empty. *)
Theorem startEPGUpdate_records_completion
    (Hclock : ∀ k, clock k ≠ 0) url s :
  isUpdating s = false →
  ∃ s' k,
    startEPGUpdate url s = (Ret tt, s')
    ∧ isUpdating s' = false
    ∧ ticks s' = S k
    ∧ lastUpdate s' = Some (clock k)
    ∧ (∀ s'', lastUpdate s'' = lastUpdate s' →
              clock (ticks s'') < clock k + DAY →
              (needsUpdate s'').1 = Ret false)
    ∧ (∀ d, db s = Some d → url ≠ UrlAbsent →
            (∀ n u, fetchGuide n u = None) →
            ∃ d', db s' = Some d' ∧ programs d' = [] ∧ channel_icons d' = ∅).
Proof.
  intros Hflag.
  destruct (startEPGUpdate_finally url s Hflag) as [s1 Hrun].
  eexists _, (ticks s1). split; [exact Hrun |].
  repeat split; try reflexivity.
  - intros s'' Hlast Hnow. rewrite needsUpdate_run, Hlast. simpl.
    destruct (Z.eqb_spec (clock (ticks s1)) 0) as [H0 | _].
    { by destruct (Hclock (ticks s1)). }
    simpl. f_equal. apply Z.leb_gt. lia.
  - intros d Hdb Hurl Hnet.
    destruct (startEPGUpdate_all_failed url s d Hflag Hdb Hurl Hnet) as [d' H'].
    rewrite Hrun in H'. by exists d'.
Qed.

End GuideFreshness.

(** ** The guide store: point queries *)

Section GuideQueries.
Context {RT : JsRuntime} {NET : Network} {SQL : EPGManager.SqlEngine}.
Import EPGManager.

(** The engine visits every row of the table once. *)
Hypothesis rowOrder_perm : ∀ t, rowOrder t ≡ₚ t.

#[local] Instance byStart_total : Total byStart.
Proof. intros a b. unfold byStart. lia. Qed.

#[local] Instance byStart_trans : Transitive byStart.
Proof. intros a b c. unfold byStart. lia. Qed.

Lemma getCurrentProgram_run id s :
  getCurrentProgram id s =
    if absent id then (Ret None, s)
    else match db s with
         | None => (Ret None, s)
         | Some d =>
             (Ret (show s <$>
                     head (selectCurrent (normalizeId id) (clock (ticks s))
                             (programs d))),
              with_ticks (S (ticks s)) s)
         end.
Proof.
  unfold getCurrentProgram, Eff.bind, Eff.get, Eff.ret. simpl.
  destruct (absent id); [done |]. destruct (db s) as [d |]; [| done].
  simpl. by destruct (selectCurrent _ _ _).
Qed.

Lemma selectCurrent_head id now t r :
  head (selectCurrent id now t) = Some r →
  r ∈ t ∧ channel_id r = id ∧ start_time r ≤ now ≤ stop_time r.
Proof.
  unfold selectCurrent. intros H.
  assert (r ∈ filter (λ r, channel_id r = id ∧ start_time r ≤ now ∧ now ≤ stop_time r)
                (rowOrder t)) as Hin.
  { eapply subseteq_take. apply head_Some_elem_of. exact H. }
  apply list_elem_of_filter in Hin as [(? & ? & ?) Hin].
  rewrite rowOrder_perm in Hin. auto.
Qed.

Lemma selectCurrent_none id now t :
  head (selectCurrent id now t) = None →
  ∀ r, r ∈ t → ¬ (channel_id r = id ∧ start_time r ≤ now ≤ stop_time r).
Proof.
  unfold selectCurrent. intros H r Hr (Hc & Hs & He).
  assert (r ∈ filter (λ r, channel_id r = id ∧ start_time r ≤ now ∧ now ≤ stop_time r)
                (rowOrder t)) as Hin.
  { apply list_elem_of_filter. rewrite rowOrder_perm. auto. }
  destruct (filter _ (rowOrder t)) as [| x l]; [by apply elem_of_nil in Hin |].
  discriminate.
Qed.

Lemma getUpcomingPrograms_run id s :
  getUpcomingPrograms id s =
    if absent id then (Ret [], s)
    else match db s with
         | None => (Ret [], s)
         | Some d =>
             (Ret (map (show s)
                     (selectUpcoming (normalizeId id) (clock (ticks s))
                        (programs d))),
              with_ticks (S (ticks s)) s)
         end.
Proof.
  unfold getUpcomingPrograms, Eff.bind, Eff.get, Eff.ret. simpl.
  destruct (absent id); [done |]. by destruct (db s).
Qed.

Lemma selectUpcoming_spec id now t :
  (length (selectUpcoming id now t) ≤ 2)%nat
  ∧ Forall (λ r, r ∈ t ∧ channel_id r = id ∧ now ≤ start_time r)
      (selectUpcoming id now t)
  ∧ StronglySorted byStart (selectUpcoming id now t).
Proof.
  unfold selectUpcoming.
  set (rows := filter (λ r, channel_id r = id ∧ now ≤ start_time r) (rowOrder t)).
  split; [rewrite length_take; lia |]. split.
  - apply Forall_forall. intros r Hr.
    apply subseteq_take in Hr. rewrite merge_sort_Permutation in Hr.
    apply list_elem_of_filter in Hr as [[? ?] Hr].
    rewrite rowOrder_perm in Hr. auto.
  - eapply StronglySorted_app_1_l. rewrite take_drop.
    apply StronglySorted_merge_sort; apply _.
Qed.

(** C6 (amended). For a non-empty identifier [getCurrentProgram]
    returns one stored programme of the normalised identifier whose
    interval contains now whenever there is one (a single one when
    several overlap), and null exactly when there is none; for an
    absent or empty identifier, or without a database, it returns
    null. *)
Theorem getCurrentProgram_spec id s :
  let now := clock (ticks s) in
  let current d P :=
    P ∈ programs d ∧ channel_id P = normalizeId id
    ∧ start_time P ≤ now ≤ stop_time P in
  (absent id = true → (getCurrentProgram id s).1 = Ret None)
  ∧ (db s = None → (getCurrentProgram id s).1 = Ret None)
  ∧ (∀ d, absent id = false → db s = Some d →
       ((∃ P, current d P) →
          ∃ P, current d P ∧ (getCurrentProgram id s).1 = Ret (Some (show s P)))
       ∧ ((getCurrentProgram id s).1 = Ret None ↔ ¬ ∃ P, current d P)).
Proof.
  intros now current. rewrite getCurrentProgram_run.
  split; [by intros -> |]. split; [intros ->; by destruct (absent id) |].
  intros d -> ->. simpl.
  destruct (head (selectCurrent _ _ _)) as [r |] eqn:Hh; simpl.
  - apply selectCurrent_head in Hh as (? & ? & ?).
    split; [intros _; by exists r |].
    split; [discriminate |]. intros []. by exists r.
  - split.
    + intros (P & HP & Hc & Ht).
      by destruct (selectCurrent_none _ _ _ Hh P HP).
    + split; [| done]. intros _ (P & HP & Hc & Ht).
      by destruct (selectCurrent_none _ _ _ Hh P HP).
Qed.

(** C7. [getUpcomingPrograms] returns at most two entries, each a
    stored programme of the normalised identifier that starts at or
    after now, in ascending order of start time. *)
Theorem getUpcomingPrograms_spec id s :
  ∃ rows,
    (getUpcomingPrograms id s).1 = Ret (map (show s) rows)
    ∧ (length rows ≤ 2)%nat
    ∧ Forall (λ r, channel_id r = normalizeId id
                   ∧ clock (ticks s) ≤ start_time r
                   ∧ ∃ d, db s = Some d ∧ r ∈ programs d) rows
    ∧ StronglySorted byStart rows.
Proof.
  rewrite getUpcomingPrograms_run.
  destruct (absent id);
    [exists []; repeat split; simpl; auto; constructor |].
  destruct (db s) as [d |];
    [| exists []; repeat split; simpl; auto; constructor].
  destruct (selectUpcoming_spec (normalizeId id) (clock (ticks s)) (programs d))
    as (Hlen & Hall & Hsorted).
  eexists. split; [reflexivity |]. repeat split; [done | | done].
  eapply Forall_impl; [exact Hall |]. simpl. intros r (? & ? & ?).
  repeat split; [done .. |]. by exists d.
Qed.

End GuideQueries.

Lemma rowid_perm : ∀ t, @EPGManager.rowOrder Ref.rowidOrder t ≡ₚ t.
Proof. done. Qed.

Lemma getCurrentProgram_spec_witness :
  let NET := Ref.offline Ref.t0 1000 in
  (∀ t, @EPGManager.rowOrder Ref.rowidOrder t ≡ₚ t)
  ∧ EPGManager.absent (Some (lit "RAI1")) = false
  ∧ ∃ P, (In P (EPGManager.stored Ref.guide)
          ∧ EPGManager.channel_id P
            = @EPGManager.normalizeId Ref.runtime (Some (lit "RAI1"))
          ∧ EPGManager.start_time P ≤ @clock NET 0 ≤ EPGManager.stop_time P)
         ∧ (@EPGManager.getCurrentProgram Ref.runtime NET Ref.rowidOrder
              (Some (lit "RAI1")) Ref.guide).1
           = Ret (Some (@EPGManager.show Ref.runtime Ref.guide P)).
Proof.
  intros NET. split; [exact rowid_perm |]. split; [reflexivity |].
  pose proof (@getCurrentProgram_spec Ref.runtime NET Ref.rowidOrder
                rowid_perm (Some (lit "RAI1")) Ref.guide) as H.
  cbv zeta in H. destruct H as (_ & _ & H).
  destruct (proj1 (H _ eq_refl eq_refl)) as (P & (HP & Hc & Ht) & Hr).
  - exists (Ref.row "rai1" "TG1" (Ref.t0 - 600000) (Ref.t0 + 1200000)).
    split; [apply list_elem_of_In; simpl; auto |].
    split; [vm_compute; reflexivity |]. vm_compute. split; discriminate.
  - exists P. split; [| exact Hr].
    split; [apply list_elem_of_In; exact HP | by split].
Defined.

(** C6 (as stated) fails. At [t0] two stored programmes of "rai1"
    contain now, and whatever the engine's row order the query returns
    at most one of them; and the programme stored under the empty
    identifier contains now while the query for the empty identifier
    returns null. *)
Lemma getCurrentProgram_counterexample :
  let NET := Ref.offline Ref.t0 1000 in
  let now := @clock NET (EPGManager.ticks Ref.guide) in
  let current id P :=
    In P (EPGManager.stored Ref.guide)
    ∧ EPGManager.channel_id P = @EPGManager.normalizeId Ref.runtime id
    ∧ EPGManager.start_time P ≤ now ≤ EPGManager.stop_time P in
  (∀ SQL : EPGManager.SqlEngine,
     ¬ ∀ P, current (Some (lit "RAI1")) P →
            (@EPGManager.getCurrentProgram Ref.runtime NET SQL
               (Some (lit "RAI1")) Ref.guide).1
            = Ret (Some (@EPGManager.show Ref.runtime Ref.guide P)))
  ∧ current (Some []) (Ref.row "" "Senza canale" (Ref.t0 - 1000) (Ref.t0 + 1000))
  ∧ (@EPGManager.getCurrentProgram Ref.runtime NET Ref.rowidOrder
       (Some []) Ref.guide).1 = Ret None.
Proof.
  intros NET now current. split; [| split].
  - intros SQL H.
    assert (current (Some (lit "RAI1"))
              (Ref.row "rai1" "TG1" (Ref.t0 - 600000) (Ref.t0 + 1200000))) as H1.
    { split; [simpl; auto | split; [vm_compute; reflexivity |]].
      vm_compute. split; discriminate. }
    assert (current (Some (lit "RAI1"))
              (Ref.row "rai1" "Meteo" (Ref.t0 - 300000) (Ref.t0 + 600000))) as H2.
    { split; [simpl; auto | split; [vm_compute; reflexivity |]].
      vm_compute. split; discriminate. }
    apply H in H1. apply H in H2. rewrite H1 in H2. vm_compute in H2.
    discriminate.
  - split; [simpl; auto | split; [vm_compute; reflexivity |]].
    vm_compute. split; discriminate.
  - vm_compute. reflexivity.
Qed.

Lemma getUpcomingPrograms_spec_witness :
  (∀ t, @EPGManager.rowOrder Ref.rowidOrder t ≡ₚ t)
  ∧ ∃ rows,
      (@EPGManager.getUpcomingPrograms Ref.runtime (Ref.offline Ref.t0 1000)
         Ref.rowidOrder (Some (lit "Rai 1")) Ref.guide).1
      = Ret (map (@EPGManager.show Ref.runtime Ref.guide) rows)
      ∧ (length rows ≤ 2)%nat
      ∧ Forall (λ r, EPGManager.channel_id r
                     = @EPGManager.normalizeId Ref.runtime (Some (lit "Rai 1"))
                     ∧ @clock (Ref.offline Ref.t0 1000) (EPGManager.ticks Ref.guide)
                       ≤ EPGManager.start_time r
                     ∧ ∃ d, EPGManager.db Ref.guide = Some d
                            ∧ r ∈ EPGManager.programs d) rows
      ∧ StronglySorted EPGManager.byStart rows.
Proof.
  split; [exact rowid_perm |].
  exact (@getUpcomingPrograms_spec Ref.runtime (Ref.offline Ref.t0 1000)
           Ref.rowidOrder rowid_perm (Some (lit "Rai 1")) Ref.guide).
Defined.

Example getUpcomingPrograms_run_guide :
  (@EPGManager.getUpcomingPrograms Ref.runtime (Ref.offline Ref.t0 1000)
     Ref.rowidOrder (Some (lit "Rai 1")) Ref.guide).1
  = Ret (map (@EPGManager.show Ref.runtime Ref.guide)
           [Ref.row "rai1" "Film" (Ref.t0 + 1200000) (Ref.t0 + 6000000);
            Ref.row "rai1" "Sport" (Ref.t0 + 6000000) (Ref.t0 + 9000000)]).
Proof. vm_compute. reflexivity. Qed.

(** C9 (as stated) fails: exactly 24 hours after the last update
    [needsUpdate()] returns true, not false. *)
Lemma needsUpdate_counterexample :
  let NET := Ref.offline Ref.t0 1000 in
  EPGManager.lastUpdate Ref.guide = Some (Ref.t0 - 86400000)
  ∧ @clock NET (EPGManager.ticks Ref.guide) - (Ref.t0 - 86400000)
    = 24 * 60 * 60 * 1000
  ∧ (@EPGManager.needsUpdate NET Ref.guide).1 = Ret true
  ∧ (@EPGManager.needsUpdate NET Ref.guide).1 ≠ Ret false.
Proof. vm_compute. repeat split; discriminate. Qed.

Lemma startEPGUpdate_records_completion_witness :
  let NET := Ref.offline Ref.t0 1000 in
  let url := EPGManager.UrlString (lit "http://epg.example/guide.xml.gz") in
  (∀ k, @clock NET k ≠ 0)
  ∧ EPGManager.isUpdating Ref.guide = false
  ∧ ∃ s' k,
      @EPGManager.startEPGUpdate Ref.runtime NET url Ref.guide = (Ret tt, s')
      ∧ EPGManager.lastUpdate s' = Some (@clock NET k)
      ∧ EPGManager.stored s' = [].
Proof.
  intros NET url.
  assert (∀ k, @clock NET k ≠ 0) as Hclock.
  { intros k. simpl. unfold Ref.t0. lia. }
  split; [exact Hclock |]. split; [reflexivity |].
  destruct (@startEPGUpdate_records_completion Ref.runtime NET Hclock url
              Ref.guide eq_refl)
    as (s' & k & Hrun & _ & _ & Hlast & _ & Hempty).
  exists s', k. split; [exact Hrun |]. split; [exact Hlast |].
  destruct (Hempty _ eq_refl) as (d' & Hd & Hp & _);
    [discriminate | reflexivity |].
  unfold EPGManager.stored. rewrite Hd. exact Hp.
Defined.

(** ** The guide store: ingestion *)

Section GuideIngestion.
Context {RT : JsRuntime} {NET : Network}.
Import EPGManager.

Lemma forEach_app {S A} (f : A → Eff.M S unit) l1 l2 s :
  forEach f (l1 ++ l2) s = (forEach f l1;; forEach f l2) s.
Proof.
  revert s. induction l1 as [| x l1 IH]; intros s; simpl; [done |].
  unfold Eff.bind. destruct (f x s) as [[[] | e] s']; [| done].
  apply IH.
Qed.

Lemma forEach_concat {S A} (f : A → Eff.M S unit) ll s :
  forEach (forEach f) ll s = forEach f (concat ll) s.
Proof.
  revert s. induction ll as [| l ll IH]; intros s; simpl; [done |].
  rewrite forEach_app. unfold Eff.bind.
  destruct (forEach f l s) as [[[] | e] s']; [| done]. apply IH.
Qed.

Lemma concat_chunksFrom {A} fuel n (l : list A) :
  (0 < n)%nat → (length l ≤ fuel)%nat → concat (chunksFrom fuel n l) = l.
Proof.
  intros Hn. revert l. induction fuel as [| fuel IH]; intros l Hl.
  { destruct l; [done | simpl in Hl; lia]. }
  destruct l as [| x l]; [done |].
  change (take n (x :: l) ++ concat (chunksFrom fuel n (drop n (x :: l)))
          = x :: l).
  rewrite IH; [apply take_drop |].
  rewrite length_drop. simpl in *. lia.
Qed.

(** The batches of the outer loop, one after the other, are the list. *)
Lemma concat_chunks {A} (l : list A) : concat (chunks CHUNK_SIZE l) = l.
Proof. apply concat_chunksFrom; [unfold CHUNK_SIZE; lia | done]. Qed.

Lemma chunked_loop {A} (f : A → Eff.M State unit) l s :
  forEach (forEach f) (chunks CHUNK_SIZE l) s = forEach f l s.
Proof. by rewrite forEach_concat, concat_chunks. Qed.

Lemma theDb_run s :
  theDb s = (match db s with
             | Some d => Ret d
             | None => Throw (TypeError "Cannot read properties of null")
             end, s).
Proof. unfold theDb, Eff.bind, Eff.get. simpl. by destruct (db s). Qed.

Lemma db_run_run f s :
  db_run f s = match db s with
               | Some d => (Ret tt, with_db (Some (f d)) s)
               | None => (Throw (TypeError "Cannot read properties of null"), s)
               end.
Proof. unfold db_run, Eff.bind. rewrite theDb_run. by destruct (db s). Qed.

(** What one turn of the inner loop leaves behind: nothing but, at
    most, one more row, read off the element and inside the bounds. *)
Lemma processProgramme_effect lo hi p s :
  ∃ new,
    stored (processProgramme lo hi p s).2 = stored s ++ new
    ∧ ticks (processProgramme lo hi p s).2 = ticks s
    ∧ Forall (λ r, readFrom p r ∧ lo ≤ stop_time r ∧ start_time r ≤ hi) new.
Proof.
  unfold processProgramme.
  destruct (xp_attrs p) as [a |] eqn:Ha;
    [| exists []; by rewrite app_nil_r].
  destruct (parseEPGDate (xp_start a)) as [start |] eqn:Hs;
    [| exists []; by rewrite app_nil_r].
  destruct (parseEPGDate (xp_stop a)) as [stop |] eqn:He;
    [| exists []; by rewrite app_nil_r].
  destruct (Z.ltb_spec stop lo) as [| Hlo];
    [exists []; by rewrite app_nil_r |].
  destruct (Z.ltb_spec hi start) as [| Hhi];
    [exists []; by rewrite app_nil_r |].
  unfold insertProgram.
  destruct (textOf (xp_title p) _) as [t |];
    [| exists []; by rewrite app_nil_r].
  destruct (textOf (xp_desc p) _) as [d |];
    [| exists []; by rewrite app_nil_r].
  destruct (textOf (xp_category p) _) as [c |];
    [| exists []; by rewrite app_nil_r].
  unfold db_run, theDb, stored, Eff.bind, Eff.get, Eff.modify, Eff.ret, Eff.throw.
  simpl. destruct (db s) as [d0 |] eqn:Hdb; simpl.
  - eexists [_]. split; [reflexivity |]. split; [reflexivity |].
    repeat constructor; simpl; [| done | done]. by exists a.
  - exists []. by rewrite Hdb.
Qed.

Lemma programmes_effect lo hi ps s :
  ∃ new,
    stored (forEach (processProgramme lo hi) ps s).2 = stored s ++ new
    ∧ ticks (forEach (processProgramme lo hi) ps s).2 = ticks s
    ∧ Forall (λ r, (∃ p, p ∈ ps ∧ readFrom p r)
                   ∧ lo ≤ stop_time r ∧ start_time r ≤ hi) new.
Proof.
  revert s. induction ps as [| p ps IH]; intros s; simpl.
  { exists []. by rewrite app_nil_r. }
  unfold Eff.bind.
  destruct (processProgramme_effect lo hi p s) as (n1 & H1 & T1 & F1).
  destruct (processProgramme lo hi p s) as [[[] | e] s1]; simpl in *.
  - destruct (IH s1) as (n2 & H2 & T2 & F2).
    exists (n1 ++ n2). rewrite H2, H1, T2, T1, app_assoc.
    split; [done |]. split; [done |]. apply Forall_app. split.
    + eapply Forall_impl; [exact F1 |]. simpl. intros r (? & ? & ?).
      split; [| done]. exists p. split; [left | done].
    + eapply Forall_impl; [exact F2 |]. simpl. intros r ((q & ? & ?) & ? & ?).
      split; [| done]. exists q. split; [by right | done].
  - exists n1. split; [done |]. split; [done |].
    eapply Forall_impl; [exact F1 |]. simpl. intros r (? & ? & ?).
    split; [| done]. exists p. split; [left | done].
Qed.

(** The icon loop writes to [channel_icons] only. *)
Lemma processChannel_effect c s :
  stored (processChannel c s).2 = stored s
  ∧ ticks (processChannel c s).2 = ticks s.
Proof.
  unfold processChannel. destruct (xc_attrs c) as [a |]; [| done].
  destruct (xc_icon c) as [icon |]; [| done].
  destruct (truthy _ && truthy icon); [| done].
  unfold db_run, theDb, stored, Eff.bind, Eff.get, Eff.modify, Eff.ret, Eff.throw.
  simpl. destruct (db s) eqn:Hdb; simpl; [done | by rewrite Hdb].
Qed.

Lemma channels_effect cs s :
  stored (forEach processChannel cs s).2 = stored s
  ∧ ticks (forEach processChannel cs s).2 = ticks s.
Proof.
  revert s. induction cs as [| c cs IH]; intros s; simpl; [done |].
  unfold Eff.bind. destruct (processChannel_effect c s) as [H1 T1].
  destruct (processChannel c s) as [[[] | e] s1]; simpl in *; [| done].
  destruct (IH s1) as [H2 T2]. by rewrite H2, T2.
Qed.

(** One call of [processEPGInChunks] reads the clock at most once, at
    the reading that was due, and appends rows inside the window of
    that reading, each read off an element of the document. *)
Lemma processEPGInChunks_effect data s :
  ∃ new,
    stored (processEPGInChunks data s).2 = stored s ++ new
    ∧ (ticks (processEPGInChunks data s).2 = S (ticks s)
       ∨ ticks (processEPGInChunks data s).2 = ticks s ∧ new = [])
    ∧ Forall (λ r, inWindow (clock (ticks s)) r
                   ∧ ∃ t ps p, tv data = Some t ∧ tv_programme t = Some ps
                               ∧ p ∈ ps ∧ readFrom p r) new.
Proof.
  destruct (processEPGInChunks data s) as [res s'] eqn:Hrun. simpl.
  assert (stored s' = stored s → ticks s' = ticks s →
            ∃ new, stored s' = stored s ++ new
                   ∧ (ticks s' = S (ticks s) ∨ ticks s' = ticks s ∧ new = [])
                   ∧ Forall (λ r, inWindow (clock (ticks s)) r
                       ∧ ∃ t ps p, tv data = Some t ∧ tv_programme t = Some ps
                                   ∧ p ∈ ps ∧ readFrom p r) new) as Hnone.
  { intros H1 H2. exists []. rewrite app_nil_r.
    split; [done |]. split; [by right | constructor]. }
  unfold processEPGInChunks in Hrun.
  destruct (tv data) as [t |]; [| inversion Hrun; subst; by apply Hnone].
  unfold Eff.bind at 1 in Hrun.
  set (icons := match tv_channel t with
                | Some channels => theDb;; forEach processChannel channels
                | None => ret tt
                end) in Hrun.
  assert (stored (icons s).2 = stored s ∧ ticks (icons s).2 = ticks s) as [Hi Ti].
  { unfold icons. destruct (tv_channel t) as [cs |]; [| done].
    unfold Eff.bind. rewrite theDb_run.
    destruct (db s); [apply channels_effect | done]. }
  destruct (icons s) as [[[] | e] s1]; simpl in Hi, Ti;
    [| inversion Hrun; subst; by apply Hnone].
  destruct (tv_programme t) as [ps |] eqn:Hps;
    [| inversion Hrun; subst; by apply Hnone].
  clear Hnone.
  unfold Eff.bind at 1, Date_now at 1 in Hrun.
  unfold Eff.bind at 1 in Hrun. rewrite theDb_run in Hrun. simpl in Hrun.
  destruct (db s1) as [d |] eqn:Hd; simpl in Hrun.
  2: { inversion Hrun; subst. exists []. rewrite app_nil_r. simpl.
       split; [| split; [left; by rewrite Ti | constructor]].
       rewrite <- Hi. unfold stored. simpl. by rewrite Hd. }
  unfold Eff.bind in Hrun. rewrite chunked_loop in Hrun.
  set (s2 := with_ticks (S (ticks s1)) s1) in Hrun.
  destruct (programmes_effect (clock (ticks s1) - HOUR)
              (clock (ticks s1) + SEVEN_DAYS) ps s2) as (new & Hn & Tn & Fn).
  assert (stored s2 = stored s) as Hs2 by (by rewrite <- Hi).
  exists new.
  assert (Forall (λ r, inWindow (clock (ticks s)) r
                   ∧ ∃ t' ps' p, Some t = Some t' ∧ tv_programme t' = Some ps'
                                 ∧ p ∈ ps' ∧ readFrom p r) new) as Fn'.
  { eapply Forall_impl; [exact Fn |]. simpl.
    intros r ((p & ? & ?) & ? & ?). rewrite <- Ti. split; [by split |].
    by exists t, ps, p. }
  destruct (forEach _ ps s2) as [[[] | e] s3]; simpl in *.
  - unfold saveDatabase, Eff.modify in Hrun. inversion Hrun; subst.
    assert (stored (match db s3 with
                    | Some d0 => with_disk (Some d0) s3
                    | None => s3
                    end) = stored s3
            ∧ ticks (match db s3 with
                     | Some d0 => with_disk (Some d0) s3
                     | None => s3
                     end) = ticks s3) as [-> ->].
    { unfold stored. destruct (db s3) eqn:E; simpl; by rewrite ?E. }
    rewrite <- Hs2, <- Hn. split; [done |]. split; [left; lia | done].
  - inversion Hrun; subst.
    rewrite <- Hs2, <- Hn. split; [done |]. split; [left; lia | done].
Qed.

(** On an element that cannot throw, the turn returns, and a row is
    appended if the element passes the two tests. *)
Lemma processProgramme_keeps lo hi p s :
  bindable p → is_Some (db s) →
  ∃ new s',
    processProgramme lo hi p s = (Ret tt, s')
    ∧ is_Some (db s')
    ∧ stored s' = stored s ++ new
    ∧ (passes lo hi p → ∃ r, r ∈ new ∧ readFrom p r).
Proof.
  intros ([a Ha] & Ht & Hd & Hc) [d0 Hdb]. unfold processProgramme.
  assert (∃ new s', (Ret tt, s) = (Ret tt, s') ∧ is_Some (db s')
                    ∧ stored s' = stored s ++ new) as Hskip.
  { exists [], s. rewrite app_nil_r. by eauto. }
  rewrite Ha.
  destruct (parseEPGDate (xp_start a)) as [start |] eqn:Hs.
  2: { destruct Hskip as (new & s' & ? & ? & ?). exists new, s'.
       repeat split; try done.
       intros (a' & ? & ? & ? & ? & _). simplify_eq. }
  destruct (parseEPGDate (xp_stop a)) as [stop |] eqn:He.
  2: { destruct Hskip as (new & s' & ? & ? & ?). exists new, s'.
       repeat split; try done.
       intros (a' & ? & ? & ? & ? & ? & _). simplify_eq. }
  destruct (Z.ltb_spec stop lo) as [Hlo | Hlo].
  { destruct Hskip as (new & s' & ? & ? & ?). exists new, s'.
    repeat split; try done.
    intros (a' & ? & ? & ? & ? & ? & ? & _). simplify_eq. lia. }
  destruct (Z.ltb_spec hi start) as [Hhi | Hhi].
  { destruct Hskip as (new & s' & ? & ? & ?). exists new, s'.
    repeat split; try done.
    intros (a' & ? & ? & ? & ? & ? & ? & ?). simplify_eq. lia. }
  clear Hskip. unfold insertProgram.
  destruct (textOf (xp_title p) _) as [t |]; [| done].
  destruct (textOf (xp_desc p) _) as [d |]; [| done].
  destruct (textOf (xp_category p) _) as [c |]; [| done].
  rewrite db_run_run, Hdb. eexists [_], _. split; [reflexivity |].
  split; [by eexists |]. split; [unfold stored; simpl; by rewrite Hdb |].
  intros _. eexists. split; [left |]. by exists a.
Qed.

Lemma programmes_keep lo hi ps s :
  Forall bindable ps → is_Some (db s) →
  ∃ new s',
    forEach (processProgramme lo hi) ps s = (Ret tt, s')
    ∧ is_Some (db s')
    ∧ stored s' = stored s ++ new
    ∧ (∀ p, p ∈ ps → passes lo hi p → ∃ r, r ∈ new ∧ readFrom p r).
Proof.
  intros Hps. revert s. induction Hps as [| p ps Hp _ IH]; intros s Hdb.
  { exists [], s. rewrite app_nil_r. repeat split; try done.
    intros p Hp. by apply elem_of_nil in Hp. }
  destruct (processProgramme_keeps lo hi p s Hp Hdb)
    as (n1 & s1 & Hrun & Hdb1 & Hst1 & Hk1).
  destruct (IH s1 Hdb1) as (n2 & s2 & Hrun2 & Hdb2 & Hst2 & Hk2).
  exists (n1 ++ n2), s2. simpl. unfold Eff.bind. rewrite Hrun.
  split; [done |]. split; [done |].
  split; [by rewrite Hst2, Hst1, app_assoc |].
  intros q Hq Hpass. apply elem_of_cons in Hq as [-> | Hq].
  - destruct (Hk1 Hpass) as (r & ? & ?). exists r.
    split; [apply elem_of_app; by left | done].
  - destruct (Hk2 q Hq Hpass) as (r & ? & ?). exists r.
    split; [apply elem_of_app; by right | done].
Qed.

Lemma channels_return cs s :
  Forall (λ c, is_Some (xc_attrs c)) cs → is_Some (db s) →
  ∃ s', forEach processChannel cs s = (Ret tt, s') ∧ is_Some (db s').
Proof.
  intros Hcs. revert s. induction Hcs as [| c cs [a Ha] _ IH]; intros s Hdb.
  { by exists s. }
  simpl. unfold Eff.bind.
  assert (∃ s1, processChannel c s = (Ret tt, s1) ∧ is_Some (db s1))
    as (s1 & -> & Hdb1).
  { unfold processChannel. rewrite Ha.
    destruct (xc_icon c) as [icon |]; [| by exists s].
    destruct (truthy _ && truthy icon); [| by exists s].
    rewrite db_run_run. destruct Hdb as [d ->]. by eexists. }
  by apply IH.
Qed.

(** C4 (amended). Ingestion never compares the start of a programme
    with its stop. From a document it can process without throwing,
    [processEPGInChunks] stores a row for a programme element exactly
    when both dates parse, the stop is not before now - 1h and the
    start is not after now + 7d; an element with startTime >= stopTime
    inside these bounds is stored like any other. *)
Theorem processEPGInChunks_keeps_by_window data t ps s :
  tv data = Some t → tv_programme t = Some ps →
  is_Some (db s) →
  Forall (λ c, is_Some (xc_attrs c)) (default [] (tv_channel t)) →
  Forall bindable ps →
  ∃ new,
    (processEPGInChunks data s).1 = Ret tt
    ∧ stored (processEPGInChunks data s).2 = stored s ++ new
    ∧ (∀ r, r ∈ new →
            inWindow (clock (ticks s)) r ∧ ∃ p, p ∈ ps ∧ readFrom p r)
    ∧ (∀ p, p ∈ ps →
            passes (clock (ticks s) - HOUR) (clock (ticks s) + SEVEN_DAYS) p →
            ∃ r, r ∈ new ∧ readFrom p r).
Proof.
  intros Htv Hps Hdb Hcs Hbind.
  destruct (processEPGInChunks_effect data s) as (new & Hst & _ & Hall).
  exists new.
  assert (∀ r, r ∈ new →
            inWindow (clock (ticks s)) r ∧ ∃ p, p ∈ ps ∧ readFrom p r) as Honly.
  { intros r Hr. rewrite Forall_forall in Hall.
    destruct (Hall r Hr) as (Hw & t' & ps' & p & Ht' & Hps' & Hp & Hread).
    split; [done |]. exists p. split; [| done]. by simplify_eq. }
  destruct (processEPGInChunks data s) as [res s'] eqn:Hrun. simpl in *.
  unfold processEPGInChunks in Hrun. rewrite Htv in Hrun.
  unfold Eff.bind at 1 in Hrun.
  set (icons := match tv_channel t with
                | Some channels => theDb;; forEach processChannel channels
                | None => ret tt
                end) in Hrun.
  assert (∃ s1, icons s = (Ret tt, s1) ∧ is_Some (db s1)
                ∧ stored s1 = stored s ∧ ticks s1 = ticks s)
    as (s1 & Hicons & [d Hdb1] & Hs1 & Ht1).
  { unfold icons. destruct (tv_channel t) as [cs |]; simpl in Hcs.
    - unfold Eff.bind. rewrite theDb_run. destruct Hdb as [d Hd]. rewrite Hd.
      destruct (channels_return cs s Hcs) as (s1 & Hr1 & ?); [by eexists |].
      destruct (channels_effect cs s) as [? ?]. rewrite Hr1 in *.
      by exists s1.
    - by exists s. }
  rewrite Hicons, Hps in Hrun.
  unfold Eff.bind at 1, Date_now at 1 in Hrun.
  unfold Eff.bind at 1 in Hrun. rewrite theDb_run in Hrun. simpl in Hrun.
  rewrite Hdb1 in Hrun.
  unfold Eff.bind in Hrun. rewrite chunked_loop in Hrun.
  set (s2 := with_ticks (S (ticks s1)) s1) in Hrun.
  destruct (programmes_keep (clock (ticks s1) - HOUR)
              (clock (ticks s1) + SEVEN_DAYS) ps s2 Hbind)
    as (new' & s3 & Hloop & Hdb3 & Hst3 & Hkeep); [by eexists |].
  rewrite Hloop in Hrun. unfold saveDatabase, Eff.modify in Hrun.
  inversion Hrun; subst res s'. clear Hrun.
  assert (new' = new) as ->.
  { apply (app_inv_head (stored s)). rewrite <- Hst.
    assert (stored s2 = stored s) as <- by exact Hs1.
    rewrite <- Hst3. unfold stored. destruct (db s3) eqn:E; simpl; by rewrite ?E. }
  split; [done |]. split; [done |]. split; [done |].
  rewrite <- Ht1. exact Hkeep.
Qed.

Lemma readExternalFile_ticks url s :
  ticks (readExternalFile url s).2 = ticks s.
Proof.
  destruct url as [l | u |]; simpl; [done | | done].
  destruct (includes u (lit ",")); [done |].
  unfold Eff.tryCatch. destruct (endsWith u (lit ".gz")); [done |].
  unfold Eff.bind. rewrite request_run.
  destruct (httpGet _ _) as [[c |] |]; simpl; [| done | done].
  destruct (includes c (lit "<?xml") || includes c (lit "<tv")); [done |].
  by destruct (List.filter _ _).
Qed.

(** One source: the call returns, whatever happened, and the rows it
    appended are inside the window of its one clock reading. *)
Lemma downloadAndProcessEPG_effect u s :
  ∃ new,
    (downloadAndProcessEPG u s).1 = Ret tt
    ∧ stored (downloadAndProcessEPG u s).2 = stored s ++ new
    ∧ (ticks (downloadAndProcessEPG u s).2 = S (ticks s)
       ∨ ticks (downloadAndProcessEPG u s).2 = ticks s ∧ new = [])
    ∧ Forall (inWindow (clock (ticks s))) new.
Proof.
  unfold downloadAndProcessEPG, Eff.tryCatch, Eff.bind. rewrite request_run.
  set (s0 := with_requests (requests s ++ [trim u]) s).
  assert (∃ new, stored s0 = stored s ++ new
                 ∧ (ticks s0 = S (ticks s) ∨ ticks s0 = ticks s ∧ new = [])
                 ∧ Forall (inWindow (clock (ticks s))) new) as Hnone.
  { exists []. rewrite app_nil_r. split; [done |]. split; [by right | constructor]. }
  destruct (fetchGuide _ _) as [doc |]; simpl;
    [| destruct Hnone as (new & ? & ? & ?); by exists new].
  destruct (tv doc) as [t |] eqn:Htv; simpl;
    [| destruct Hnone as (new & ? & ? & ?); by exists new].
  clear Hnone.
  destruct (processEPGInChunks_effect doc s0) as (new & Hst & Ht & Hall).
  exists new.
  assert (Forall (inWindow (clock (ticks s))) new) as Hw.
  { eapply Forall_impl; [exact Hall |]. simpl. by intros r [? _]. }
  destruct (processEPGInChunks doc s0) as [[[] | e] s1]; simpl in *; done.
Qed.

Lemma downloads_effect urls s :
  ∃ new,
    (forEach downloadAndProcessEPG urls s).1 = Ret tt
    ∧ stored (forEach downloadAndProcessEPG urls s).2 = stored s ++ new
    ∧ (ticks s ≤ ticks (forEach downloadAndProcessEPG urls s).2)%nat
    ∧ Forall (λ r, ∃ k, (ticks s ≤ k
                         < ticks (forEach downloadAndProcessEPG urls s).2)%nat
                        ∧ inWindow (clock k) r) new.
Proof.
  revert s. induction urls as [| u urls IH]; intros s; simpl.
  { exists []. rewrite app_nil_r. repeat split; auto. }
  unfold Eff.bind.
  destruct (downloadAndProcessEPG_effect u s) as (n1 & R1 & H1 & T1 & F1).
  destruct (downloadAndProcessEPG u s) as [r1 s1]. simpl in *. subst r1.
  destruct (IH s1) as (n2 & R2 & H2 & T2 & F2).
  destruct (forEach downloadAndProcessEPG urls s1) as [r2 s2]. simpl in *.
  exists (n1 ++ n2). rewrite H2, H1, app_assoc.
  split; [done |]. split; [done |]. split; [lia |].
  apply Forall_app. split.
  - destruct T1 as [T1 | [_ ->]]; [| constructor].
    eapply Forall_impl; [exact F1 |]. simpl. intros r Hr.
    exists (ticks s). split; [lia | done].
  - eapply Forall_impl; [exact F2 |]. simpl. intros r (k & ? & ?).
    exists k. split; [lia | done].
Qed.

(** After a refresh that had a source to read, every stored row
    survived the cleanup that closes the refresh, and lies in the
    window of the clock reading under which it was ingested. *)
Lemma startEPGUpdate_window url s :
  url ≠ UrlAbsent → isUpdating s = false →
  ∃ kc,
    (ticks s < kc < ticks (startEPGUpdate url s).2)%nat
    ∧ Forall (λ r, clock kc - HOUR ≤ stop_time r
                   ∧ ∃ k, (ticks s < k < kc)%nat ∧ inWindow (clock k) r)
        (stored (startEPGUpdate url s).2).
Proof.
  intros Hurl Hflag.
  destruct (startEPGUpdate url s) as [res s'] eqn:Hrun. simpl.
  unfold startEPGUpdate in Hrun.
  unfold Eff.bind at 1, Eff.get at 1 in Hrun. rewrite Hflag in Hrun.
  unfold Eff.bind at 1, Date_now at 1 in Hrun.
  unfold Eff.tryFinally, Eff.tryCatch in Hrun.
  unfold Eff.bind at 1, Eff.modify at 1 in Hrun.
  unfold Eff.bind at 1 in Hrun.
  set (s0 := with_isUpdating true (with_ticks (S (ticks s)) s)) in Hrun.
  destruct (readExternalFile_db url s0) as [Hd Hr].
  pose proof (readExternalFile_ticks url s0) as Ht.
  destruct (Hr Hurl) as [l Hl]. clear Hr.
  destruct (readExternalFile url s0) as [r s1]. simpl in Hd, Hl, Ht. subst r.
  unfold Eff.bind at 1 in Hrun. rewrite db_run_run in Hrun.
  destruct (db s1) as [d1 |] eqn:Hd1.
  2: { simpl in Hrun. inversion Hrun; subst. simpl.
       exists (S (ticks s)). split; [lia |].
       unfold stored. simpl. rewrite Hd1. constructor. }
  unfold Eff.bind at 1 in Hrun. rewrite db_run_run in Hrun. simpl in Hrun.
  unfold Eff.bind at 1 in Hrun.
  set (s2 := with_db _ (with_db _ s1)) in Hrun.
  destruct (downloads_effect l s2) as (new & R3 & H3 & T3 & F3).
  destruct (forEach downloadAndProcessEPG l s2) as [r3 s3].
  simpl in R3, H3, T3, F3. subst r3.
  unfold Eff.bind at 1, Date_now at 1 in Hrun.
  unfold cleanupOldPrograms in Hrun.
  unfold Eff.bind at 1, Date_now at 1 in Hrun.
  unfold Eff.bind at 1 in Hrun. rewrite db_run_run in Hrun. simpl in Hrun.
  destruct (db s3) as [d3 |] eqn:Hd3; simpl in Hrun.
  2: { inversion Hrun; subst. simpl. exists (S (ticks s)).
       split; [unfold s2 in T3; simpl in T3; lia |].
       unfold stored. simpl. rewrite Hd3. constructor. }
  inversion Hrun; subst res s'. simpl. clear Hrun.
  unfold s2 in T3. simpl in T3.
  exists (S (ticks s3)). split; [lia |].
  unfold stored. simpl. apply Forall_forall. intros r Hr'.
  apply list_elem_of_In, filter_In in Hr' as [Hin Hkeep].
  apply negb_true_iff, Z.ltb_ge in Hkeep. split; [done |].
  assert (stored s3 = new) as Hs3 by (by rewrite H3).
  unfold stored in Hs3. rewrite Hd3 in Hs3. rewrite Hs3 in Hin.
  rewrite Forall_forall in F3. apply list_elem_of_In in Hin.
  destruct (F3 r Hin) as (k & Hk & Hw). exists k. split; [| done].
  unfold s2 in Hk. simpl in Hk. lia.
Qed.

(** C5. The rows one call of [processEPGInChunks] inserts all have
    stop >= ingestion time - 1h and start <= ingestion time + 7d, so
    from the cleared table no stored row lies outside that window; and
    after a whole refresh every stored row is inside the window of the
    source it came from and survived the closing cleanup, hence, the
    clock being monotone, inside the window of the cleanup time. *)
Theorem ingestion_within_window data url s :
  (∃ new,
     stored (processEPGInChunks data s).2 = stored s ++ new
     ∧ Forall (λ r, ¬ stop_time r < clock (ticks s) - HOUR
                    ∧ ¬ start_time r > clock (ticks s) + SEVEN_DAYS) new
     ∧ (stored s = [] →
        Forall (λ r, ¬ stop_time r < clock (ticks s) - HOUR
                     ∧ ¬ start_time r > clock (ticks s) + SEVEN_DAYS)
          (stored (processEPGInChunks data s).2)))
  ∧ (url ≠ UrlAbsent → isUpdating s = false →
     ∃ kc,
       (ticks s < kc < ticks (startEPGUpdate url s).2)%nat
       ∧ Forall (λ r, clock kc - HOUR ≤ stop_time r
                      ∧ ∃ k, (ticks s < k < kc)%nat ∧ inWindow (clock k) r)
           (stored (startEPGUpdate url s).2)
       ∧ ((∀ i j, (i ≤ j)%nat → clock i ≤ clock j) →
          Forall (λ r, ¬ stop_time r < clock kc - HOUR
                       ∧ ¬ start_time r > clock kc + SEVEN_DAYS)
            (stored (startEPGUpdate url s).2))).
Proof.
  split.
  - destruct (processEPGInChunks_effect data s) as (new & Hst & _ & Hall).
    exists new. split; [done |].
    assert (Forall (λ r, ¬ stop_time r < clock (ticks s) - HOUR
                         ∧ ¬ start_time r > clock (ticks s) + SEVEN_DAYS) new)
      as Hw.
    { eapply Forall_impl; [exact Hall |]. simpl. unfold inWindow.
      intros r [[? ?] _]. lia. }
    split; [done |]. intros Hempty. by rewrite Hst, Hempty.
  - intros Hurl Hflag.
    destruct (startEPGUpdate_window url s Hurl Hflag) as (kc & Hk & Hall).
    exists kc. split; [done |]. split; [done |]. intros Hmono.
    eapply Forall_impl; [exact Hall |]. simpl. unfold inWindow.
    intros r (Hstop & k & Hkk & _ & Hstart).
    assert (clock k ≤ clock kc) by (apply Hmono; lia). lia.
Qed.

End GuideIngestion.

Example processEPGInChunks_run_document :
  EPGManager.stored
    (@EPGManager.processEPGInChunks Ref.runtime (Ref.offline Ref.t0 1000)
       Ref.document Ref.cleared).2
  = [ Ref.row "rai1" "Al contrario" 1700049600000 1700046000000;
      Ref.row "rai1" "TG1" 1699999200000 1700004600000 ].
Proof. vm_compute. reflexivity. Qed.

(** ** The catalogue store *)

Section Catalogue.
Context {RT : JsRuntime} {NET : Network}.
Import CacheManager.

Lemma theCache_run s :
  theCache s = (match cache s with
                | Some c => Ret c
                | None => Throw (TypeError "Cannot read properties of null")
                end, s).
Proof. unfold theCache, Eff.bind, Eff.get. simpl. by destruct (cache s). Qed.

Lemma theDb_run_cache s :
  theDb s = (match db s with
             | Some d => Ret d
             | None => Throw (TypeError "Cannot read properties of null")
             end, s).
Proof. unfold theDb, Eff.bind, Eff.get. simpl. by destruct (db s). Qed.

Lemma flag_round_trip c :
  updateInProgress c = false →
  with_updateInProgress false (with_updateInProgress true c) = c.
Proof. destruct c. simpl. by intros ->. Qed.

(** A call that finds the flag set returns at once and leaves the
    manager and the outside as they were. *)
Lemma rebuildCache_enter_guarded url cfg s c :
  cache s = Some c → updateInProgress c = true →
  rebuildCache_enter url cfg s = (Ret Returned, s).
Proof.
  intros Hc Hf. unfold rebuildCache_enter, Eff.bind.
  by rewrite theCache_run, Hc, Hf.
Qed.

(** A call that finds the flag clear sets it, merges the configuration
    and calls the transformer, once. *)
Lemma rebuildCache_enter_free url cfg s c :
  cache s = Some c → updateInProgress c = false →
  ∃ s',
    rebuildCache_enter url cfg s = (Ret AwaitingTransform, s')
    ∧ cache s' = Some (with_updateInProgress true c)
    ∧ transformCalls s' = transformCalls s ++ [(url, config s')]
    ∧ emitted s' = emitted s ∧ db s' = db s ∧ disk s' = disk s
    ∧ ticks s' = ticks s.
Proof.
  intros Hc Hf. unfold rebuildCache_enter, Eff.bind.
  rewrite theCache_run, Hc, Hf. unfold Eff.modify, Eff.ret.
  destruct cfg as [new |]; eexists; (split; [reflexivity |]); done.
Qed.

(** When the transformer fails, the continuation clears the flag,
    emits [cacheError] and rethrows; nothing else changes. *)
Lemma rebuildCache_resume_failed url e s c :
  cache s = Some c →
  rebuildCache_resume url (inl e) s
  = (Throw e,
     with_emitted (emitted s ++ [cacheError e])
       (with_cache (Some (with_updateInProgress false c)) s)).
Proof.
  intros Hc. unfold rebuildCache_resume, Eff.tryCatch, Eff.throw, Eff.bind.
  by rewrite theCache_run, Hc.
Qed.

(** *** The continuation never calls the transformer *)

Lemma bind_quiet {A B} (c : Eff.M State A) (k : A → Eff.M State B) :
  (∀ s, quiet s (c s).2) → (∀ a s, quiet s (k a s).2) →
  ∀ s, quiet s (Eff.bind c k s).2.
Proof.
  intros Hc Hk s. unfold Eff.bind. specialize (Hc s).
  destruct (c s) as [[a | e] s1]; simpl in *; [| done].
  specialize (Hk a s1). unfold quiet in *. congruence.
Qed.

Lemma tryCatch_quiet {A} (c : Eff.M State A) (h : exn → Eff.M State A) :
  (∀ s, quiet s (c s).2) → (∀ e s, quiet s (h e s).2) →
  ∀ s, quiet s (Eff.tryCatch c h s).2.
Proof.
  intros Hc Hh s. unfold Eff.tryCatch. specialize (Hc s).
  destruct (c s) as [[a | e] s1]; simpl in *; [done |].
  specialize (Hh e s1). unfold quiet in *. congruence.
Qed.

Lemma forEach_quiet {A} (f : A → Eff.M State unit) l :
  (∀ x s, quiet s (f x s).2) → ∀ s, quiet s (forEach f l s).2.
Proof.
  intros Hf. induction l as [| x l IH]; intros s; [done |].
  simpl. apply bind_quiet; [apply Hf | intros _; apply IH].
Qed.

Lemma modify_quiet (f : State → State) :
  (∀ s, transformCalls (f s) = transformCalls s) →
  ∀ s, quiet s (Eff.modify f s).2.
Proof. intros Hf s. apply Hf. Qed.

Lemma theDb_quiet s : quiet s (theDb s).2.
Proof. by rewrite theDb_run_cache. Qed.

Lemma theCache_quiet s : quiet s (theCache s).2.
Proof. by rewrite theCache_run. Qed.

Lemma db_run_quiet f s : quiet s (db_run f s).2.
Proof.
  unfold db_run. apply bind_quiet; [apply theDb_quiet |].
  intros d. by apply modify_quiet.
Qed.

Lemma saveDatabase_quiet s : quiet s (saveDatabase s).2.
Proof. unfold saveDatabase. apply modify_quiet. intros s0. by destruct (db s0). Qed.

Lemma saveCacheToDB_quiet s : quiet s (saveCacheToDB s).2.
Proof.
  unfold saveCacheToDB. revert s.
  apply tryCatch_quiet; [| done].
  apply bind_quiet; [apply theCache_quiet |]. intros c.
  repeat (apply bind_quiet; [| intros _]).
  - destruct (lastUpdated c) as [t |]; [| done].
    destruct (t =? 0); [done |]. apply db_run_quiet.
  - destruct (m3uUrl c) as [u |]; [| done].
    destruct (truthy u); [| done]. apply db_run_quiet.
  - destruct (epgUrls c); [| done]. apply db_run_quiet.
  - destruct (stremioData c) as [data |]; [| done].
    repeat (apply bind_quiet; [| intros _]); try apply db_run_quiet.
    + apply forEach_quiet. intros ch. apply db_run_quiet.
    + apply forEach_quiet. intros g. unfold insertGenre.
      apply bind_quiet; [apply theDb_quiet |]. intros d.
      destruct (bool_decide _); [done |]. apply db_run_quiet.
  - apply saveDatabase_quiet.
Qed.

Lemma rebuildCache_resume_quiet url answer s :
  quiet s (rebuildCache_resume url answer s).2.
Proof.
  unfold rebuildCache_resume. revert s. apply tryCatch_quiet.
  - destruct answer as [e | data]; [done |].
    apply bind_quiet; [done |]. intros now.
    apply bind_quiet; [by apply modify_quiet |]. intros _.
    apply bind_quiet; [apply saveCacheToDB_quiet |]. intros _.
    apply bind_quiet; [apply theCache_quiet |]. intros c.
    by apply modify_quiet.
  - intros e. apply bind_quiet; [apply theCache_quiet |]. intros c.
    apply bind_quiet; [by apply modify_quiet |]. intros _.
    apply bind_quiet; [by apply modify_quiet |]. by intros _.
Qed.

(** *** Lookups read the snapshot only *)

Lemma getChannel_snapshot s s' id :
  cache s' = cache s → getChannel s' id = getChannel s id.
Proof. intros H. unfold getChannel, cachedChannels, normalizeId. by rewrite H. Qed.

Lemma getChannelsByGenre_snapshot s s' g :
  cache s' = cache s → getChannelsByGenre s' g = getChannelsByGenre s g.
Proof. intros H. unfold getChannelsByGenre, cachedChannels. by rewrite H. Qed.

Lemma searchChannels_snapshot s s' q :
  cache s' = cache s → searchChannels s' q = searchChannels s q.
Proof.
  intros H. unfold searchChannels, cachedChannels, normalizeId. by rewrite H.
Qed.

(** C2. A rebuild that passes the guard and whose transformer fails
    clears the flag, emits one [cacheError], rethrows the failure, and
    leaves the snapshot, the database and its file as they were, so the
    three catalogue queries answer as before. *)
Theorem rebuildCache_failure_atomic s c e url cfg :
  cache s = Some c → updateInProgress c = false →
  (rebuildCache (inl e) url cfg s).1 = Throw e
  ∧ cache (rebuildCache (inl e) url cfg s).2 = Some c
  ∧ emitted (rebuildCache (inl e) url cfg s).2 = emitted s ++ [cacheError e]
  ∧ db (rebuildCache (inl e) url cfg s).2 = db s
  ∧ disk (rebuildCache (inl e) url cfg s).2 = disk s
  ∧ (∀ id, getChannel (rebuildCache (inl e) url cfg s).2 id = getChannel s id)
  ∧ (∀ g, getChannelsByGenre (rebuildCache (inl e) url cfg s).2 g
          = getChannelsByGenre s g)
  ∧ (∀ q, searchChannels (rebuildCache (inl e) url cfg s).2 q
          = searchChannels s q).
Proof.
  intros Hc Hf.
  destruct (rebuildCache_enter_free url cfg s c Hc Hf)
    as (s1 & Henter & Hc1 & _ & He1 & Hd1 & Hk1 & _).
  assert (rebuildCache (inl e) url cfg s
          = (Throw e,
             with_emitted (emitted s1 ++ [cacheError e])
               (with_cache (Some c) s1))) as ->.
  { unfold rebuildCache, Eff.bind. rewrite Henter.
    rewrite (rebuildCache_resume_failed url e s1 _ Hc1).
    by rewrite flag_round_trip. }
  simpl. rewrite He1, Hd1, Hk1. repeat split; try done; intros.
  - by apply getChannel_snapshot.
  - by apply getChannelsByGenre_snapshot.
  - by apply searchChannels_snapshot.
Qed.

Lemma rebuildCache_guarded answer url cfg s c :
  cache s = Some c → updateInProgress c = true →
  rebuildCache answer url cfg s = (Ret tt, s).
Proof.
  intros Hc Hf. unfold rebuildCache, Eff.bind.
  by rewrite (rebuildCache_enter_guarded url cfg s c Hc Hf).
Qed.

(** C3. A call of [rebuildCache] that finds [updateInProgress] set, and
    a call of [startEPGUpdate] that finds [isUpdating] set, return at
    once and leave everything as it was: no call of the transformer, no
    request, no write, no event. Hence, of two overlapping rebuilds,
    the second one, made while the first awaits the transformer, is
    dropped, and the transformer has been called exactly once when the
    first completes. *)
Theorem single_flight (g : EPGManager.State) (source : EPGManager.UrlArg)
    (s : State) (c : Cache) url1 cfg1 url2 cfg2 answer1 answer2 :
  (EPGManager.isUpdating g = true →
   EPGManager.startEPGUpdate source g = (Ret tt, g))
  ∧ (cache s = Some c → updateInProgress c = true →
     rebuildCache answer1 url1 cfg1 s = (Ret tt, s))
  ∧ (cache s = Some c → updateInProgress c = false →
     ∃ s1,
       rebuildCache_enter url1 cfg1 s = (Ret AwaitingTransform, s1)
       ∧ rebuildCache answer2 url2 cfg2 s1 = (Ret tt, s1)
       ∧ transformCalls (rebuildCache_resume url1 answer1 s1).2
         = transformCalls s ++ [(url1, config s1)]).
Proof.
  split; [apply startEPGUpdate_guarded |].
  split; [apply rebuildCache_guarded |].
  intros Hc Hf.
  destruct (rebuildCache_enter_free url1 cfg1 s c Hc Hf)
    as (s1 & Henter & Hc1 & Hcalls & _).
  exists s1. split; [done |]. split.
  - by apply (rebuildCache_guarded _ _ _ _ _ Hc1).
  - rewrite <- Hcalls. apply rebuildCache_resume_quiet.
Qed.

(** *** The lookup by identifier *)

Lemma find_first {A} (f : A → bool) l1 x l2 :
  f x = true → Forall (λ y, f y = false) l1 →
  List.find f (l1 ++ x :: l2) = Some x.
Proof.
  intros Hx Hl. induction Hl as [| y l1 Hy _ IH]; simpl.
  - by rewrite Hx.
  - by rewrite Hy.
Qed.

Lemma find_nowhere {A} (f : A → bool) l :
  Forall (λ y, f y = false) l → List.find f l = None.
Proof. induction 1 as [| y l Hy _ IH]; simpl; [done | by rewrite Hy]. Qed.

(** C8 (amended). [getChannel] looks the normalised identifier up in
    two passes over the list: the first channel that answers by its own
    identifier (its first "tv|" removed) or by its guide identifier,
    whichever comes first in the list; failing that, the first channel
    that answers by name; failing that, undefined. An absent or empty
    identifier, or a missing snapshot, gives null. A match by own or
    guide identifier is preferred over one by name only; between a
    match by own identifier and one by guide identifier the position in
    the list decides. *)
Theorem getChannel_tiers s id :
  (absent id = true ∨ cachedChannels s = None → getChannel s id = Null)
  ∧ ∀ chans,
      absent id = false → cachedChannels s = Some chans →
      let n := normalizeId s id false in
      (∀ l1 ch l2,
         chans = l1 ++ ch :: l2 →
         byId s n ch ∨ byTvgId s n ch →
         Forall (λ x, ¬ byId s n x ∧ ¬ byTvgId s n x) l1 →
         getChannel s id = Found ch)
      ∧ (Forall (λ x, ¬ byId s n x ∧ ¬ byTvgId s n x) chans →
         ∀ l1 ch l2,
           chans = l1 ++ ch :: l2 → byName s n ch →
           Forall (λ x, ¬ byName s n x) l1 →
           getChannel s id = Found ch)
      ∧ (Forall (λ x, ¬ byId s n x ∧ ¬ byTvgId s n x ∧ ¬ byName s n x) chans →
         getChannel s id = Undefined).
Proof.
  split.
  { unfold getChannel. intros [-> | ->]; [done | by destruct (absent id)]. }
  intros chans Hid Hch n. unfold getChannel. rewrite Hid, Hch. fold n.
  set (tier1 := λ ch : Channel,
         bool_decide (normalizeId s (Some (removeFirst (ch_id ch) (lit "tv|")))
                        false = n)
         || bool_decide (normalizeId s (ch_tvg_id ch) false = n)).
  set (tier2 := λ ch : Channel,
         bool_decide (normalizeId s (ch_name ch) false = n)).
  assert (∀ ch, tier1 ch = true ↔ byId s n ch ∨ byTvgId s n ch) as H1.
  { intros ch. unfold tier1, byId, byTvgId.
    by rewrite orb_true_iff, !bool_decide_eq_true. }
  assert (∀ l, Forall (λ x, ¬ byId s n x ∧ ¬ byTvgId s n x) l →
               Forall (λ y, tier1 y = false) l) as H1n.
  { intros l Hl. eapply Forall_impl; [exact Hl |]. simpl. intros x [? ?].
    apply not_true_is_false. rewrite H1. tauto. }
  assert (∀ l, Forall (λ x, ¬ byName s n x) l →
               Forall (λ y, tier2 y = false) l) as H2n.
  { intros l Hl. eapply Forall_impl; [exact Hl |]. simpl. intros x ?.
    unfold tier2. by apply bool_decide_eq_false. }
  split; [| split].
  - intros l1 ch l2 -> Hm Hl1.
    rewrite (find_first tier1 l1 ch l2); [done | by apply H1 | by apply H1n].
  - intros Hnone l1 ch l2 Heq Hm Hl1.
    rewrite (find_nowhere tier1 chans) by (by apply H1n). subst chans.
    rewrite (find_first tier2 l1 ch l2); [done | | by apply H2n].
    unfold tier2. by apply bool_decide_eq_true.
  - intros Hnone.
    rewrite (find_nowhere tier1 chans).
    2: { apply H1n. eapply Forall_impl; [exact Hnone |]. simpl. tauto. }
    rewrite (find_nowhere tier2 chans); [done |].
    apply H2n. eapply Forall_impl; [exact Hnone |]. simpl. tauto.
Qed.

End Catalogue.

(** ** The properties on the reference inputs *)

Lemma Ref_programmes_bindable :
  Forall (@EPGManager.bindable) Ref.programmes.
Proof.
  repeat constructor; try (by eexists); simpl; discriminate.
Qed.

Lemma processEPGInChunks_keeps_by_window_witness :
  let NET := Ref.offline Ref.t0 1000 in
  is_Some (EPGManager.db Ref.cleared)
  ∧ Forall (@EPGManager.bindable) Ref.programmes
  ∧ ∃ new,
      (@EPGManager.processEPGInChunks Ref.runtime NET Ref.document Ref.cleared).1
      = Ret tt
      ∧ EPGManager.stored
          (@EPGManager.processEPGInChunks Ref.runtime NET Ref.document
             Ref.cleared).2
        = EPGManager.stored Ref.cleared ++ new
      ∧ (∀ r, r ∈ new →
              EPGManager.inWindow (@clock NET 0) r
              ∧ ∃ p, p ∈ Ref.programmes ∧ @EPGManager.readFrom Ref.runtime p r)
      ∧ (∀ p, p ∈ Ref.programmes →
              @EPGManager.passes Ref.runtime
                (@clock NET 0 - EPGManager.HOUR)
                (@clock NET 0 + EPGManager.SEVEN_DAYS) p →
              ∃ r, r ∈ new ∧ @EPGManager.readFrom Ref.runtime p r).
Proof.
  intros NET.
  assert (is_Some (EPGManager.db Ref.cleared)) as Hdb by (by eexists).
  split; [exact Hdb |]. split; [exact Ref_programmes_bindable |].
  apply (@processEPGInChunks_keeps_by_window Ref.runtime NET Ref.document
           Ref.listing Ref.programmes Ref.cleared eq_refl eq_refl Hdb).
  - repeat constructor. by eexists.
  - exact Ref_programmes_bindable.
Defined.

(** C4 (as stated) fails. The first programme of the reference
    document starts at 12:00 and stops at 11:00 of 15 November 2023;
    read at [t0] it is stored, with [start_time > stop_time]. *)
Lemma processEPGInChunks_counterexample :
  let NET := Ref.offline Ref.t0 1000 in
  let r := Ref.row "rai1" "Al contrario" 1700049600000 1700046000000 in
  @EPGManager.parseEPGDate Ref.runtime (Some (lit "20231115120000 +0000"))
  = Some 1700049600000
  ∧ @EPGManager.parseEPGDate Ref.runtime (Some (lit "20231115110000 +0000"))
    = Some 1700046000000
  ∧ In r (EPGManager.stored
            (@EPGManager.processEPGInChunks Ref.runtime NET Ref.document
               Ref.cleared).2)
  ∧ EPGManager.start_time r >= EPGManager.stop_time r.
Proof.
  intros NET r. split; [vm_compute; reflexivity |].
  split; [vm_compute; reflexivity |].
  split; [vm_compute; auto | vm_compute; discriminate].
Qed.

Lemma Ref_clock_monotone t dt doc :
  0 ≤ dt → ∀ i j, (i ≤ j)%nat → @clock (Ref.serving t dt doc) i
                                ≤ @clock (Ref.serving t dt doc) j.
Proof. intros Hdt i j Hij. simpl. nia. Qed.

Lemma ingestion_within_window_witness :
  let NET := Ref.serving Ref.t0 1000 Ref.document in
  let url := EPGManager.UrlString (lit "http://epg.example/guide.xml.gz") in
  url ≠ EPGManager.UrlAbsent
  ∧ EPGManager.isUpdating Ref.guide = false
  ∧ (∀ i j, (i ≤ j)%nat → @clock NET i ≤ @clock NET j)
  ∧ ∃ kc,
      Forall (λ r, ¬ EPGManager.stop_time r < @clock NET kc - EPGManager.HOUR
                   ∧ ¬ EPGManager.start_time r
                       > @clock NET kc + EPGManager.SEVEN_DAYS)
        (EPGManager.stored
           (@EPGManager.startEPGUpdate Ref.runtime NET url Ref.guide).2).
Proof.
  intros NET url.
  assert (url ≠ EPGManager.UrlAbsent) as Hurl by discriminate.
  assert (∀ i j, (i ≤ j)%nat → @clock NET i ≤ @clock NET j) as Hmono.
  { apply Ref_clock_monotone. lia. }
  split; [exact Hurl |]. split; [reflexivity |]. split; [exact Hmono |].
  destruct (proj2 (@ingestion_within_window Ref.runtime NET Ref.document url
                     Ref.guide) Hurl eq_refl) as (kc & _ & _ & H).
  exists kc. exact (H Hmono).
Defined.

Example startEPGUpdate_run_guide :
  let NET := Ref.serving Ref.t0 1000 Ref.document in
  let url := EPGManager.UrlString (lit "http://epg.example/guide.xml.gz") in
  let s' := (@EPGManager.startEPGUpdate Ref.runtime NET url Ref.guide).2 in
  EPGManager.stored s'
  = [ Ref.row "rai1" "Al contrario" 1700049600000 1700046000000;
      Ref.row "rai1" "TG1" 1699999200000 1700004600000 ]
  ∧ EPGManager.lastUpdate s' = Some (Ref.t0 + 4000)
  ∧ EPGManager.isUpdating s' = false
  ∧ EPGManager.requests s' = [lit "http://epg.example/guide.xml.gz"].
Proof. vm_compute. repeat split; reflexivity. Qed.

Lemma rebuildCache_failure_atomic_witness :
  let NET := Ref.offline Ref.t0 1000 in
  let e := Failure "ECONNREFUSED" in
  let run := @CacheManager.rebuildCache NET (inl e)
               (Some (lit "http://tv.example/list.m3u")) None Ref.catalog in
  CacheManager.cache Ref.catalog = Some Ref.snapshot
  ∧ CacheManager.updateInProgress Ref.snapshot = false
  ∧ run.1 = Throw e
  ∧ CacheManager.cache run.2 = CacheManager.cache Ref.catalog
  ∧ CacheManager.emitted run.2 = [CacheManager.cacheError e]
  ∧ ∀ id, @CacheManager.getChannel Ref.runtime run.2 id
          = @CacheManager.getChannel Ref.runtime Ref.catalog id.
Proof.
  intros NET e run. split; [reflexivity |]. split; [reflexivity |].
  destruct (@rebuildCache_failure_atomic Ref.runtime NET Ref.catalog
              Ref.snapshot e
              (Some (lit "http://tv.example/list.m3u")) None eq_refl eq_refl)
    as (H1 & H2 & H3 & _ & _ & H6 & _).
  split; [exact H1 |]. split; [exact H2 |]. split; [exact H3 | exact H6].
Defined.

Lemma single_flight_witness :
  let NET := Ref.offline Ref.t0 1000 in
  let url := Some (lit "http://tv.example/list.m3u") in
  let busy := EPGManager.with_isUpdating true Ref.guide in
  EPGManager.isUpdating busy = true
  ∧ @EPGManager.startEPGUpdate Ref.runtime NET
      (EPGManager.UrlString (lit "http://epg.example/guide.xml")) busy
    = (Ret tt, busy)
  ∧ @CacheManager.rebuildCache NET (inr Ref.lineup) url None Ref.rebuilding
    = (Ret tt, Ref.rebuilding)
  ∧ ∃ s1,
      CacheManager.rebuildCache_enter url None Ref.catalog
      = (Ret CacheManager.AwaitingTransform, s1)
      ∧ @CacheManager.rebuildCache NET (inr Ref.lineup) url None s1 = (Ret tt, s1)
      ∧ CacheManager.transformCalls
          (@CacheManager.rebuildCache_resume NET url (inr Ref.lineup) s1).2
        = [(url, CacheManager.config s1)].
Proof.
  intros NET url busy. split; [reflexivity |].
  pose proof (@single_flight Ref.runtime NET busy
                (EPGManager.UrlString (lit "http://epg.example/guide.xml"))
                Ref.rebuilding
                (CacheManager.with_updateInProgress true Ref.snapshot)
                url None url None (inr Ref.lineup)
                (inr Ref.lineup)) as (H1 & H2 & _).
  split; [exact (H1 eq_refl) |]. split; [exact (H2 eq_refl eq_refl) |].
  pose proof (@single_flight Ref.runtime NET busy
                (EPGManager.UrlString (lit "http://epg.example/guide.xml"))
                Ref.catalog Ref.snapshot url None url None (inr Ref.lineup)
                (inr Ref.lineup)) as (_ & _ & H3).
  exact (H3 eq_refl eq_refl).
Defined.

Lemma getChannel_tiers_witness :
  CacheManager.absent (Some (lit "RAI 2")) = false
  ∧ @CacheManager.getChannel Ref.runtime Ref.catalog (Some (lit "RAI 2"))
    = CacheManager.Found (Ref.channel "tv|rai2" "Rai 2" "rai2.it").
Proof.
  split; [reflexivity |].
  destruct (@getChannel_tiers Ref.runtime Ref.catalog (Some (lit "RAI 2")))
    as [_ H].
  destruct (H _ eq_refl eq_refl) as [H1 _].
  apply (H1 [Ref.channel "tv|rai1hd" "Rai 1 HD" "rai1";
             Ref.channel "tv|rai1" "Rai 1" "rai1.it"]
            (Ref.channel "tv|rai2" "Rai 2" "rai2.it") []).
  - reflexivity.
  - left. vm_compute. reflexivity.
  - repeat constructor; vm_compute; discriminate.
Defined.

(** C8 (as stated) fails. Asked for "rai1", the lookup returns the
    first channel, which answers by its guide identifier only, and not
    the second one, whose own identifier is "rai1". *)
Lemma getChannel_counterexample :
  let hd := Ref.channel "tv|rai1hd" "Rai 1 HD" "rai1" in
  let sd := Ref.channel "tv|rai1" "Rai 1" "rai1.it" in
  let n := @CacheManager.normalizeId Ref.runtime Ref.catalog
             (Some (lit "rai1")) false in
  In sd (CacheManager.channels Ref.lineup)
  ∧ @CacheManager.byId Ref.runtime Ref.catalog n sd
  ∧ ¬ @CacheManager.byId Ref.runtime Ref.catalog n hd
  ∧ @CacheManager.byTvgId Ref.runtime Ref.catalog n hd
  ∧ @CacheManager.getChannel Ref.runtime Ref.catalog (Some (lit "rai1"))
    = CacheManager.Found hd
  ∧ @CacheManager.getChannel Ref.runtime Ref.catalog (Some (lit "rai1"))
    ≠ CacheManager.Found sd.
Proof.
  intros hd sd n. split; [simpl; auto |].
  split; [vm_compute; reflexivity |].
  split; [vm_compute; discriminate |].
  split; [vm_compute; reflexivity |].
  split; [vm_compute; reflexivity | vm_compute; discriminate].
Qed.

Lemma needsUpdate_threshold_witness :
  let NET := Ref.offline Ref.t0 1000 in
  EPGManager.lastUpdate Ref.guide = Some (Ref.t0 - 86400000)
  ∧ @clock NET (EPGManager.ticks Ref.guide) - (Ref.t0 - 86400000)
    = EPGManager.DAY
  ∧ ∃ b, (@EPGManager.needsUpdate NET Ref.guide).1 = Ret b ∧ b = true.
Proof.
  intros NET. split; [reflexivity |]. split; [reflexivity |].
  destruct (@needsUpdate_threshold NET Ref.guide) as (b & Hb & _ & H).
  exists b. split; [exact Hb |]. exact (H _ eq_refl eq_refl).
Defined.

(** ** The model at work *)

Example normalizeId_run :
  @EPGManager.normalizeId Ref.runtime (Some (lit "  Sky Sport F1 (HD).it "))
  = lit "skysportf1hd.it"
  ∧ @EPGManager.normalizeId Ref.runtime (Some [8490%N; 65%N; 233%N; 95%N])
    = lit "ka_"
  ∧ @EPGManager.normalizeId Ref.runtime (Some (lit "***")) = [].
Proof. vm_compute. repeat split; reflexivity. Qed.

Example normalizeId_suffix_run :
  let s := CacheManager.with_config
             (Some {[ "id_suffix"%string := lit "it" ]}) Ref.catalog in
  @CacheManager.normalizeId Ref.runtime s (Some (lit "Rai 1.it")) true = lit "rai1"
  ∧ @CacheManager.normalizeId Ref.runtime s (Some (lit "Rai 1.it")) false
    = lit "rai1.it".
Proof. vm_compute. split; reflexivity. Qed.

Example parseEPGDate_run :
  @EPGManager.parseEPGDate Ref.runtime (Some (lit "20231114221320 +0000"))
  = Some Ref.t0
  ∧ @EPGManager.parseEPGDate Ref.runtime (Some (lit "20231114231320+0100"))
    = Some Ref.t0
  ∧ @EPGManager.parseEPGDate Ref.runtime (Some (lit "2023-11-14 22:13")) = None
  ∧ @EPGManager.parseEPGDate Ref.runtime (Some (lit "20231114221320")) = None
  ∧ @EPGManager.parseEPGDate Ref.runtime (Some (lit "20231314221320 +0000"))
    = None
  ∧ @EPGManager.parseEPGDate Ref.runtime None = None.
Proof. vm_compute. repeat split; reflexivity. Qed.

Example chunks_run :
  EPGManager.chunks 2 [1; 2; 3; 4; 5]%nat = [[1; 2]; [3; 4]; [5]]%nat.
Proof. reflexivity. Qed.

Example readExternalFile_run :
  let body := Text (lit "http://a.example/1.xml
# note
http://b.example/2.xml.gz
") in
  (@EPGManager.readExternalFile (Ref.listed Ref.t0 1000 body)
     (EPGManager.UrlString (lit "http://epg.example/list.txt")) Ref.cleared).1
  = Ret [lit "http://a.example/1.xml"; lit "http://b.example/2.xml.gz"]
  ∧ (@EPGManager.readExternalFile (Ref.offline Ref.t0 1000)
       (EPGManager.UrlString (lit "http://a.example/1.xml, http://b.example/2.xml"))
       Ref.cleared).1
    = Ret [lit "http://a.example/1.xml"; lit "http://b.example/2.xml"]
  ∧ (@EPGManager.readExternalFile (Ref.offline Ref.t0 1000)
       EPGManager.UrlAbsent Ref.cleared).1
    = Throw (TypeError "Cannot read properties of null").
Proof. vm_compute. repeat split; reflexivity. Qed.

Example getChannel_run :
  @CacheManager.getChannel Ref.runtime Ref.catalog (Some (lit "Rai 1 HD"))
  = CacheManager.Found (Ref.channel "tv|rai1hd" "Rai 1 HD" "rai1")
  ∧ @CacheManager.getChannel Ref.runtime Ref.catalog (Some (lit "rai3"))
    = CacheManager.Undefined
  ∧ @CacheManager.getChannel Ref.runtime Ref.catalog (Some []) = CacheManager.Null
  ∧ @CacheManager.searchChannels Ref.runtime Ref.catalog (Some (lit "HD"))
    = [Ref.channel "tv|rai1hd" "Rai 1 HD" "rai1"].
Proof. vm_compute. repeat split; reflexivity. Qed.

Example rebuildCache_run :
  let NET := Ref.offline Ref.t0 1000 in
  let url := Some (lit "http://tv.example/new.m3u") in
  let s := CacheManager.with_db
             (Some {| CacheManager.channels_table := [];
                      CacheManager.genres_table := [];
                      CacheManager.meta_lastUpdated := None;
                      CacheManager.meta_m3uUrl := None;
                      CacheManager.meta_epgUrls := None |}) Ref.catalog in
  let run := @CacheManager.rebuildCache NET (inr Ref.lineup) url None s in
  run.1 = Ret tt
  ∧ (CacheManager.lastUpdated <$> CacheManager.cache run.2) = Some (Some Ref.t0)
  ∧ (CacheManager.m3uUrl <$> CacheManager.cache run.2) = Some url
  ∧ length (CacheManager.emitted run.2) = 1%nat
  ∧ CacheManager.transformCalls run.2 = [(url, Some ∅)]
  ∧ (CacheManager.channels_table <$> CacheManager.disk run.2)
    = Some (map (λ ch, (CacheManager.ch_id ch, ch))
              (CacheManager.channels Ref.lineup)).
Proof. vm_compute. repeat split; reflexivity. Qed.

(** * Further properties *)

(** ** What a method body leaves unchanged

    A relation that holds across every step of a body holds across the
    body, whether it returns or throws. *)

Section Frames.
Context {S : Type} (R : S → S → Prop) `{!Reflexive R, !Transitive R}.

Lemma ret_pres {A} (a : A) : ∀ s, R s (Eff.ret a s).2.
Proof. intros s. reflexivity. Qed.

Lemma throw_pres {A} e : ∀ s, R s (@Eff.throw S A e s).2.
Proof. intros s. reflexivity. Qed.

Lemma get_pres : ∀ s, R s (@Eff.get S s).2.
Proof. intros s. reflexivity. Qed.

Lemma modify_pres (f : S → S) : (∀ s, R s (f s)) → ∀ s, R s (Eff.modify f s).2.
Proof. intros Hf s. apply Hf. Qed.

Lemma bind_pres {A B} (c : Eff.M S A) (k : A → Eff.M S B) :
  (∀ s, R s (c s).2) → (∀ a s, R s (k a s).2) →
  ∀ s, R s (Eff.bind c k s).2.
Proof.
  intros Hc Hk s. unfold Eff.bind. specialize (Hc s).
  destruct (c s) as [[a | e] s1]; simpl in *; [| done].
  etransitivity; [exact Hc | apply Hk].
Qed.

Lemma tryCatch_pres {A} (c : Eff.M S A) (h : exn → Eff.M S A) :
  (∀ s, R s (c s).2) → (∀ e s, R s (h e s).2) →
  ∀ s, R s (Eff.tryCatch c h s).2.
Proof.
  intros Hc Hh s. unfold Eff.tryCatch. specialize (Hc s).
  destruct (c s) as [[a | e] s1]; simpl in *; [done |].
  etransitivity; [exact Hc | apply Hh].
Qed.

Lemma tryFinally_pres {A} (c : Eff.M S A) (f : Eff.M S unit) :
  (∀ s, R s (c s).2) → (∀ s, R s (f s).2) →
  ∀ s, R s (Eff.tryFinally c f s).2.
Proof.
  intros Hc Hf s. unfold Eff.tryFinally. specialize (Hc s).
  destruct (c s) as [r s1]. specialize (Hf s1).
  destruct (f s1) as [[[] | e] s2]; simpl in *; by etransitivity.
Qed.

Lemma forEach_pres {A} (f : A → Eff.M S unit) l :
  (∀ x s, R s (f x s).2) → ∀ s, R s (forEach f l s).2.
Proof.
  intros Hf. induction l as [| x l IH]; simpl; [intros s; reflexivity |].
  apply (bind_pres (f x) (λ _, forEach f l)); [apply Hf | intros _ s; apply IH].
Qed.

End Frames.

#[local] Instance unchanged_refl {S X} (f : S → X) : Reflexive (unchanged f).
Proof. intros s. reflexivity. Qed.

#[local] Instance unchanged_trans {S X} (f : S → X) : Transitive (unchanged f).
Proof. unfold unchanged. intros s1 s2 s3. congruence. Qed.

#[local] Instance staysOpen_refl : Reflexive EPGManager.staysOpen.
Proof. intros s. unfold EPGManager.staysOpen. tauto. Qed.

#[local] Instance staysOpen_trans : Transitive EPGManager.staysOpen.
Proof. unfold EPGManager.staysOpen. intros s1 s2 s3. tauto. Qed.

Lemma guide_theDb_pres (R : EPGManager.State → EPGManager.State → Prop)
    `{!Reflexive R} :
  ∀ s, R s (EPGManager.theDb s).2.
Proof. intros s. rewrite theDb_run. reflexivity. Qed.

Lemma guide_db_run_pres (R : EPGManager.State → EPGManager.State → Prop)
    `{!Reflexive R} f :
  (∀ s d, EPGManager.db s = Some d →
          R s (EPGManager.with_db (Some (f d)) s)) →
  ∀ s, R s (EPGManager.db_run f s).2.
Proof.
  intros Hf s. rewrite db_run_run.
  destruct (EPGManager.db s) as [d |] eqn:Hd; [by apply Hf | reflexivity].
Qed.

Lemma guide_saveDatabase_pres
    (R : EPGManager.State → EPGManager.State → Prop) `{!Reflexive R} :
  (∀ s d, EPGManager.db s = Some d →
          R s (EPGManager.with_disk (Some d) s)) →
  ∀ s, R s (EPGManager.saveDatabase s).2.
Proof.
  intros Hf s. unfold EPGManager.saveDatabase, Eff.modify. simpl.
  destruct (EPGManager.db s) as [d |] eqn:Hd; [by apply Hf | reflexivity].
Qed.

Lemma guide_Date_now_pres {NET : Network}
    (R : EPGManager.State → EPGManager.State → Prop) :
  (∀ s, R s (EPGManager.with_ticks (S (EPGManager.ticks s)) s)) →
  ∀ s, R s (EPGManager.Date_now s).2.
Proof. intros Hf s. apply Hf. Qed.

Lemma cache_theDb_pres (R : CacheManager.State → CacheManager.State → Prop)
    `{!Reflexive R} :
  ∀ s, R s (CacheManager.theDb s).2.
Proof. intros s. rewrite theDb_run_cache. reflexivity. Qed.

Lemma cache_theCache_pres (R : CacheManager.State → CacheManager.State → Prop)
    `{!Reflexive R} :
  ∀ s, R s (CacheManager.theCache s).2.
Proof. intros s. rewrite theCache_run. reflexivity. Qed.

Lemma cache_db_run_pres (R : CacheManager.State → CacheManager.State → Prop)
    `{!Reflexive R} f :
  (∀ s d, CacheManager.db s = Some d →
          R s (CacheManager.with_db (Some (f d)) s)) →
  ∀ s, R s (CacheManager.db_run f s).2.
Proof.
  intros Hf s. unfold CacheManager.db_run, Eff.bind. rewrite theDb_run_cache.
  destruct (CacheManager.db s) as [d |] eqn:Hd; [by apply Hf | reflexivity].
Qed.

Lemma cache_saveDatabase_pres
    (R : CacheManager.State → CacheManager.State → Prop) `{!Reflexive R} :
  (∀ s d, CacheManager.db s = Some d →
          R s (CacheManager.with_disk (Some d) s)) →
  ∀ s, R s (CacheManager.saveDatabase s).2.
Proof.
  intros Hf s. unfold CacheManager.saveDatabase, Eff.modify. simpl.
  destruct (CacheManager.db s) as [d |] eqn:Hd; [by apply Hf | reflexivity].
Qed.

Lemma cache_Date_now_pres {NET : Network}
    (R : CacheManager.State → CacheManager.State → Prop) :
  (∀ s, R s (CacheManager.with_ticks (S (CacheManager.ticks s)) s)) →
  ∀ s, R s (CacheManager.Date_now s).2.
Proof. intros Hf s. apply Hf. Qed.

(** Walks through a method body, one construct at a time. *)
Ltac frame :=
  repeat match goal with
    | |- ∀ s, _ s (Eff.bind _ _ s).2 => apply bind_pres; try apply _
    | |- ∀ s, _ s (Eff.tryCatch _ _ s).2 => apply tryCatch_pres; try apply _
    | |- ∀ s, _ s (Eff.tryFinally _ _ s).2 =>
        apply tryFinally_pres; try apply _
    | |- ∀ s, _ s (forEach _ _ s).2 => apply forEach_pres; try apply _
    | |- ∀ s, _ s (Eff.get s).2 => apply get_pres; apply _
    | |- ∀ s, _ s (Eff.ret _ s).2 => apply ret_pres; apply _
    | |- ∀ s, _ s (Eff.throw _ s).2 => apply throw_pres; apply _
    | |- ∀ s, _ s (Eff.modify _ s).2 => apply modify_pres; intro
    | |- ∀ s, _ s (EPGManager.theDb s).2 => apply guide_theDb_pres; apply _
    | |- ∀ s, _ s (EPGManager.db_run _ s).2 =>
        apply guide_db_run_pres; [apply _ | intros ? ? ?]
    | |- ∀ s, _ s (EPGManager.saveDatabase s).2 =>
        apply guide_saveDatabase_pres; [apply _ | intros ? ? ?]
    | |- ∀ s, _ s (EPGManager.Date_now s).2 =>
        apply guide_Date_now_pres; intro
    | |- ∀ s, _ s (CacheManager.theDb s).2 => apply cache_theDb_pres; apply _
    | |- ∀ s, _ s (CacheManager.theCache s).2 =>
        apply cache_theCache_pres; apply _
    | |- ∀ s, _ s (CacheManager.db_run _ s).2 =>
        apply cache_db_run_pres; [apply _ | intros ? ? ?]
    | |- ∀ s, _ s (CacheManager.saveDatabase s).2 =>
        apply cache_saveDatabase_pres; [apply _ | intros ? ? ?]
    | |- ∀ s, _ s (CacheManager.Date_now s).2 =>
        apply cache_Date_now_pres; intro
    | |- ∀ s, _ s ((match ?x with _ => _ end) s).2 => destruct x
    | |- ∀ s, _ s ((if ?x then _ else _) s).2 => destruct x
    | |- ∀ a s, _ s (_ s).2 => intro
    end.

Section GuideFrames.
Context {RT : JsRuntime} {NET : Network}.
Import EPGManager.

(** Unfolds the methods of the guide store down to its primitives. *)
Ltac open_guide :=
  unfold processEPGInChunks, processChannel, processProgramme, insertProgram,
    cleanupOldPrograms.

Lemma processEPGInChunks_requests data :
  ∀ s, unchanged requests s (processEPGInChunks data s).2.
Proof. open_guide. frame; done. Qed.

Lemma processEPGInChunks_lastUpdate data :
  ∀ s, unchanged lastUpdate s (processEPGInChunks data s).2.
Proof. open_guide. frame; done. Qed.

Lemma processEPGInChunks_isUpdating data :
  ∀ s, unchanged isUpdating s (processEPGInChunks data s).2.
Proof. open_guide. frame; done. Qed.

Lemma processEPGInChunks_staysOpen data :
  ∀ s, staysOpen s (processEPGInChunks data s).2.
Proof. open_guide. frame; unfold staysOpen; simpl; eauto. Qed.

Lemma programmes_icons lo hi ps :
  ∀ s, unchanged (λ s, channel_icons <$> db s) s
         (forEach (processProgramme lo hi) ps s).2.
Proof.
  open_guide. frame; try done. unfold unchanged. simpl.
  by match goal with H : db _ = Some _ |- _ => rewrite H end.
Qed.

Lemma programmes_disk lo hi ps :
  ∀ s, unchanged disk s (forEach (processProgramme lo hi) ps s).2.
Proof. open_guide. frame; done. Qed.

Lemma channels_disk cs :
  ∀ s, unchanged disk s (forEach processChannel cs s).2.
Proof. open_guide. frame; done. Qed.

End GuideFrames.

(** ** The guide store: cleanup, batches and failures *)

Section GuideMore.
Context {RT : JsRuntime} {NET : Network}.
Import EPGManager.

(** The steps of [processEPGInChunks] on a document with a [tv] root. *)
Lemma processEPGInChunks_run data t s :
  tv data = Some t →
  processEPGInChunks data s =
    match (match tv_channel t with
           | Some cs => theDb;; forEach processChannel cs
           | None => ret tt
           end) s with
    | (Throw e, s1) => (Throw e, s1)
    | (Ret _, s1) =>
        match tv_programme t with
        | None => (Ret tt, s1)
        | Some ps =>
            match db s1 with
            | None => (Throw (TypeError "Cannot read properties of null"),
                       with_ticks (S (ticks s1)) s1)
            | Some _ =>
                match forEach (processProgramme (clock (ticks s1) - HOUR)
                                 (clock (ticks s1) + SEVEN_DAYS))
                        ps (with_ticks (S (ticks s1)) s1) with
                | (Ret _, s3) => saveDatabase s3
                | (Throw e, s3) => (Throw e, s3)
                end
            end
        end
    end.
Proof.
  intros Htv. unfold processEPGInChunks. rewrite Htv.
  unfold Eff.bind at 1.
  destruct ((match tv_channel t with
             | Some cs => theDb;; forEach processChannel cs
             | None => ret tt
             end) s) as [[[] | e] s1]; [| done].
  destruct (tv_programme t) as [ps |]; [| done].
  unfold Eff.bind at 1, Date_now at 1.
  unfold Eff.bind at 1. rewrite theDb_run. simpl.
  destruct (db s1) as [d |]; [| done].
  unfold Eff.bind. rewrite chunked_loop.
  by destruct (forEach _ ps _) as [[[] | e] s3].
Qed.

Lemma bool_filter_sublist {A} (f : A → bool) l :
  List.filter f l `sublist_of` l.
Proof.
  induction l as [| x l IH]; simpl; [constructor |].
  destruct (f x); by constructor.
Qed.


Lemma chunksFrom_sizes {A} fuel n (l : list A) :
  (0 < n)%nat → (length l ≤ fuel)%nat →
  Forall (λ c, (0 < length c ≤ n)%nat) (chunksFrom fuel n l)
  ∧ ∀ i c, chunksFrom fuel n l !! i = Some c →
           (S i < length (chunksFrom fuel n l))%nat → length c = n.
Proof.
  intros Hn. revert l. induction fuel as [| fuel IH]; intros l Hl.
  { destruct l; simpl in *; [| lia]. split; [constructor | done]. }
  destruct l as [| x l]; [split; [constructor | done] |].
  assert (length (drop n (x :: l)) ≤ fuel)%nat as Hd.
  { rewrite length_drop. simpl in *. lia. }
  destruct (IH (drop n (x :: l)) Hd) as [IH1 IH2].
  change (chunksFrom (S fuel) n (x :: l))
    with (take n (x :: l) :: chunksFrom fuel n (drop n (x :: l))).
  split.
  - constructor; [| done]. rewrite length_take. simpl. lia.
  - intros [| i] c Hc Hi; simpl in *.
    + injection Hc as <-. rewrite length_take.
      destruct (drop n (x :: l)) as [| y l'] eqn:Hdrop.
      { destruct fuel; simpl in Hi; lia. }
      assert (length (drop n (x :: l)) = S (length l')) as Hlen
        by (by rewrite Hdrop).
      rewrite length_drop in Hlen. lia.
    + apply (IH2 i c Hc). lia.
Qed.

(** X2. The batches of the ingestion loop are the programme list cut
    in order into pieces of [CHUNK_SIZE] elements, the last one
    possibly shorter and none empty: no element is lost, repeated or
    reordered. *)
Theorem chunks_partition {A} (l : list A) :
  concat (chunks CHUNK_SIZE l) = l
  ∧ Forall (λ c, (0 < length c ≤ CHUNK_SIZE)%nat) (chunks CHUNK_SIZE l)
  ∧ ∀ i c, chunks CHUNK_SIZE l !! i = Some c →
           (S i < length (chunks CHUNK_SIZE l))%nat →
           length c = CHUNK_SIZE.
Proof.
  split; [apply concat_chunks |].
  apply chunksFrom_sizes; [unfold CHUNK_SIZE; lia | done].
Qed.

(** X3. One source can never fail a refresh: given a URL string,
    [downloadAndProcessEPG] always returns, having made exactly one
    request, and keeps the rows stored before it; when the source
    cannot be fetched or has no [tv] root, tables, file and clock are
    as they were. *)
Theorem downloadAndProcessEPG_isolated u s :
  (downloadAndProcessEPG u s).1 = Ret tt
  ∧ requests (downloadAndProcessEPG u s).2 = requests s ++ [trim u]
  ∧ lastUpdate (downloadAndProcessEPG u s).2 = lastUpdate s
  ∧ isUpdating (downloadAndProcessEPG u s).2 = isUpdating s
  ∧ (∃ new, stored (downloadAndProcessEPG u s).2 = stored s ++ new)
  ∧ (match fetchGuide (length (requests s)) (trim u) with
     | Some doc => tv doc = None
     | None => True
     end →
     db (downloadAndProcessEPG u s).2 = db s
     ∧ disk (downloadAndProcessEPG u s).2 = disk s
     ∧ ticks (downloadAndProcessEPG u s).2 = ticks s).
Proof.
  destruct (downloadAndProcessEPG_effect u s) as (new & Hret & Hst & _).
  split; [done |].
  assert (requests (downloadAndProcessEPG u s).2 = requests s ++ [trim u]
          ∧ lastUpdate (downloadAndProcessEPG u s).2 = lastUpdate s
          ∧ isUpdating (downloadAndProcessEPG u s).2 = isUpdating s
          ∧ (match fetchGuide (length (requests s)) (trim u) with
             | Some doc => tv doc = None
             | None => True
             end →
             db (downloadAndProcessEPG u s).2 = db s
             ∧ disk (downloadAndProcessEPG u s).2 = disk s
             ∧ ticks (downloadAndProcessEPG u s).2 = ticks s)) as H.
  { unfold downloadAndProcessEPG, Eff.tryCatch, Eff.bind. rewrite request_run.
    destruct (fetchGuide _ _) as [doc |]; simpl; [| done].
    destruct (tv doc) as [t |] eqn:Htv; simpl; [| done].
    set (s0 := with_requests (requests s ++ [trim u]) s).
    pose proof (processEPGInChunks_requests doc s0) as H1.
    pose proof (processEPGInChunks_lastUpdate doc s0) as H2.
    pose proof (processEPGInChunks_isUpdating doc s0) as H3.
    unfold unchanged in *.
    destruct (processEPGInChunks doc s0) as [[[] | e] s1]; simpl in *;
      rewrite H1, H2, H3; done. }
  destruct H as (? & ? & ? & H4).
  split; [done |]. split; [done |]. split; [done |].
  split; [by exists new | exact H4].
Qed.

(** X4. A programme element without attributes aborts the rest of its
    source: the call throws, the elements after it are not looked at,
    the rows of the elements before it are in the table, and the file
    is not written. *)
Theorem processEPGInChunks_aborts data t good bad rest s :
  tv data = Some t →
  tv_programme t = Some (good ++ bad :: rest) →
  xp_attrs bad = None →
  Forall bindable good →
  Forall (λ c, is_Some (xc_attrs c)) (default [] (tv_channel t)) →
  is_Some (db s) →
  let upTo := {| tv := Some {| tv_channel := tv_channel t;
                               tv_programme := Some good |} |} in
  (processEPGInChunks data s).1
  = Throw (TypeError "Cannot read properties of undefined")
  ∧ (processEPGInChunks upTo s).1 = Ret tt
  ∧ stored (processEPGInChunks data s).2
    = stored (processEPGInChunks upTo s).2
  ∧ disk (processEPGInChunks data s).2 = disk s.
Proof.
  intros Htv Hps Hbad Hgood Hcs Hdb upTo.
  rewrite (processEPGInChunks_run data t s Htv).
  rewrite (processEPGInChunks_run upTo _ s eq_refl). simpl. rewrite Hps.
  set (icons := match tv_channel t with
                | Some cs => theDb;; forEach processChannel cs
                | None => ret tt
                end).
  assert (∃ s1, icons s = (Ret tt, s1) ∧ is_Some (db s1) ∧ disk s1 = disk s)
    as (s1 & -> & [d1 Hd1] & Hk1).
  { unfold icons. destruct (tv_channel t) as [cs |]; simpl in Hcs.
    - unfold Eff.bind. rewrite theDb_run. destruct Hdb as [d Hd]. rewrite Hd.
      destruct (channels_return cs s Hcs) as (s1 & Hr1 & ?); [by eexists |].
      pose proof (channels_disk cs s) as Hk. rewrite Hr1 in *.
      by exists s1.
    - by exists s. }
  rewrite Hd1.
  set (lo := clock (ticks s1) - HOUR). set (hi := clock (ticks s1) + SEVEN_DAYS).
  set (s2 := with_ticks (S (ticks s1)) s1).
  destruct (programmes_keep lo hi good s2 Hgood) as (new & s3 & Hloop & _);
    [by eexists |].
  pose proof (programmes_disk lo hi good s2) as Hk3. rewrite Hloop in Hk3.
  assert (forEach (processProgramme lo hi) (good ++ bad :: rest) s2
          = (Throw (TypeError "Cannot read properties of undefined"), s3))
    as Hfull.
  { rewrite forEach_app. unfold Eff.bind. rewrite Hloop. simpl.
    unfold Eff.bind, processProgramme. by rewrite Hbad. }
  rewrite Hfull, Hloop. simpl.
  split; [done |]. unfold saveDatabase, Eff.modify. simpl.
  split; [done |]. split.
  - unfold stored. destruct (db s3) eqn:E; simpl; by rewrite ?E.
  - unfold unchanged in Hk3. simpl in Hk3. by rewrite Hk3.
Qed.

End GuideMore.

(** ** The guide store: icons, dates and sources *)

Section GuideSources.
Context {RT : JsRuntime} {NET : Network}.
Import EPGManager.

Lemma channels_icons cs :
  Forall (λ c, is_Some (xc_attrs c)) cs →
  ∀ s d, db s = Some d →
  ∃ s' d',
    forEach processChannel cs s = (Ret tt, s')
    ∧ db s' = Some d'
    ∧ channel_icons d' = fold_left upsertIcon cs (channel_icons d).
Proof.
  induction 1 as [| c cs [a Ha] _ IH]; intros s d Hd; simpl.
  { by exists s, d. }
  unfold Eff.bind.
  assert (∃ s1 d1, processChannel c s = (Ret tt, s1) ∧ db s1 = Some d1
                   ∧ channel_icons d1 = upsertIcon (channel_icons d) c)
    as (s1 & d1 & -> & Hd1 & Hi1).
  { unfold processChannel, upsertIcon, iconRow. rewrite Ha.
    destruct (xc_icon c) as [icon |]; [| by exists s, d].
    destruct (truthy _ && truthy icon); [| by exists s, d].
    rewrite db_run_run, Hd. by eexists _, _. }
  destruct (IH s1 d1 Hd1) as (s' & d' & Hrun & Hd' & Hi').
  exists s', d'. by rewrite Hi', Hi1.
Qed.

Lemma upsert_last n icon l1 c l2 m :
  iconRow c = Some (n, icon) →
  Forall (λ c', ∀ i, iconRow c' ≠ Some (n, i)) l2 →
  fold_left upsertIcon (l1 ++ c :: l2) m !! n = Some icon.
Proof.
  intros Hc Hl2. rewrite fold_left_app. simpl.
  set (m1 := upsertIcon (fold_left upsertIcon l1 m) c).
  assert (m1 !! n = Some icon) as H1.
  { unfold m1, upsertIcon. rewrite Hc. apply lookup_insert_eq. }
  clearbody m1. revert m1 H1.
  induction Hl2 as [| c' l2 Hc' _ IH]; intros m1 H1; simpl; [done |].
  apply IH. unfold upsertIcon. destruct (iconRow c') as [[k v] |]; [| done].
  rewrite lookup_insert_ne; [done |]. intros ->. by apply (Hc' v).
Qed.

Lemma upsert_none n cs m :
  Forall (λ c', ∀ i, iconRow c' ≠ Some (n, i)) cs →
  fold_left upsertIcon cs m !! n = m !! n.
Proof.
  intros Hcs. revert m.
  induction Hcs as [| c' l2 Hc' _ IH]; intros m; simpl; [done |].
  rewrite IH. unfold upsertIcon. destruct (iconRow c') as [[k v] |]; [| done].
  rewrite lookup_insert_ne; [done |]. intros ->. by apply (Hc' v).
Qed.

Lemma getChannelIcon_run id s :
  getChannelIcon id s
  = (Ret (if absent id then None
          else db s ≫= λ d, channel_icons d !! normalizeId id), s).
Proof.
  unfold getChannelIcon, Eff.bind, Eff.get, Eff.ret. simpl.
  destruct (absent id); [done |]. by destruct (db s).
Qed.

(** The icon table after [processEPGInChunks], whatever became of the
    programmes. *)
Lemma processEPGInChunks_icons data t cs s d :
  tv data = Some t → tv_channel t = Some cs →
  Forall (λ c, is_Some (xc_attrs c)) cs →
  db s = Some d →
  (channel_icons <$> db (processEPGInChunks data s).2)
  = Some (fold_left upsertIcon cs (channel_icons d)).
Proof.
  intros Htv Hcs Hattrs Hd.
  rewrite (processEPGInChunks_run data t s Htv), Hcs.
  unfold Eff.bind at 1. rewrite theDb_run, Hd.
  destruct (channels_icons cs Hattrs s d Hd) as (s1 & d1 & -> & Hd1 & Hi1).
  destruct (tv_programme t) as [ps |]; simpl;
    [| rewrite Hd1; simpl; by rewrite Hi1].
  rewrite Hd1.
  pose proof (programmes_icons (clock (ticks s1) - HOUR)
                (clock (ticks s1) + SEVEN_DAYS) ps
                (with_ticks (S (ticks s1)) s1)) as Hk.
  unfold unchanged in Hk. simpl in Hk. rewrite Hd1 in Hk. simpl in Hk.
  destruct (forEach _ ps _) as [[[] | e] s3]; simpl in *.
  - unfold saveDatabase, Eff.modify. simpl.
    destruct (db s3) as [d3 |] eqn:E; simpl in *; rewrite ?E; simpl;
      by rewrite ?Hi1 in *.
  - by rewrite Hk, Hi1.
Qed.

(** X5. Icons are last-write-wins per normalised identifier: after
    [processEPGInChunks], [getChannelIcon(id)] returns the icon of the
    last [<channel>] element of the document whose identifier
    normalises like [id], and keeps its previous answer when the
    document has no such element; what happens to the programmes of
    the document makes no difference. *)
Theorem getChannelIcon_last_wins data t cs s d id :
  tv data = Some t → tv_channel t = Some cs →
  Forall (λ c, is_Some (xc_attrs c)) cs →
  db s = Some d →
  absent id = false →
  let s' := (processEPGInChunks data s).2 in
  (∀ l1 c l2 icon,
     cs = l1 ++ c :: l2 →
     iconRow c = Some (normalizeId id, icon) →
     Forall (λ c', ∀ i, iconRow c' ≠ Some (normalizeId id, i)) l2 →
     (getChannelIcon id s').1 = Ret (Some icon))
  ∧ (Forall (λ c', ∀ i, iconRow c' ≠ Some (normalizeId id, i)) cs →
     (getChannelIcon id s').1 = (getChannelIcon id s).1).
Proof.
  intros Htv Hcs Hattrs Hd Hid s'.
  pose proof (processEPGInChunks_icons data t cs s d Htv Hcs Hattrs Hd) as Hi.
  fold s' in Hi. rewrite !getChannelIcon_run, Hid. simpl.
  destruct (db s') as [d' |]; [| discriminate]. simpl in *.
  injection Hi as Hi. rewrite Hi, Hd. simpl. split.
  - intros l1 c l2 icon -> Hc Hl2. f_equal. by apply upsert_last.
  - intros Hnone. f_equal. by apply upsert_none.
Qed.

Lemma trimStart_split l :
  ∃ ws, l = ws ++ trimStart l ∧ Forall (λ c, isSpace c = true) ws.
Proof.
  induction l as [| c l (ws & Hl & Hws)]; simpl; [by exists [] |].
  destruct (isSpace c) eqn:Hc; [| by exists []].
  exists (c :: ws). split; [simpl; by f_equal | by constructor].
Qed.

Lemma trimStart_spaces ws z :
  Forall (λ c, isSpace c = true) ws →
  head z ≫= (λ c, if isSpace c then Some c else None) = None →
  trimStart (ws ++ z) = z.
Proof.
  induction 1 as [| c ws Hc _ IH]; intros Hz; simpl.
  - destruct z as [| c z]; [done |]. simpl in *. by destruct (isSpace c).
  - rewrite Hc. by apply IH.
Qed.

(** X6. [parseEPGDate] accepts exactly the strings made of fourteen
    digits, any run of white space (none included), a sign and four
    digits, and hands the runtime the ISO string built from the digits
    and the zone; the white space makes no difference to the result. *)
Theorem parseEPGDate_format s t :
  parseEPGDate (Some s) = Some t ↔
  ∃ dg ws sign tz,
    s = dg ++ ws ++ sign :: tz
    ∧ length dg = 14%nat ∧ forallb isDigit dg = true
    ∧ Forall (λ c, isSpace c = true) ws
    ∧ (sign = 43%N ∨ sign = 45%N)
    ∧ length tz = 4%nat ∧ forallb isDigit tz = true
    ∧ dateFromISO (isoString dg (sign :: tz)) = Some t.
Proof.
  unfold parseEPGDate, matchEPGDate. split.
  - destruct (truthy s); [| done].
    destruct (Nat.eqb_spec (length (take 14 s)) 14) as [Hlen |]; [| done].
    destruct (forallb isDigit (take 14 s)) eqn:Hdg; [| done]. simpl.
    destruct (trimStart_split (drop 14 s)) as (ws & Hdrop & Hws).
    destruct (trimStart (drop 14 s)) as [| sign tz]; [done |].
    destruct ((sign =? 43) || (sign =? 45))%N eqn:Hsign; [| done].
    destruct (Nat.eqb_spec (length tz) 4) as [Htz |]; [| done].
    destruct (forallb isDigit tz) eqn:Hdtz; [| done]. simpl.
    intros Ht. exists (take 14 s), ws, sign, tz.
    rewrite <- Hdrop, take_drop. repeat split; try done.
    apply orb_prop in Hsign as [H | H]; apply N.eqb_eq in H; auto.
  - intros (dg & ws & sign & tz & -> & Hlen & Hdg & Hws & Hsign & Htz
            & Hdtz & Ht).
    assert (truthy (dg ++ ws ++ sign :: tz) = true) as ->.
    { destruct dg; [done | done]. }
    rewrite take_app_length', drop_app_length' by done.
    rewrite Hlen, Hdg. simpl.
    rewrite trimStart_spaces; [| done |].
    2: { simpl. by destruct Hsign as [-> | ->]. }
    assert (((sign =? 43) || (sign =? 45))%N = true) as ->.
    { by destruct Hsign as [-> | ->]. }
    by rewrite Htz, Hdtz.
Qed.

Lemma splitOn_nonempty c s : splitOn c s ≠ [].
Proof.
  destruct s as [| x s]; simpl; [done |].
  destruct (x =? c)%N; [done |]. by destruct (splitOn c s).
Qed.

(** X7. [readExternalFile] on a string always returns at least one
    URL. A comma list and a [.gz] URL are settled without a request;
    otherwise exactly one request is made, and unless its body is text
    that is not XML and holds lines starting with "http", the answer is
    the URL itself. Nothing but the list of requests changes. *)
Theorem readExternalFile_string u s :
  let local := includes u (lit ",") || endsWith u (lit ".gz") in
  ∃ l,
    readExternalFile (UrlString u) s
    = (Ret l, if local then s else with_requests (requests s ++ [trim u]) s)
    ∧ l ≠ []
    ∧ (includes u (lit ",") = true → l = map trim (splitOn 44 u))
    ∧ (includes u (lit ",") = false →
       match (if endsWith u (lit ".gz") then None
              else httpGet (length (requests s)) (trim u)) with
       | Some (Text c) =>
           if includes c (lit "<?xml") || includes c (lit "<tv") then l = [u]
           else
             let urls := List.filter
                           (λ line, truthy (trim line)
                                    && startsWith line (lit "http"))
                           (splitOn 10 c) in
             l = match urls with [] => [u] | _ => urls end
       | _ => l = [u]
       end).
Proof.
  intros local. unfold local. simpl.
  destruct (includes u (lit ",")) eqn:Hcomma; simpl.
  { eexists. split; [reflexivity |]. split; [| done].
    pose proof (splitOn_nonempty 44 u). by destruct (splitOn 44 u). }
  unfold Eff.tryCatch. destruct (endsWith u (lit ".gz")); simpl.
  { exists [u]. by repeat split. }
  unfold Eff.bind. rewrite request_run.
  destruct (httpGet _ _) as [[c |] |]; simpl.
  - destruct (includes c (lit "<?xml") || includes c (lit "<tv")).
    { exists [u]. by repeat split. }
    destruct (List.filter _ _) as [| x l] eqn:Hf.
    + exists [u]. by repeat split.
    + exists (x :: l). by repeat split.
  - exists [u]. by repeat split.
  - exists [u]. by repeat split.
Qed.

End GuideSources.

(** ** The guide store: a refresh from start to end *)

Section GuideLifecycle.
Context {RT : JsRuntime} {NET : Network}.
Import EPGManager.

Lemma request_with_db {A} (answer : nat → str → option A) u x s :
  request answer u (with_db x s)
  = ((request answer u s).1, with_db x (request answer u s).2).
Proof. by rewrite !request_run. Qed.

(** Reading the list of sources does not look at the tables. *)
Lemma readExternalFile_with_db url x s :
  readExternalFile url (with_db x s)
  = ((readExternalFile url s).1, with_db x (readExternalFile url s).2).
Proof.
  destruct url as [l | u |]; simpl; [done | | done].
  destruct (includes u (lit ",")); [done |].
  unfold Eff.tryCatch. destruct (endsWith u (lit ".gz")); [done |].
  unfold Eff.bind. rewrite request_with_db, request_run. simpl.
  destruct (httpGet _ _) as [[c |] |]; simpl; [| done | done].
  destruct (includes c (lit "<?xml") || includes c (lit "<tv")); [done |].
  by destruct (List.filter _ _).
Qed.

Lemma downloads_staysOpen urls :
  ∀ s, staysOpen s (forEach downloadAndProcessEPG urls s).2.
Proof.
  unfold downloadAndProcessEPG, request. frame; try done;
    try apply processEPGInChunks_staysOpen.
  unfold staysOpen. simpl. tauto.
Qed.

(** The steps of a refresh that starts with the flag down and the
    database open. *)
Lemma startEPGUpdate_steps url s d :
  url ≠ UrlAbsent → isUpdating s = false → db s = Some d →
  ∃ l s1 s3 d3,
    readExternalFile url (with_isUpdating true (with_ticks (S (ticks s)) s))
    = (Ret l, s1)
    ∧ forEach downloadAndProcessEPG l
        (with_db (Some {| programs := []; channel_icons := ∅ |}) s1)
      = (Ret tt, s3)
    ∧ db s3 = Some d3
    ∧ startEPGUpdate url s
      = (Ret tt,
         let kept := with_programs
                       (List.filter
                          (λ r, negb (stop_time r
                                      <? clock (S (ticks s3)) - HOUR))
                          (programs d3)) d3 in
         {| db := Some kept; lastUpdate := Some (clock (S (S (ticks s3))));
            isUpdating := false; offsetMinutes := offsetMinutes s3;
            ticks := S (S (S (ticks s3))); requests := requests s3;
            disk := Some kept |}).
Proof.
  intros Hurl Hflag Hdb. unfold startEPGUpdate.
  unfold Eff.bind at 1, Eff.get at 1. rewrite Hflag.
  unfold Eff.bind at 1, Date_now at 1.
  unfold Eff.tryFinally, Eff.tryCatch.
  unfold Eff.bind at 1, Eff.modify at 1.
  unfold Eff.bind at 1.
  set (s0 := with_isUpdating true (with_ticks (S (ticks s)) s)).
  destruct (readExternalFile_db url s0) as [Hd Hr].
  destruct (Hr Hurl) as [l Hl]. clear Hr.
  destruct (readExternalFile url s0) as [r s1]. simpl in Hd, Hl. subst r.
  assert (db s1 = Some d) as Hd1 by (by rewrite Hd).
  unfold Eff.bind at 1. rewrite db_run_run, Hd1.
  unfold Eff.bind at 1. rewrite db_run_run. simpl.
  unfold Eff.bind at 1.
  set (s2 := with_db _ (with_db _ s1)).
  assert (s2 = with_db (Some {| programs := []; channel_icons := ∅ |}) s1)
    as Hs2 by done.
  destruct (downloads_effect l s2) as (new & R3 & _).
  pose proof (downloads_staysOpen l s2) as Hopen.
  destruct (forEach downloadAndProcessEPG l s2) as [r3 s3] eqn:Hloop.
  simpl in R3, Hopen. subst r3.
  destruct Hopen as [d3 Hd3]; [by eexists |].
  exists l, s1, s3, d3. rewrite <- Hs2. split; [done |].
  split; [done |]. split; [done |].
  unfold Eff.bind at 1, Date_now at 1.
  unfold cleanupOldPrograms.
  unfold Eff.bind at 1, Date_now at 1.
  unfold Eff.bind at 1. rewrite db_run_run. simpl. by rewrite Hd3.
Qed.

(** X8. A refresh replaces the guide, it never merges: from an open
    database the whole outcome of [startEPGUpdate], file included, is
    the same whatever the tables held before. *)
Theorem startEPGUpdate_replaces url s d1 d2 :
  url ≠ UrlAbsent → isUpdating s = false →
  startEPGUpdate url (with_db (Some d1) s)
  = startEPGUpdate url (with_db (Some d2) s).
Proof.
  intros Hurl Hflag.
  destruct (startEPGUpdate_steps url (with_db (Some d1) s) d1 Hurl Hflag
              eq_refl) as (l1 & a1 & b1 & c1 & Hr1 & Hl1 & Hc1 & ->).
  destruct (startEPGUpdate_steps url (with_db (Some d2) s) d2 Hurl Hflag
              eq_refl) as (l2 & a2 & b2 & c2 & Hr2 & Hl2 & Hc2 & ->).
  change (with_isUpdating true (with_ticks _ (with_db ?x s)))
    with (with_db x (with_isUpdating true (with_ticks (S (ticks s)) s)))
    in Hr1, Hr2.
  rewrite readExternalFile_with_db in Hr1, Hr2.
  destruct (readExternalFile url _) as [r s1]. simpl in Hr1, Hr2.
  injection Hr1 as -> <-. injection Hr2 as <- <-.
  change (with_db _ (with_db _ s1))
    with (with_db (Some {| programs := []; channel_icons := ∅ |}) s1)
    in Hl1, Hl2.
  rewrite Hl1 in Hl2. injection Hl2 as <-.
  rewrite Hc1 in Hc2. by injection Hc2 as <-.
Qed.



End GuideLifecycle.

(** ** The guide manager: time zone and scheduled tasks *)

Section GuideManager.
Context {RT : JsRuntime} {NET : Network} {SQL : EPGManager.SqlEngine}.
Import EPGManager.

Lemma isDigit_range c : isDigit c = true → 48 ≤ Z.of_N c ≤ 57.
Proof.
  unfold isDigit. intros H. apply andb_prop in H as [H1 H2].
  apply N.leb_le in H1, H2. lia.
Qed.

Lemma parseDigits_two h :
  forallb isDigit h = true → (length h ≤ 2)%nat → 0 ≤ parseDigits h ≤ 99.
Proof.
  intros Hd Hl. unfold parseDigits.
  destruct h as [| a [| b [| c h]]]; simpl in *; [lia | | | lia].
  - apply andb_prop in Hd as [Ha _]. apply isDigit_range in Ha. lia.
  - apply andb_prop in Hd as [Ha Hd]. apply andb_prop in Hd as [Hb _].
    apply isDigit_range in Ha, Hb. lia.
Qed.

Lemma split_nonempty c s : split c s ≠ [].
Proof.
  destruct s as [| x s]; simpl; [done |].
  destruct (x =? c)%N; [done |]. by destruct (split c s).
Qed.

Lemma split_one c s m : split c s = [m] → s = m.
Proof.
  revert m. induction s as [| x s IH]; intros m; simpl.
  { by intros [= <-]. }
  destruct (x =? c)%N.
  { intros [= <- H]. by apply split_nonempty in H. }
  destruct (split c s) as [| w ws] eqn:Hs; [by apply split_nonempty in Hs |].
  intros [= <- ->]. f_equal. by apply IH.
Qed.

Lemma split_two c s h m : split c s = [h; m] → s = h ++ c :: m.
Proof.
  revert h. induction s as [| x s IH]; intros h; simpl; [done |].
  destruct (N.eqb_spec x c) as [-> |].
  { intros [= <- H]. simpl. f_equal. by apply (split_one c). }
  destruct (split c s) as [| w ws] eqn:Hs; [by apply split_nonempty in Hs |].
  intros [= <- ->]. simpl. f_equal. by apply IH.
Qed.

Lemma split_none c s : c ∉ s → split c s = [s].
Proof.
  induction s as [| x s IH]; simpl; [done |].
  intros H. apply not_elem_of_cons in H as [Hx Hs].
  destruct (N.eqb_spec x c) as [-> |]; [done |]. by rewrite IH.
Qed.

Lemma split_join c h m : c ∉ h → c ∉ m → split c (h ++ c :: m) = [h; m].
Proof.
  intros Hh Hm. induction h as [| x h IH]; simpl.
  { rewrite N.eqb_refl. by rewrite split_none. }
  apply not_elem_of_cons in Hh as [Hx Hh].
  destruct (N.eqb_spec x c) as [-> |]; [done |]. by rewrite IH.
Qed.

Lemma digits_no_colon h : forallb isDigit h = true → 58%N ∉ h.
Proof.
  intros H Hin. rewrite forallb_forall in H.
  apply list_elem_of_In, H in Hin. done.
Qed.

(** The strings [/^[+-]\d{1,2}:\d{2}$/] matches. *)
Lemma matchTimezone_Some z sign h mi :
  matchTimezone z = Some (sign, h, mi) ↔
  z = sign :: h ++ 58%N :: mi
  ∧ (sign = 43%N ∨ sign = 45%N)
  ∧ (1 ≤ length h ≤ 2)%nat ∧ forallb isDigit h = true
  ∧ length mi = 2%nat ∧ forallb isDigit mi = true.
Proof.
  unfold matchTimezone, matchHHMM. split.
  - destruct z as [| sg rest]; [done |].
    destruct ((sg =? 43) || (sg =? 45))%N eqn:Hsg; [| done].
    destruct (split 58 rest) as [| h' [| m' [| ? ?]]] eqn:Hs; try done.
    destruct (_ && _) eqn:Hc; [| done]. intros [= -> -> ->].
    apply split_two in Hs as ->.
    repeat (apply andb_prop in Hc as [Hc ?]).
    apply orb_prop in Hsg. apply orb_prop in Hc.
    rewrite !N.eqb_eq in Hsg. rewrite !Nat.eqb_eq in Hc.
    repeat split; try done; try lia. by apply Nat.eqb_eq.
  - intros (-> & Hsg & Hh & Hdh & Hm & Hdm).
    assert (((sign =? 43) || (sign =? 45))%N = true) as ->.
    { by destruct Hsg as [-> | ->]. }
    rewrite split_join by by apply digits_no_colon.
    rewrite Hdh, Hdm, Hm. simpl.
    assert ((length h =? 1)%nat || (length h =? 2)%nat = true) as ->; [| done].
    destruct (length h) as [| [| [| ?]]]; simpl; lia.
Qed.

(** X10. The zone set at construction. An unset or empty
    [TIMEZONE_OFFSET] gives +2:00 and a shift of 120 minutes. A well
    formed one (a sign, one or two digits, a colon, two digits) is
    taken as it is, hours and minutes unchecked, so the shift lies
    within 6039 minutes either way. An ill-formed one is reported as
    +2:00, but no shift is set at all: every time is then formatted
    from an invalid date. *)
Theorem validateAndSetTimezone_cases env file :
  let m := construct env file in
  (absent env = true →
   timeZoneOffset m = Some (lit "+2:00")
   ∧ offsetMinutes (state m) = Some 120)
  ∧ (∀ sign h mi,
       env = Some (sign :: h ++ 58%N :: mi) →
       (sign = 43%N ∨ sign = 45%N) →
       (1 ≤ length h ≤ 2)%nat → forallb isDigit h = true →
       length mi = 2%nat → forallb isDigit mi = true →
       timeZoneOffset m = env
       ∧ offsetMinutes (state m)
         = Some ((parseDigits h * 60 + parseDigits mi)
                 * (if (sign =? 43)%N then 1 else -1))
       ∧ ∃ o, offsetMinutes (state m) = Some o ∧ -6039 ≤ o ≤ 6039)
  ∧ (∀ z, env = Some z → truthy z = true → matchTimezone z = None →
       timeZoneOffset m = Some (lit "+2:00")
       ∧ offsetMinutes (state m) = None
       ∧ ∀ t, formatDateIT (state m) t = localeTime None).
Proof.
  intros m. unfold m, construct, validateAndSetTimezone. split; [| split].
  - intros Habs.
    assert (match env with
            | Some z => if truthy z then z else lit "+2:00"
            | None => lit "+2:00"
            end = lit "+2:00") as ->; [| done].
    destruct env as [z |]; [| done]. simpl in Habs. by destruct (truthy z).
  - intros sign h mi -> Hsg Hh Hdh Hm Hdm.
    change (if truthy (sign :: h ++ 58%N :: mi)
            then sign :: h ++ 58%N :: mi else lit "+2:00")
      with (sign :: h ++ 58%N :: mi).
    pose proof (proj2 (matchTimezone_Some _ sign h mi)
                  (conj eq_refl (conj Hsg (conj Hh (conj Hdh (conj Hm Hdm))))))
      as Hmatch.
    rewrite Hmatch. simpl. split; [done |]. split; [done |].
    eexists. split; [done |].
    pose proof (parseDigits_two h Hdh) as H1.
    pose proof (parseDigits_two mi Hdm) as H2.
    destruct (sign =? 43)%N; lia.
  - intros z -> Hz Hno. rewrite Hz, Hno. simpl.
    split; [done |]. split; [done |]. intros t. unfold formatDateIT. done.
Qed.

End GuideManager.

Section GuideTasks.
Context {RT : JsRuntime} {NET : Network} {SQL : EPGManager.SqlEngine}.
Import EPGManager.

Lemma onState_run {A} (c : Eff.M State A) m :
  onState c m = ((c (state m)).1, with_state (c (state m)).2 m).
Proof. unfold onState. by destruct (c (state m)). Qed.

(** A refresh never throws. *)
Lemma startEPGUpdate_returns url s : (startEPGUpdate url s).1 = Ret tt.
Proof.
  destruct (isUpdating s) eqn:H.
  - by rewrite startEPGUpdate_guarded.
  - destruct (startEPGUpdate_finally url s H) as [s1 ->]. done.
Qed.




Lemma downloadAndProcessEPG_requests u :
  ∀ s, requests (downloadAndProcessEPG u s).2 = requests s ++ [trim u].
Proof.
  intros s. unfold downloadAndProcessEPG, Eff.tryCatch, Eff.bind.
  rewrite request_run.
  destruct (fetchGuide _ _) as [doc |]; simpl; [| done].
  destruct (tv doc) as [t |]; simpl; [| done].
  pose proof (processEPGInChunks_requests doc
                (with_requests (requests s ++ [trim u]) s)) as H.
  unfold unchanged in H.
  by destruct (processEPGInChunks doc _) as [[[] | e] s1]; simpl in *.
Qed.

Lemma downloads_requests l :
  ∀ s, requests (forEach downloadAndProcessEPG l s).2
       = requests s ++ map trim l.
Proof.
  induction l as [| u l IH]; intros s; simpl; [by rewrite app_nil_r |].
  unfold Eff.bind.
  pose proof (downloadAndProcessEPG_requests u s) as H1.
  pose proof (downloadAndProcessEPG_effect u s) as (_ & Hret & _).
  destruct (downloadAndProcessEPG u s) as [r s1]. simpl in *. subst r.
  by rewrite IH, H1, <- app_assoc.
Qed.

(** The request [readExternalFile] makes for the list itself. *)
Lemma readExternalFile_requests url s :
  requests (readExternalFile url s).2
  = requests s
    ++ match url with
       | UrlString u =>
           if includes u (lit ",") || endsWith u (lit ".gz") then []
           else [trim u]
       | _ => []
       end.
Proof.
  destruct url as [l | u |]; simpl; rewrite ?app_nil_r; try done.
  destruct (includes u (lit ",")); simpl; [by rewrite app_nil_r |].
  unfold Eff.tryCatch. destruct (endsWith u (lit ".gz")); simpl;
    [by rewrite app_nil_r |].
  unfold Eff.bind. rewrite request_run.
  destruct (httpGet _ _) as [[c |] |]; simpl; [| done | done].
  destruct (includes c (lit "<?xml") || includes c (lit "<tv")); [done |].
  by destruct (List.filter _ _).
Qed.

Lemma readExternalFile_nonempty u s l :
  (readExternalFile (UrlString u) s).1 = Ret l → l ≠ [].
Proof.
  simpl. destruct (includes u (lit ",")); simpl.
  { intros [= <-]. pose proof (splitOn_nonempty 44 u).
    by destruct (splitOn 44 u). }
  unfold Eff.tryCatch. destruct (endsWith u (lit ".gz")); simpl.
  { by intros [= <-]. }
  unfold Eff.bind. rewrite request_run.
  destruct (httpGet _ _) as [[c |] |]; simpl; try by intros [= <-].
  destruct (includes c (lit "<?xml") || includes c (lit "<tv"));
    [by intros [= <-] |].
  destruct (List.filter _ _) eqn:Hf; by intros [= <-].
Qed.

(** What it returns depends on the requests made so far only. *)
Lemma readExternalFile_result url s s' :
  requests s = requests s' →
  (readExternalFile url s).1 = (readExternalFile url s').1.
Proof.
  intros H. destruct url as [l | u |]; simpl; try done.
  destruct (includes u (lit ",")); [done |].
  unfold Eff.tryCatch. destruct (endsWith u (lit ".gz")); [done |].
  unfold Eff.bind. rewrite !request_run, H.
  destruct (httpGet _ _) as [[c |] |]; simpl; [| done | done].
  destruct (includes c (lit "<?xml") || includes c (lit "<tv")); [done |].
  by destruct (List.filter _ _).
Qed.

(** The requests of a refresh, from the list it read on. *)
Lemma refresh_requests url s :
  url ≠ UrlAbsent → isUpdating s = false → is_Some (db s) →
  ∃ l s1,
    readExternalFile url (with_isUpdating true (with_ticks (S (ticks s)) s))
    = (Ret l, s1)
    ∧ requests (startEPGUpdate url s).2 = requests s1 ++ map trim l.
Proof.
  intros Hurl Hflag [d Hdb].
  destruct (startEPGUpdate_steps url s d Hurl Hflag Hdb)
    as (l & s1 & s3 & d3 & Hread & Hloop & _ & ->). simpl.
  pose proof (downloads_requests l
                (with_db (Some {| programs := []; channel_icons := ∅ |}) s1))
    as H3.
  rewrite Hloop in H3. simpl in H3. by exists l, s1.
Qed.

(** X12. A refresh asks for each source once, in the order of the
    list, after at most one request for the list itself; a source that
    fails does not stop the requests for the ones after it. *)
Theorem startEPGUpdate_requests url s l :
  isUpdating s = false → is_Some (db s) →
  (readExternalFile url s).1 = Ret l →
  requests (startEPGUpdate url s).2
  = requests s
    ++ match url with
       | UrlString u =>
           if includes u (lit ",") || endsWith u (lit ".gz") then []
           else [trim u]
       | _ => []
       end
    ++ map trim l.
Proof.
  intros Hflag Hdb Hl.
  assert (url ≠ UrlAbsent) as Hurl by (by intros ->).
  destruct (refresh_requests url s Hurl Hflag Hdb) as (l' & s1 & Hread & ->).
  set (s0 := with_isUpdating true (with_ticks (S (ticks s)) s)) in Hread.
  pose proof (readExternalFile_requests url s0) as H1.
  pose proof (readExternalFile_result url s0 s eq_refl) as H0.
  rewrite Hread in H1, H0. simpl in H1, H0. rewrite Hl in H0.
  injection H0 as ->. by rewrite H1, <- app_assoc.
Qed.

(** X13. [initializeEPG(url)] records the URL, and asked again for the
    same URL it does nothing at all as long as the guide holds
    programmes and no refresh is running; asked for another URL it
    refreshes even then. *)
Theorem initializeEPG_again url m :
  let m1 := (initializeEPG url m).2 in
  lastEpgUrl m1 = Some url
  ∧ ((isEPGAvailable (state m1)).1 = Ret true →
     initializeEPG url m1 = (Ret tt, m1)
     ∧ ∀ other, other ≠ url →
         lastEpgUrl (initializeEPG other m1).2 = Some other
         ∧ (length (requests (state m1))
            < length (requests (state (initializeEPG other m1).2)))%nat).
Proof.
  intros m1.
  assert (∀ u m, lastEpgUrl (initializeEPG u m).2 = Some u) as Hlast.
  { clear. intros u m. unfold initializeEPG, Eff.bind, Eff.get.
    destruct (bool_decide (lastEpgUrl m = Some u)) eqn:Hsame.
    - apply bool_decide_eq_true in Hsame. rewrite onState_run. simpl.
      destruct (isEPGAvailable (state m)) as [[[] | e] s1]; simpl; try done.
      unfold Eff.modify. simpl. rewrite onState_run. simpl.
      pose proof (startEPGUpdate_returns (UrlString u) s1) as Hret.
      destruct (startEPGUpdate _ _) as [r s2]. simpl in Hret. subst r. simpl.
      by destruct (cronJob m).
    - simpl. unfold Eff.modify. simpl. rewrite onState_run. simpl.
      pose proof (startEPGUpdate_returns (UrlString u) (state m)) as Hret.
      destruct (startEPGUpdate _ _) as [r s2]. simpl in Hret. subst r. simpl.
      by destruct (cronJob m). }
  split; [apply Hlast |]. intros Hav.
  pose proof (Hlast url m) as Hurl. fold m1 in Hurl. clearbody m1.
  assert (∃ d, db (state m1) = Some d ∧ isUpdating (state m1) = false
               ∧ isEPGAvailable (state m1) = (Ret true, state m1))
    as (d & Hd & Hflag & Hrun).
  { unfold isEPGAvailable, Eff.bind, Eff.get in *.
    destruct (db (state m1)) as [d |]; [| done].
    destruct (isUpdating (state m1)); [done |]. simpl in *.
    exists d. repeat split. by injection Hav as ->. }
  split.
  - unfold initializeEPG, Eff.bind, Eff.get.
    rewrite bool_decide_eq_true_2 by done.
    rewrite onState_run, Hrun. simpl. by destruct m1.
  - intros other Hother. split; [apply Hlast |].
    unfold initializeEPG, Eff.bind, Eff.get.
    rewrite bool_decide_eq_false_2 by congruence. simpl.
    unfold Eff.modify. simpl. rewrite onState_run. simpl.
    destruct (readExternalFile_db (UrlString other) (state m1)) as [_ Hr].
    destruct Hr as [l Hl]; [done |].
    clear l Hl.
    destruct (refresh_requests (UrlString other) (state m1)) as
      (l & s1 & Hread & Hreq); [done | done | by eexists |].
    assert (l ≠ []) as Hne.
    { eapply readExternalFile_nonempty. by rewrite Hread. }
    pose proof (readExternalFile_requests (UrlString other)
                  (with_isUpdating true
                     (with_ticks (S (ticks (state m1))) (state m1)))) as H1.
    rewrite Hread in H1. simpl in H1.
    pose proof (startEPGUpdate_returns (UrlString other) (state m1)) as Hret.
    destruct (startEPGUpdate _ _) as [r s2]. simpl in Hret, Hreq. subst r.
    simpl.
    assert (length (requests (state m1)) < length (requests s2))%nat as Hlt.
    { rewrite Hreq, H1, !length_app, length_map. destruct l; [done |].
      simpl. lia. }
    by destruct (cronJob m1).
Qed.

End GuideTasks.

Section GuideUnopened.
Context {RT : JsRuntime} {NET : Network}.
Import EPGManager.

(** X14. A refresh that runs before the database has opened fetches no
    source: past the request for the list it fails at the first DELETE,
    the failure is swallowed, nothing is stored or written, and the
    time of the refresh is recorded all the same. *)
Theorem startEPGUpdate_before_open url s :
  isUpdating s = false → db s = None →
  let s' := (startEPGUpdate url s).2 in
  (startEPGUpdate url s).1 = Ret tt
  ∧ db s' = None ∧ disk s' = disk s
  ∧ requests s'
    = requests s
      ++ match url with
         | UrlString u =>
             if includes u (lit ",") || endsWith u (lit ".gz") then []
             else [trim u]
         | _ => []
         end
  ∧ isUpdating s' = false
  ∧ lastUpdate s' = Some (clock (S (ticks s))).
Proof.
  intros Hflag Hdb s'. unfold s'. clear s'.
  destruct (startEPGUpdate url s) as [res s'] eqn:Hrun. simpl.
  unfold startEPGUpdate in Hrun.
  unfold Eff.bind at 1, Eff.get at 1 in Hrun. rewrite Hflag in Hrun.
  unfold Eff.bind at 1, Date_now at 1 in Hrun.
  unfold Eff.tryFinally, Eff.tryCatch in Hrun.
  unfold Eff.bind at 1, Eff.modify at 1 in Hrun.
  unfold Eff.bind at 1 in Hrun.
  set (s0 := with_isUpdating true (with_ticks (S (ticks s)) s)) in Hrun.
  destruct (readExternalFile_db url s0) as [Hd _].
  pose proof (readExternalFile_ticks url s0) as Ht.
  pose proof (readExternalFile_requests url s0) as Hq.
  assert (disk (readExternalFile url s0).2 = disk s) as Hk.
  { destruct url as [l | u |]; simpl; try done.
    destruct (includes u (lit ",")); [done |].
    unfold Eff.tryCatch. destruct (endsWith u (lit ".gz")); [done |].
    unfold Eff.bind. rewrite request_run.
    destruct (httpGet _ _) as [[c |] |]; simpl; [| done | done].
    destruct (includes c (lit "<?xml") || includes c (lit "<tv")); [done |].
    by destruct (List.filter _ _). }
  destruct (readExternalFile url s0) as [[l | e] s1]; simpl in Hd, Ht, Hq, Hk.
  - unfold Eff.bind at 1 in Hrun. rewrite db_run_run, Hd, Hdb in Hrun.
    unfold Eff.bind, Eff.modify, Date_now in Hrun. simpl in Hrun.
    injection Hrun as <- <-. simpl. rewrite Hd, Hdb, Ht. by repeat split.
  - unfold Eff.bind, Eff.modify, Date_now in Hrun. simpl in Hrun.
    injection Hrun as <- <-. simpl. rewrite Hd, Hdb, Ht. by repeat split.
Qed.

End GuideUnopened.

(** ** The catalogue store: suffixes and staleness *)

Section CatalogueSuffix.
Context {RT : JsRuntime} {NET : Network}.
Import CacheManager.

Lemma startsWith_app p s : startsWith (p ++ s) p = true.
Proof.
  induction p as [| a p IH]; [by destruct s |].
  simpl. by rewrite N.eqb_refl, IH.
Qed.

Lemma endsWith_app s p : endsWith (s ++ p) p = true.
Proof. unfold endsWith. rewrite rev_app_distr. apply startsWith_app. Qed.

Lemma canonical_app a b :
  Forall (λ c, canonical c = true) a → Forall (λ c, canonical c = true) b →
  Forall (λ c, canonical c = true) (a ++ b).
Proof. intros. by apply Forall_app. Qed.

(** X15. [addSuffix] is idempotent, and on identifiers already in
    normal form it is undone by [normalizeId(id, true)]: an identifier
    that does not end with the configured suffix comes back as it was,
    and in any case adding the suffix first makes no difference to
    what [normalizeId(id, true)] returns. *)
Theorem addSuffix_normalizeId s id :
  addSuffix s (addSuffix s id) = addSuffix s id
  ∧ ∀ i x,
      id = Some i → id_suffix (config s) = Some x →
      Forall (λ c, canonical c = true) i →
      Forall (λ c, canonical c = true) x →
      normalizeId s (addSuffix s id) true = normalizeId s id true
      ∧ (endsWith i (lit "." ++ x) = false →
         normalizeId s (addSuffix s id) true = i).
Proof.
  split.
  - unfold addSuffix. destruct id as [i |]; [| done].
    destruct (truthy i) eqn:Hi; [| by rewrite Hi].
    destruct (id_suffix (config s)) as [x |]; [| by rewrite Hi].
    destruct (endsWith i (lit "." ++ x)) eqn:He.
    + by rewrite Hi, He.
    + rewrite endsWith_app.
      assert (truthy (i ++ lit "." ++ x) = true) as ->; [| done].
      by destruct i.
  - intros i x -> Hx Hi Hcx.
    assert (Forall (λ c, canonical c = true) (lit "." ++ x)) as Hsuf.
    { apply Forall_cons. split; [done | exact Hcx]. }
    unfold addSuffix, normalizeId. rewrite Hx.
    destruct (truthy i) eqn:Ht.
    2: { destruct i; [| done]. split; [done |]. intros He.
         rewrite canonical_fixed by done. by rewrite He. }
    destruct (endsWith i (lit "." ++ x)) eqn:He; [done |].
    rewrite !canonical_fixed by (by try apply canonical_app).
    rewrite endsWith_app, He.
    assert (take (length (i ++ lit "." ++ x) - length (lit "." ++ x))
              (i ++ lit "." ++ x) = i) as ->; [| done].
    rewrite length_app, Nat.add_sub. by rewrite take_app_length.
Qed.

End CatalogueSuffix.

Section CatalogueStale.
Context {RT : JsRuntime} {NET : Network}.
Import CacheManager.

Lemma updateIntervalMs_range cfg :
  0 ≤ updateIntervalMs cfg < 24 * 60 * 60 * 1000.
Proof.
  unfold updateIntervalMs, TWELVE_HOURS.
  destruct (cfg !! "update_interval"%string) as [v |]; [| lia].
  destruct (truthy v); [| lia].
  destruct (matchHHMM v) as [[h m] |]; [| lia].
  destruct (_ && _) eqn:Hc; [| lia].
  repeat (apply andb_prop in Hc as [Hc ?]). lia.
Qed.

(** X16. The refresh interval read off [update_interval] is never
    negative and always shorter than a day, twelve hours standing in
    for a missing, empty, ill-formed or out-of-range value; so a
    catalogue that holds data is stale, under every configuration, once
    24 hours have passed since its update, and with the interval
    "0:00" it is stale at every check. *)
Theorem isStale_interval s c t data cfg :
  cache s = Some c → lastUpdated c = Some t → t ≠ 0 →
  stremioData c = Some data →
  (isStale (Some cfg) s).1
  = Ret (updateIntervalMs cfg <=? clock (ticks s) - t)
  ∧ 0 ≤ updateIntervalMs cfg < 24 * 60 * 60 * 1000
  ∧ (24 * 60 * 60 * 1000 ≤ clock (ticks s) - t →
     (isStale (Some cfg) s).1 = Ret true)
  ∧ ((∀ v h m, cfg !! "update_interval"%string = Some v →
               matchHHMM v = Some (h, m) →
               ¬ (parseDigits h < 24 ∧ parseDigits m < 60)) →
     updateIntervalMs cfg = TWELVE_HOURS)
  ∧ (cfg !! "update_interval"%string = Some (lit "0:00") →
     t ≤ clock (ticks s) → (isStale (Some cfg) s).1 = Ret true).
Proof.
  intros Hc Ht Hnz Hdata.
  assert ((isStale (Some cfg) s).1
          = Ret (updateIntervalMs cfg <=? clock (ticks s) - t)) as Hrun.
  { unfold isStale, Eff.bind, Eff.get. simpl. rewrite Hc, Ht, Hdata.
    by destruct (Z.eqb_spec t 0). }
  pose proof (updateIntervalMs_range cfg) as Hrange.
  split; [done |]. split; [done |]. split; [| split].
  - intros Hday. rewrite Hrun. f_equal. apply Z.leb_le. lia.
  - intros Hbad. unfold updateIntervalMs.
    destruct (cfg !! "update_interval"%string) as [v |]; [| done].
    destruct (truthy v); [| done].
    destruct (matchHHMM v) as [[h m] |] eqn:Hm; [| done].
    destruct (_ && _) eqn:Hcond; [| done]. exfalso.
    apply (Hbad v h m eq_refl Hm).
    repeat (apply andb_prop in Hcond as [Hcond ?]). lia.
  - intros Hzero Hle. rewrite Hrun.
    assert (updateIntervalMs cfg = 0) as ->.
    { unfold updateIntervalMs. rewrite Hzero. by vm_compute. }
    f_equal. apply Z.leb_le. lia.
Qed.

End CatalogueStale.

(** ** The catalogue store: a rebuild that succeeds, and its file *)

Section CatalogueSave.
Context {RT : JsRuntime} {NET : Network}.
Import CacheManager.

Lemma db_run_cache f s :
  db_run f s
  = match db s with
    | Some d => (Ret tt, with_db (Some (f d)) s)
    | None => (Throw (TypeError "Cannot read properties of null"), s)
    end.
Proof.
  unfold db_run, Eff.bind. rewrite theDb_run_cache. by destruct (db s).
Qed.

Ltac open_save := unfold saveCacheToDB, insertGenre.

Lemma saveCacheToDB_cache : ∀ s, unchanged cache s (saveCacheToDB s).2.
Proof. open_save. frame; done. Qed.

Lemma saveCacheToDB_emitted : ∀ s, unchanged emitted s (saveCacheToDB s).2.
Proof. open_save. frame; done. Qed.

Lemma saveCacheToDB_config : ∀ s, unchanged config s (saveCacheToDB s).2.
Proof. open_save. frame; done. Qed.

Lemma saveCacheToDB_ticks : ∀ s, unchanged ticks s (saveCacheToDB s).2.
Proof. open_save. frame; done. Qed.

Lemma saveCacheToDB_returns s : (saveCacheToDB s).1 = Ret tt.
Proof.
  unfold saveCacheToDB, Eff.tryCatch.
  by match goal with |- context [let (_, _) := ?x in _] =>
       destruct x as [[[] | e] s1] end.
Qed.

(** The rows the channel loop leaves: the first channel of each
    identifier. *)
Lemma channels_saved l :
  ∀ s d, db s = Some d →
  forEach (λ ch, db_run (insertChannel ch)) l s
  = (Ret tt, with_db (Some (fold_left (λ d ch, insertChannel ch d) l d)) s).
Proof.
  induction l as [| ch l IH]; intros s d Hd; simpl.
  { unfold Eff.ret. f_equal. destruct s. simpl in *. by rewrite Hd. }
  unfold Eff.bind. rewrite db_run_cache, Hd.
  by rewrite (IH _ (insertChannel ch d)).
Qed.




Lemma genres_refused l :
  ∀ s d, db s = Some d → NoDup (genres_table d) →
  ¬ NoDup (genres_table d ++ l) →
  ∃ e, (forEach insertGenre l s).1 = Throw e.
Proof.
  induction l as [| g l IH]; intros s d Hd Hnd Hdup; simpl.
  { by rewrite app_nil_r in Hdup. }
  unfold Eff.bind, insertGenre at 1. unfold Eff.bind.
  rewrite theDb_run_cache, Hd.
  destruct (decide (g ∈ genres_table d)) as [Hin | Hnew].
  { rewrite bool_decide_eq_true_2 by done. by eexists. }
  rewrite bool_decide_eq_false_2 by done. rewrite db_run_cache, Hd.
  eapply IH; [reflexivity | |]; simpl.
  - apply NoDup_app. split; [done |]. split; [| apply NoDup_singleton].
    intros x Hx Hx'. apply list_elem_of_singleton in Hx' as ->. done.
  - by rewrite <- app_assoc.
Qed.


Lemma forEach_insertGenre_disk l :
  ∀ s, unchanged disk s (forEach insertGenre l s).2.
Proof. unfold insertGenre. frame; done. Qed.

(** The continuation of a rebuild whose transformer answered. *)
Lemma rebuildCache_resume_done url data s :
  let new := {| stremioData := Some data;
                lastUpdated := Some (clock (ticks s));
                updateInProgress := false; m3uUrl := url;
                epgUrls := data_epgUrls data |} in
  let s1 := with_cache (Some new) (with_ticks (S (ticks s)) s) in
  rebuildCache_resume url (inr data) s
  = (Ret tt,
     with_emitted (emitted (saveCacheToDB s1).2 ++ [cacheUpdated new])
       (saveCacheToDB s1).2).
Proof.
  intros new s1. unfold rebuildCache_resume, Eff.tryCatch.
  unfold Eff.bind at 1, Date_now at 1. unfold Eff.bind at 1, Eff.modify at 1.
  fold new. fold s1. unfold Eff.bind at 1.
  pose proof (saveCacheToDB_returns s1) as Hret.
  pose proof (saveCacheToDB_cache s1) as Hcache. unfold unchanged in Hcache.
  destruct (saveCacheToDB s1) as [r s2]. simpl in *. subst r.
  unfold Eff.bind. rewrite theCache_run, Hcache. done.
Qed.

(** X17. A rebuild that passes the guard and whose transformer answers
    returns with the new snapshot in place: the data, the time of the
    clock reading, the URL, the flag down. It emits one [cacheUpdated]
    carrying that snapshot and has called the transformer once with
    the merged configuration; whether the save to the database worked
    makes no difference to any of this. *)
Theorem rebuildCache_success s c data url cfg :
  cache s = Some c → updateInProgress c = false →
  let new := {| stremioData := Some data;
                lastUpdated := Some (clock (ticks s));
                updateInProgress := false; m3uUrl := url;
                epgUrls := data_epgUrls data |} in
  let s' := (rebuildCache (inr data) url cfg s).2 in
  (rebuildCache (inr data) url cfg s).1 = Ret tt
  ∧ cache s' = Some new
  ∧ emitted s' = emitted s ++ [cacheUpdated new]
  ∧ config s' = match cfg with
                | Some n => Some (n ∪ default ∅ (config s))
                | None => config s
                end
  ∧ transformCalls s' = transformCalls s ++ [(url, config s')]
  ∧ getCachedData s' = (channels data, genres data).
Proof.
  intros Hc Hf new s'. unfold s'. clear s'.
  destruct (rebuildCache (inr data) url cfg s) as [res s'] eqn:Hrun. simpl.
  unfold rebuildCache, Eff.bind in Hrun.
  destruct (rebuildCache_enter_free url cfg s c Hc Hf)
    as (s1 & Henter & Hc1 & Ht1 & He1 & Hd1 & Hk1 & Hn1).
  assert (config s1 = match cfg with
                      | Some n => Some (n ∪ default ∅ (config s))
                      | None => config s
                      end) as Hcfg.
  { unfold rebuildCache_enter, Eff.bind in Henter.
    rewrite theCache_run, Hc, Hf in Henter.
    unfold Eff.modify, Eff.ret in Henter.
    destruct cfg as [n |]; by injection Henter as <-. }
  rewrite Henter, rebuildCache_resume_done in Hrun. rewrite Hn1 in Hrun.
  fold new in Hrun.
  set (s2 := with_cache (Some new) (with_ticks (S (ticks s)) s1)) in Hrun.
  pose proof (saveCacheToDB_cache s2) as H1.
  pose proof (saveCacheToDB_emitted s2) as H2.
  pose proof (saveCacheToDB_config s2) as H3.
  pose proof (saveCacheToDB_quiet s2) as H4.
  unfold unchanged, quiet in *.
  injection Hrun as <- <-. simpl. rewrite H1, H2, H3, H4. simpl.
  rewrite He1, Ht1, Hcfg. unfold getCachedData. simpl. by rewrite H1.
Qed.

(** X18. The save is all or nothing towards the file: with no open
    database, or when the transformer lists one genre twice, the
    second insert of the genre fails, [saveCacheToDB] swallows the
    failure and the file keeps what it held; the call returns all the
    same and the snapshot in memory is untouched. *)
Theorem saveCacheToDB_refused s c data :
  cache s = Some c → stremioData c = Some data →
  db s = None ∨ ¬ NoDup (genres data) →
  (saveCacheToDB s).1 = Ret tt
  ∧ disk (saveCacheToDB s).2 = disk s
  ∧ cache (saveCacheToDB s).2 = cache s.
Proof.
  intros Hc Hdata Hbad.
  split; [apply saveCacheToDB_returns |].
  split; [| apply saveCacheToDB_cache].
  destruct (saveCacheToDB s) as [res s'] eqn:Hrun. simpl.
  unfold saveCacheToDB, Eff.tryCatch in Hrun.
  unfold Eff.bind at 1 in Hrun. rewrite theCache_run, Hc, Hdata in Hrun.
  destruct (db s) as [d |] eqn:Hd.
  - destruct Hbad as [| Hdup]; [done |].
    destruct (lastUpdated c) as [t |]; [destruct (t =? 0) |];
      (destruct (m3uUrl c) as [u |]; [destruct (truthy u) |]);
      destruct (epgUrls c) as [l |];
      unfold Eff.bind, Eff.ret in Hrun;
      repeat (rewrite db_run_cache in Hrun; simpl in Hrun;
              rewrite ?Hd in Hrun);
      (erewrite channels_saved in Hrun by reflexivity);
      rewrite db_run_cache in Hrun; simpl in Hrun;
      match type of Hrun with
      | context [forEach insertGenre (genres data) ?s3] =>
          edestruct (genres_refused (genres data) s3) as [e He];
            [reflexivity | simpl; apply NoDup_nil_2 | simpl; exact Hdup |];
          pose proof (forEach_insertGenre_disk (genres data) s3) as Hk;
          destruct (forEach insertGenre (genres data) s3) as [r s4]
      end;
      simpl in He, Hk; subst r; by injection Hrun as <- <-.
  - destruct (lastUpdated c) as [t |]; [destruct (t =? 0) |];
      (destruct (m3uUrl c) as [u |]; [destruct (truthy u) |]);
      destruct (epgUrls c) as [l |];
      unfold Eff.bind, Eff.ret in Hrun;
      repeat (rewrite db_run_cache in Hrun; simpl in Hrun;
              rewrite ?Hd in Hrun);
      by injection Hrun as <- <-.
Qed.

End CatalogueSave.

Section CatalogueRestart.
Context {RT : JsRuntime} {NET : Network} {ORD : CacheManager.TableOrder}.
Import CacheManager.

(** A new manager over an existing file. *)
Lemma create_loaded d cfg :
  state (create true (Some d) cfg)
  = {| config := cfg;
       cache := Some
         {| stremioData :=
              match (channelOrder (channels_table d)).*2 with
              | _ :: _ =>
                  Some {| channels := (channelOrder (channels_table d)).*2;
                          genres := genreOrder (genres_table d);
                          data_epgUrls := None |}
              | [] => None
              end;
            lastUpdated := meta_lastUpdated d;
            updateInProgress := false;
            m3uUrl := match meta_m3uUrl d with
                      | Some u => if truthy u then Some u else None
                      | None => None
                      end;
            epgUrls := match meta_epgUrls d with
                       | Some l => Some l
                       | None => Some []
                       end |};
       db := Some d; emitted := []; transformCalls := []; ticks := 0;
       disk := Some d |}.
Proof. reflexivity. Qed.



End CatalogueRestart.

(** ** The catalogue store: what the queries answer *)

Section CatalogueQueries.
Context {RT : JsRuntime} {NET : Network}.
Import CacheManager.

Lemma includes_nil s : includes s [] = true.
Proof. by destruct s. Qed.

Lemma truthy_absent (n : str) : n ≠ [] → absent (Some n) = false.
Proof. by destruct n. Qed.

(** X20. The two searches answer with channels of the snapshot in
    their order there, and read the query through the normaliser: a
    query is looked for as its normal form is, and one that is not
    empty but normalises to nothing (punctuation only, say) selects
    every channel. *)
Theorem searchChannels_normalised (HL : LowerCaseSound) s q chans :
  cachedChannels s = Some chans →
  searchChannels s q `sublist_of` chans
  ∧ (absent q = true → searchChannels s q = chans)
  ∧ (normalizeExpr q = [] → searchChannels s q = chans)
  ∧ (normalizeExpr q ≠ [] →
     searchChannels s (Some (normalizeExpr q)) = searchChannels s q)
  ∧ (∀ g, getChannelsByGenre s g `sublist_of` chans).
Proof.
  intros Hch. unfold searchChannels, getChannelsByGenre. rewrite Hch.
  split; [| split; [| split; [| split]]].
  - destruct (absent q); [done | apply bool_filter_sublist].
  - by intros ->.
  - intros Hn. destruct (absent q); [done |]. unfold normalizeId.
    rewrite Hn. clear Hch. induction chans as [| ch l IH]; [done |]. simpl.
    by rewrite includes_nil, IH.
  - intros Hn. rewrite truthy_absent by done.
    assert (absent q = false) as ->.
    { destruct q as [[| x q] |]; try done. }
    unfold normalizeId. by rewrite normalizeExpr_idempotent.
  - intros [g |]; [| apply sublist_nil_l].
    destruct (truthy g); [apply bool_filter_sublist | apply sublist_nil_l].
Qed.

(** X21. [getChannel] reads the identifier through the normaliser: any
    spelling with the same normal form finds the same channel. An
    identifier that is not empty but normalises to nothing is not
    turned away: it finds the first channel whose own identifier or
    guide identifier normalises to nothing too, for one the first
    channel without a guide identifier. What is found is a channel of
    the snapshot. *)
Theorem getChannel_normalised (HL : LowerCaseSound) s id :
  (normalizeExpr id ≠ [] →
   getChannel s (Some (normalizeExpr id)) = getChannel s id)
  ∧ (∀ chans l1 ch l2,
       absent id = false → normalizeExpr id = [] →
       cachedChannels s = Some chans → chans = l1 ++ ch :: l2 →
       ch_tvg_id ch = None →
       Forall (λ x, normalizeExpr (Some (removeFirst (ch_id x) (lit "tv|")))
                    ≠ []
                    ∧ normalizeExpr (ch_tvg_id x) ≠ []) l1 →
       getChannel s id = Found ch)
  ∧ (∀ ch chans, getChannel s id = Found ch →
                 cachedChannels s = Some chans → ch ∈ chans).
Proof.
  split; [| split].
  - intros Hn. unfold getChannel. rewrite truthy_absent by done.
    assert (absent id = false) as ->.
    { destruct id as [[| x q] |]; try done. }
    unfold normalizeId. by rewrite normalizeExpr_idempotent.
  - intros chans l1 ch l2 Hid Hn Hch -> Htvg Hl1.
    unfold getChannel. rewrite Hid, Hch. unfold normalizeId. rewrite Hn.
    rewrite (find_first _ l1 ch l2); [done | |].
    + rewrite Htvg. simpl. apply orb_true_r.
    + eapply Forall_impl; [exact Hl1 |]. simpl. intros x [H1 H2].
      apply orb_false_iff. split; by apply bool_decide_eq_false.
  - intros ch chans. unfold getChannel. destruct (absent id); [done |].
    destruct (cachedChannels s) as [l |]; [| done].
    intros H [= <-].
    destruct (List.find _ l) as [x |] eqn:H1.
    { injection H as <-. apply find_some in H1 as [H1 _].
      by apply list_elem_of_In. }
    clear H1.
    destruct (List.find _ l) as [x |] eqn:H2; [| done].
    injection H as <-. apply find_some in H2 as [H2 _].
    by apply list_elem_of_In.
Qed.

End CatalogueQueries.

(** ** The catalogue manager: timers and configuration *)

Section CatalogueManager.
Context {RT : JsRuntime} {NET : Network} {ORD : CacheManager.TableOrder}.
Import CacheManager.

#[local] Instance keepsCache_refl : Reflexive keepsCache.
Proof. intros s. unfold keepsCache. tauto. Qed.

#[local] Instance keepsCache_trans : Transitive keepsCache.
Proof. unfold keepsCache. intros s1 s2 s3. tauto. Qed.

Lemma rebuildCache_keepsCache answer url cfg :
  ∀ s, keepsCache s (rebuildCache answer url cfg s).2.
Proof.
  unfold rebuildCache, rebuildCache_enter, rebuildCache_resume, emit,
    saveCacheToDB, insertGenre.
  frame; try done; unfold keepsCache; simpl; eauto.
Qed.

Lemma isStale_cache cfg : ∀ s, unchanged cache s (isStale cfg s).2.
Proof. unfold isStale. frame; done. Qed.

Lemma pollTick_keepsCache answer : ∀ s, keepsCache s (pollTick answer s).2.
Proof.
  unfold pollTick. frame; try done; try apply rebuildCache_keepsCache.
  intros s0. pose proof (isStale_cache (config a) s0) as H.
  unfold keepsCache, unchanged in *. by rewrite H.
Qed.

Lemma onState_cache {A} (c : Eff.M State A) m :
  onState c m = ((c (state m)).1, with_state (c (state m)).2 m).
Proof. unfold onState. by destruct (c (state m)). Qed.

Lemma reloadPlaylist_keepsCache answer :
  ∀ s, keepsCache s (reloadPlaylist answer s).2.
Proof.
  unfold reloadPlaylist. frame; try done;
    try apply rebuildCache_keepsCache.
  unfold keepsCache. simpl. by eauto.
Qed.

(** The steps of [updateConfig]: the merge, the playlist, the timer. *)
Lemma updateConfig_run answer new m :
  let s1 := with_config (Some (new ∪ default ∅ (config (state m))))
              (state m) in
  let step := if changed (state m) new "m3u" then reloadPlaylist answer s1
              else (Ret tt, s1) in
  updateConfig answer new m
  = match step.1 with
    | Ret _ =>
        (if changed (state m) new "update_interval"
            || changed (state m) new "id_suffix"
            || changed (state m) new "remapper_path"
         then startPolling else ret tt) (with_state step.2 m)
    | Throw e => (Throw e, with_state step.2 m)
    end.
Proof.
  intros s1 step. unfold updateConfig, Eff.bind, Eff.get.
  rewrite onState_cache. simpl. fold s1. unfold step.
  destruct (changed (state m) new "m3u"); [| done].
  rewrite onState_cache. simpl.
  by destruct (reloadPlaylist answer s1) as [[[] | e] s2].
Qed.

Lemma startPolling_oneTimer m :
  oneTimer m →
  oneTimer (startPolling m).2 ∧ state (startPolling m).2 = state m
  ∧ is_Some (pollingInterval (startPolling m).2).
Proof.
  unfold oneTimer, startPolling, Eff.bind, Eff.get. simpl. intros H.
  destruct (pollingInterval m) as [h |]; simpl; rewrite H; simpl.
  - rewrite Nat.eqb_refl. simpl. by eauto.
  - by eauto.
Qed.

Lemma call_oneTimer c m :
  oneTimer m ∧ is_Some (cache (state m)) →
  oneTimer (call c m).2 ∧ is_Some (cache (state (call c m).2)).
Proof.
  intros [Ht Hc]. destruct c as [answer url cfg | answer new | | | answer | |];
    simpl.
  - rewrite onState_cache. simpl. split; [done |].
    by apply rebuildCache_keepsCache.
  - rewrite updateConfig_run.
    set (s1 := with_config _ (state m)).
    assert (keepsCache (state m)
              (if changed (state m) new "m3u" then reloadPlaylist answer s1
               else (Ret tt, s1)).2) as Hkeep.
    { assert (keepsCache (state m) s1) as H0 by (unfold keepsCache; done).
      destruct (changed (state m) new "m3u"); [| exact H0].
      transitivity s1; [exact H0 | apply reloadPlaylist_keepsCache]. }
    destruct (if changed (state m) new "m3u" then reloadPlaylist answer s1
              else (Ret tt, s1)) as [[[] | e] s2]; simpl in *.
    + destruct (_ || _); simpl; [| by auto].
      destruct (startPolling_oneTimer (with_state s2 m) Ht) as (? & -> & _).
      by auto.
    + by auto.
  - destruct (startPolling_oneTimer m Ht) as (? & -> & _). done.
  - unfold cleanup, Eff.bind, Eff.get. unfold oneTimer in *.
    destruct (pollingInterval m) as [h |] eqn:Hp; simpl;
      rewrite ?Hp, Ht; simpl; by rewrite ?Nat.eqb_refl.
  - rewrite onState_cache. simpl. split; [done |].
    by apply pollTick_keepsCache.
  - done.
  - done.
Qed.

Lemma create_oneTimer sqlReady file cfg :
  oneTimer (create sqlReady file cfg)
  ∧ is_Some (cache (state (create sqlReady file cfg))).
Proof.
  unfold create, oneTimer. destruct sqlReady; simpl; by eauto.
Qed.

(** X22. A manager obtained from the module always has a snapshot
    object, so its methods never trip over a null cache, and never
    more than one interval timer alive: restarting the polling clears
    the timer it replaces, and after [cleanup] none is left. This
    holds after any run of rebuilds, configuration updates, polling
    restarts, ticks of the timer and filter changes. *)
Theorem one_polling_timer sqlReady file cfg l :
  let m := calls l (create sqlReady file cfg) in
  is_Some (cache (state m))
  ∧ timers m = match pollingInterval m with
               | Some h => [h]
               | None => []
               end
  ∧ timers (cleanup m).2 = []
  ∧ length (timers (startPolling m).2) = 1%nat.
Proof.
  pose proof (create_oneTimer sqlReady file cfg) as H. unfold calls.
  revert H. generalize (create sqlReady file cfg).
  induction l as [| c l IH]; intros m Hm; simpl.
  - destruct Hm as [Ht Hc]. split; [done |]. split; [done |].
    destruct (call_oneTimer Cleanup m (conj Ht Hc)) as [H1 _].
    destruct (startPolling_oneTimer m Ht) as (H2 & _ & [h Hh]).
    unfold oneTimer in *. simpl in H1. rewrite H2, Hh. split; [| done].
    rewrite H1. unfold cleanup, Eff.bind, Eff.get. simpl.
    by destruct (pollingInterval m) eqn:Hp; simpl; rewrite ?Hp.
  - apply IH. by apply call_oneTimer.
Qed.

(** A rebuild called with the configuration in force leaves it in
    force. *)
Lemma rebuildCache_config answer url cfg0 s c :
  cache s = Some c → config s = Some cfg0 →
  config (rebuildCache answer url (Some cfg0) s).2 = Some cfg0.
Proof.
  intros Hc Hcfg. destruct (updateInProgress c) eqn:Hf.
  { by rewrite (rebuildCache_guarded answer url (Some cfg0) s c). }
  unfold rebuildCache, Eff.bind, rebuildCache_enter, Eff.bind.
  rewrite theCache_run, Hc. simpl. rewrite Hf. simpl.
  rewrite Hcfg. simpl. rewrite map_union_idemp.
  set (s1 := with_transformCalls _ _).
  destruct answer as [e | data].
  - by rewrite rebuildCache_resume_failed
      with (c := with_updateInProgress true c).
  - rewrite rebuildCache_resume_done. simpl.
    by rewrite saveCacheToDB_config.
Qed.

Lemma startPolling_state m :
  (startPolling m).1 = Ret tt ∧ state (startPolling m).2 = state m.
Proof.
  unfold startPolling, Eff.bind, Eff.get. simpl.
  by destruct (pollingInterval m).
Qed.

(** X23. [updateConfig] and the playlist. While the playlist URL is
    the same the snapshot is not touched and the transformer not
    called. When it differs the data and the URL of the snapshot are
    dropped first; if a rebuild is running, the new one is skipped and
    the call returns with the catalogue empty; if the transformer
    fails, the failure is rethrown, the catalogue stays empty, and the
    polling is not restarted whatever else changed. *)
Theorem updateConfig_playlist answer new m c :
  cache (state m) = Some c →
  let merged := new ∪ default ∅ (config (state m)) in
  let dropped := {| stremioData := None; lastUpdated := lastUpdated c;
                    updateInProgress := updateInProgress c;
                    m3uUrl := None; epgUrls := epgUrls c |} in
  let r := updateConfig answer new m in
  config (state r.2) = Some merged
  ∧ (changed (state m) new "m3u" = false →
     r.1 = Ret tt ∧ cache (state r.2) = Some c
     ∧ transformCalls (state r.2) = transformCalls (state m))
  ∧ (changed (state m) new "m3u" = true →
     ∀ u, merged !! "m3u"%string = Some u → truthy u = true →
       (updateInProgress c = true →
        r.1 = Ret tt ∧ cache (state r.2) = Some dropped
        ∧ transformCalls (state r.2) = transformCalls (state m))
       ∧ (∀ e, updateInProgress c = false → answer = inl e →
            r.1 = Throw e ∧ cache (state r.2) = Some dropped
            ∧ pollingInterval r.2 = pollingInterval m
            ∧ timers r.2 = timers m
            ∧ transformCalls (state r.2)
              = transformCalls (state m) ++ [(Some u, Some merged)])).
Proof.
  intros Hc merged dropped r. unfold r. clear r.
  rewrite updateConfig_run. fold merged.
  set (s1 := with_config (Some merged) (state m)).
  set (other := changed (state m) new "update_interval" || _ || _).
  assert (∀ s2, config (state ((if other then startPolling else ret tt)
                                 (with_state s2 m)).2) = config s2
                ∧ cache (state ((if other then startPolling else ret tt)
                                  (with_state s2 m)).2) = cache s2
                ∧ transformCalls (state ((if other then startPolling
                                          else ret tt)
                                           (with_state s2 m)).2)
                  = transformCalls s2
                ∧ ((if other then startPolling else ret tt)
                     (with_state s2 m)).1 = Ret tt) as Hpoll.
  { intros s2. destruct other; [| done].
    destruct (startPolling_state (with_state s2 m)) as [-> ->]. done. }
  destruct (changed (state m) new "m3u") eqn:Hm3u; simpl.
  2: { destruct (Hpoll s1) as (-> & -> & -> & ->). done. }
  set (s2 := with_cache (Some dropped) s1).
  assert (reloadPlaylist answer s1
          = match merged !! "m3u"%string with
            | Some u => if truthy u
                        then rebuildCache answer (Some u) (Some merged) s2
                        else (Ret tt, s2)
            | None => (Ret tt, s2)
            end) as ->.
  { unfold reloadPlaylist, Eff.bind. rewrite theCache_run. simpl.
    rewrite Hc. simpl. destruct (merged !! "m3u"%string) as [u |]; [| done].
    by destruct (truthy u). }
  split.
  - destruct (merged !! "m3u"%string) as [u |].
    2: { simpl. destruct (Hpoll s2) as (-> & _). done. }
    destruct (truthy u).
    2: { simpl. destruct (Hpoll s2) as (-> & _). done. }
    pose proof (rebuildCache_config answer (Some u) merged s2 dropped
                  eq_refl eq_refl) as Hcfg.
    destruct (rebuildCache answer (Some u) (Some merged) s2)
      as [[[] | e] s3]; simpl in *; [| done].
    destruct (Hpoll s3) as (-> & _). done.
  - split; [done |]. intros _ u -> ->. split.
    + intros Hbusy.
      rewrite (rebuildCache_guarded answer (Some u) (Some merged) s2 dropped)
        by done.
      simpl. destruct (Hpoll s2) as (_ & -> & -> & ->). done.
    + intros e Hfree ->.
      assert (rebuildCache (inl e) (Some u) (Some merged) s2
              = (Throw e,
                 with_emitted (emitted s2 ++ [cacheError e])
                   (with_cache (Some dropped)
                      (with_transformCalls
                         (transformCalls s2 ++ [(Some u, Some merged)])
                         s2)))) as ->; [| done].
      unfold rebuildCache, Eff.bind, rebuildCache_enter, Eff.bind.
      rewrite theCache_run. simpl. rewrite Hfree. simpl.
      rewrite rebuildCache_resume_failed
        with (c := with_updateInProgress true dropped) by done.
      simpl. rewrite map_union_idemp. by rewrite flag_round_trip.
Qed.

(** X24. The timer never fills an empty catalogue: while the snapshot
    holds no data, a tick does nothing, whatever the transformer would
    answer, so any run of ticks leaves the manager as it was. With
    data and a configuration, a tick whose rebuild fails returns
    normally and leaves the snapshot as it was. *)
Theorem pollTick_idle m c :
  cache (state m) = Some c →
  (stremioData c = None →
   ∀ answers, calls (Tick <$> answers) m = m)
  ∧ (∀ cfg e, config (state m) = Some cfg → is_Some (stremioData c) →
       (pollTick (inl e) (state m)).1 = Ret tt
       ∧ cache (pollTick (inl e) (state m)).2 = Some c).
Proof.
  intros Hc. split.
  - intros Hnone answers. unfold calls.
    induction answers as [| a l IH]; [done |]. simpl.
    rewrite onState_cache. unfold pollTick at 1 2, Eff.bind, Eff.get. simpl.
    rewrite Hc, Hnone. simpl.
    replace (with_state (state m) m) with m by (by destruct m). exact IH.
  - intros cfg e Hcfg [data Hdata].
    unfold pollTick, Eff.bind, Eff.get. simpl. rewrite Hc, Hdata, Hcfg.
    pose proof (isStale_cache (Some cfg) (state m)) as Hk.
    unfold unchanged in Hk.
    assert (∃ b, (isStale (Some cfg) (state m)).1 = Ret b) as [b Hb].
    { unfold isStale, Eff.bind, Eff.get. simpl. rewrite Hc, Hdata.
      destruct (lastUpdated c) as [t |]; [| by eexists].
      destruct (t =? 0); by eexists. }
    destruct (isStale (Some cfg) (state m)) as [r s1]. simpl in *. subst r.
    assert (cache s1 = Some c) as Hc1 by (by rewrite Hk).
    destruct b; simpl; [| done]. unfold Eff.tryCatch.
    destruct (updateInProgress c) eqn:Hf.
    + by rewrite (rebuildCache_guarded (inl e) (m3uUrl c) (Some cfg) s1 c).
    + unfold rebuildCache, Eff.bind.
      destruct (rebuildCache_enter_free (m3uUrl c) (Some cfg) s1 c Hc1 Hf)
        as (s2 & -> & Hc2 & _).
      rewrite (rebuildCache_resume_failed _ e s2 _ Hc2). simpl.
      by rewrite flag_round_trip.
Qed.

(** X25. [getFilteredChannels] answers with channels of the snapshot
    in their order there: all of them without a filter or with a
    filter of an unknown type, those of the genre or of the search
    when one was set; a genre filter without a value selects nothing,
    a search filter without a value selects everything. *)
Theorem getFilteredChannels_cases m chans :
  cachedChannels (state m) = Some chans →
  getFilteredChannels m `sublist_of` chans
  ∧ getFilteredChannels (clearLastFilter m).2 = chans
  ∧ (∀ v, getFilteredChannels (setLastFilter (lit "genre") v m).2
          = getChannelsByGenre (state m) v)
  ∧ (∀ v, getFilteredChannels (setLastFilter (lit "search") v m).2
          = searchChannels (state m) v)
  ∧ getFilteredChannels (setLastFilter (lit "genre") None m).2 = []
  ∧ getFilteredChannels (setLastFilter (lit "search") None m).2 = chans
  ∧ (∀ t v, t ≠ lit "genre" → t ≠ lit "search" →
            getFilteredChannels (setLastFilter t v m).2 = chans).
Proof.
  intros Hch.
  assert (∀ g, getChannelsByGenre (state m) g `sublist_of` chans) as Hg.
  { intros g. unfold getChannelsByGenre. rewrite Hch.
    destruct g as [g |]; [| apply sublist_nil_l].
    destruct (truthy g); [apply bool_filter_sublist | apply sublist_nil_l]. }
  assert (∀ q, searchChannels (state m) q `sublist_of` chans) as Hs.
  { intros q. unfold searchChannels. rewrite Hch.
    destruct (absent q); [done | apply bool_filter_sublist]. }
  unfold getFilteredChannels, setLastFilter, clearLastFilter, Eff.modify.
  simpl. rewrite Hch. repeat split.
  - destruct (lastFilter m) as [f |]; [| done].
    destruct (bool_decide _); [apply Hg |].
    destruct (bool_decide _); [apply Hs | done].
  - unfold searchChannels. by rewrite Hch.
  - intros t v Hg' Hs'. by rewrite !bool_decide_eq_false_2.
Qed.

End CatalogueManager.

(** ** The further properties on the reference inputs *)

Lemma getChannelIcon_last_wins_witness :
  let NET := Ref.offline Ref.t0 1000 in
  let after := (@EPGManager.processEPGInChunks Ref.runtime NET Ref.document
                  Ref.cleared).2 in
  tv Ref.document = Some Ref.listing
  ∧ EPGManager.absent (Some (lit "RAI 1")) = false
  ∧ (@EPGManager.getChannelIcon Ref.runtime (Some (lit "RAI 1")) after).1
    = Ret (Some (lit "http://img.example/rai1.png"))
  ∧ (@EPGManager.getChannelIcon Ref.runtime (Some (lit "Rai 2")) after).1
    = Ret None.
Proof.
  intros NET after. split; [reflexivity |]. split; [reflexivity |].
  assert (Forall (λ c, is_Some (xc_attrs c))
            [ {| xc_attrs := Some {| xc_id := Some (lit "Rai 1") |};
                 xc_icon := Some (lit "http://img.example/rai1.png") |} ])
    as Hattrs by (repeat constructor; by eexists).
  split.
  - destruct (getChannelIcon_last_wins (RT := Ref.runtime) (NET := NET)
                Ref.document Ref.listing _ Ref.cleared _ (Some (lit "RAI 1"))
                eq_refl eq_refl Hattrs eq_refl eq_refl) as [H _].
    apply (H [] _ [] (lit "http://img.example/rai1.png") eq_refl).
    + vm_compute. reflexivity.
    + constructor.
  - destruct (getChannelIcon_last_wins (RT := Ref.runtime) (NET := NET)
                Ref.document Ref.listing _ Ref.cleared _ (Some (lit "Rai 2"))
                eq_refl eq_refl Hattrs eq_refl eq_refl) as [_ H].
    unfold after. rewrite H; [vm_compute; reflexivity |].
    repeat constructor. intros i. vm_compute. discriminate.
Defined.

Lemma processEPGInChunks_aborts_witness :
  let NET := Ref.offline Ref.t0 1000 in
  let run := @EPGManager.processEPGInChunks Ref.runtime NET Ref.broken
               Ref.cleared in
  is_Some (EPGManager.db Ref.cleared)
  ∧ run.1 = Throw (TypeError "Cannot read properties of undefined")
  ∧ EPGManager.disk run.2 = None.
Proof.
  intros NET run. split; [by eexists |].
  destruct (processEPGInChunks_aborts (RT := Ref.runtime) (NET := NET)
              Ref.broken
              {| tv_channel := tv_channel Ref.listing;
                 tv_programme := tv_programme
                   (default Ref.listing (tv Ref.broken)) |}
              [ Ref.programme "Rai 1" "20231114230000 +0100"
                  "20231115003000 +0100" "TG1" ]
              {| xp_attrs := None; xp_title := None; xp_desc := None;
                 xp_category := None |}
              [ Ref.programme "Rai 1" "20231115003000 +0100"
                  "20231115013000 +0100" "Notte" ]
              Ref.cleared eq_refl eq_refl eq_refl)
    as (H1 & _ & _ & H4).
  - repeat constructor; try (by eexists); vm_compute; discriminate.
  - repeat constructor. by eexists.
  - by eexists.
  - split; [exact H1 | exact H4].
Defined.

Lemma startEPGUpdate_replaces_witness :
  let NET := Ref.serving Ref.t0 1000 Ref.document in
  let url := EPGManager.UrlString (lit "http://epg.example/guide.xml.gz") in
  let empty := {| EPGManager.programs := [];
                  EPGManager.channel_icons := ∅ |} in
  let full := {| EPGManager.programs := EPGManager.stored Ref.guide;
                 EPGManager.channel_icons := ∅ |} in
  url ≠ EPGManager.UrlAbsent
  ∧ EPGManager.isUpdating Ref.opened = false
  ∧ @EPGManager.startEPGUpdate Ref.runtime NET url
      (EPGManager.with_db (Some empty) Ref.opened)
    = @EPGManager.startEPGUpdate Ref.runtime NET url
        (EPGManager.with_db (Some full) Ref.opened).
Proof.
  intros NET url empty full.
  assert (url ≠ EPGManager.UrlAbsent) as Hurl by discriminate.
  split; [exact Hurl |]. split; [reflexivity |].
  exact (startEPGUpdate_replaces (RT := Ref.runtime) (NET := NET) url
           Ref.opened empty full Hurl eq_refl).
Defined.


Lemma startEPGUpdate_requests_witness :
  let NET := Ref.listed Ref.t0 1000
               (Text (lit "http://a.example/1.xml" ++ [10%N]
                      ++ lit "http://b.example/2.xml")) in
  let url := EPGManager.UrlString (lit " http://epg.example/list.txt ") in
  let sources := [lit "http://a.example/1.xml";
                  lit "http://b.example/2.xml"] in
  EPGManager.isUpdating Ref.opened = false
  ∧ is_Some (EPGManager.db Ref.opened)
  ∧ (@EPGManager.readExternalFile NET url Ref.opened).1 = Ret sources
  ∧ EPGManager.requests
      (@EPGManager.startEPGUpdate Ref.runtime NET url Ref.opened).2
    = lit "http://epg.example/list.txt" :: sources.
Proof.
  intros NET url sources.
  assert (is_Some (EPGManager.db Ref.opened)) as Hdb by (by eexists).
  assert ((@EPGManager.readExternalFile NET url Ref.opened).1 = Ret sources)
    as Hread by (vm_compute; reflexivity).
  split; [reflexivity |]. split; [exact Hdb |]. split; [exact Hread |].
  rewrite (startEPGUpdate_requests (RT := Ref.runtime) (NET := NET) url
             Ref.opened sources eq_refl Hdb Hread).
  vm_compute. reflexivity.
Defined.

Lemma startEPGUpdate_before_open_witness :
  let NET := Ref.serving Ref.t0 1000 Ref.document in
  let url := EPGManager.UrlString (lit "http://epg.example/guide.xml.gz") in
  let new := EPGManager.state (EPGManager.construct None None) in
  let s' := (@EPGManager.startEPGUpdate Ref.runtime NET url new).2 in
  EPGManager.isUpdating new = false
  ∧ EPGManager.db new = None
  ∧ EPGManager.db s' = None
  ∧ EPGManager.requests s' = []
  ∧ EPGManager.lastUpdate s' = Some (Ref.t0 + 1000).
Proof.
  intros NET url new s'. split; [reflexivity |]. split; [reflexivity |].
  destruct (startEPGUpdate_before_open (RT := Ref.runtime) (NET := NET) url
              new eq_refl eq_refl) as (_ & H2 & _ & H4 & _ & H6).
  split; [exact H2 |]. split; [exact H4 | exact H6].
Defined.

Lemma isStale_interval_witness :
  let NET := Ref.offline Ref.t0 1000 in
  let cfg : gmap string str := {[ "update_interval"%string := lit "0:00" ]} in
  CacheManager.cache Ref.catalog = Some Ref.snapshot
  ∧ CacheManager.lastUpdated Ref.snapshot = Some (Ref.t0 - 1000)
  ∧ Ref.t0 - 1000 ≠ 0
  ∧ CacheManager.stremioData Ref.snapshot = Some Ref.lineup
  ∧ (@CacheManager.isStale NET (Some cfg) Ref.catalog).1 = Ret true.
Proof.
  intros NET cfg.
  assert (Ref.t0 - 1000 ≠ 0) as Hnz by (vm_compute; discriminate).
  split; [reflexivity |]. split; [reflexivity |]. split; [exact Hnz |].
  split; [reflexivity |].
  destruct (isStale_interval (NET := NET) Ref.catalog Ref.snapshot
              (Ref.t0 - 1000) Ref.lineup cfg eq_refl eq_refl Hnz eq_refl)
    as (_ & _ & _ & _ & H).
  apply H; [reflexivity | vm_compute; discriminate].
Defined.

Lemma rebuildCache_success_witness :
  let NET := Ref.offline Ref.t0 1000 in
  let url := Some (lit "http://tv.example/other.m3u") in
  let run := @CacheManager.rebuildCache NET (inr Ref.lineup) url None
               Ref.catalog in
  let new := {| CacheManager.stremioData := Some Ref.lineup;
                CacheManager.lastUpdated := Some Ref.t0;
                CacheManager.updateInProgress := false;
                CacheManager.m3uUrl := url;
                CacheManager.epgUrls := None |} in
  CacheManager.cache Ref.catalog = Some Ref.snapshot
  ∧ CacheManager.updateInProgress Ref.snapshot = false
  ∧ run.1 = Ret tt
  ∧ CacheManager.cache run.2 = Some new
  ∧ CacheManager.emitted run.2 = [CacheManager.cacheUpdated new].
Proof.
  intros NET url run new. split; [reflexivity |]. split; [reflexivity |].
  destruct (rebuildCache_success (NET := NET) Ref.catalog Ref.snapshot
              Ref.lineup url None eq_refl eq_refl) as (H1 & H2 & H3 & _).
  split; [exact H1 |]. split; [exact H2 | exact H3].
Defined.


Lemma saveCacheToDB_refused_witness :
  let NET := Ref.offline Ref.t0 1000 in
  let s' := (@CacheManager.rebuildCache NET (inr Ref.repeated) None None
               Ref.stocked).2 in
  ¬ NoDup (CacheManager.genres Ref.repeated)
  ∧ CacheManager.getCachedData s'
    = (CacheManager.channels Ref.lineup, CacheManager.genres Ref.repeated)
  ∧ CacheManager.disk (CacheManager.saveCacheToDB s').2 = None.
Proof.
  intros NET s'.
  assert (¬ NoDup (CacheManager.genres Ref.repeated)) as Hdup.
  { apply (bool_decide_unpack _). vm_compute. exact I. }
  split; [exact Hdup |]. split; [vm_compute; reflexivity |].
  destruct (saveCacheToDB_refused s'
              {| CacheManager.stremioData := Some Ref.repeated;
                 CacheManager.lastUpdated := Some Ref.t0;
                 CacheManager.updateInProgress := false;
                 CacheManager.m3uUrl := None;
                 CacheManager.epgUrls := None |}
              Ref.repeated) as (_ & H & _).
  - vm_compute. reflexivity.
  - reflexivity.
  - right. exact Hdup.
  - rewrite H. vm_compute. reflexivity.
Defined.

Lemma searchChannels_normalised_witness :
  let q := Some (lit " RAI-1 ") in
  CacheManager.cachedChannels Ref.catalog
  = Some (CacheManager.channels Ref.lineup)
  ∧ @CacheManager.searchChannels Ref.runtime Ref.catalog
      (Some (@normalizeExpr Ref.runtime q))
    = @CacheManager.searchChannels Ref.runtime Ref.catalog q
  ∧ @CacheManager.searchChannels Ref.runtime Ref.catalog (Some (lit "?!"))
    = CacheManager.channels Ref.lineup.
Proof.
  intros q. split; [reflexivity |].
  destruct (searchChannels_normalised (RT := Ref.runtime) Ref_lower_sound
              Ref.catalog q _ eq_refl) as (_ & _ & _ & H & _).
  split; [apply H; vm_compute; discriminate |].
  destruct (searchChannels_normalised (RT := Ref.runtime) Ref_lower_sound
              Ref.catalog (Some (lit "?!")) _ eq_refl) as (_ & _ & H' & _).
  apply H'. vm_compute. reflexivity.
Defined.

Lemma getChannel_normalised_witness :
  let id := Some (lit "RAI 2") in
  @normalizeExpr Ref.runtime id ≠ []
  ∧ @CacheManager.getChannel Ref.runtime Ref.catalog
      (Some (@normalizeExpr Ref.runtime id))
    = @CacheManager.getChannel Ref.runtime Ref.catalog id
  ∧ @CacheManager.getChannel Ref.runtime Ref.catalog id
    = CacheManager.Found (Ref.channel "tv|rai2" "Rai 2" "rai2.it").
Proof.
  intros id.
  assert (@normalizeExpr Ref.runtime id ≠ []) as Hn
    by (vm_compute; discriminate).
  split; [exact Hn |].
  destruct (getChannel_normalised (RT := Ref.runtime) Ref_lower_sound
              Ref.catalog id) as (H & _).
  split; [exact (H Hn) | vm_compute; reflexivity].
Defined.

Lemma updateConfig_playlist_witness :
  let NET := Ref.offline Ref.t0 1000 in
  let e := Failure "ECONNREFUSED" in
  let new : gmap string str :=
    {[ "m3u"%string := lit "http://tv.example/new.m3u";
       "update_interval"%string := lit "6:00" ]} in
  let r := @CacheManager.updateConfig NET (inl e) new Ref.manager in
  CacheManager.cache (CacheManager.state Ref.manager) = Some Ref.snapshot
  ∧ CacheManager.changed (CacheManager.state Ref.manager) new "m3u" = true
  ∧ r.1 = Throw e
  ∧ CacheManager.getCachedData (CacheManager.state r.2) = ([], [])
  ∧ CacheManager.pollingInterval r.2
    = CacheManager.pollingInterval Ref.manager.
Proof.
  intros NET e new r.
  assert (CacheManager.changed (CacheManager.state Ref.manager) new "m3u"
          = true) as Hch by (vm_compute; reflexivity).
  split; [reflexivity |]. split; [exact Hch |].
  destruct (updateConfig_playlist (NET := NET) (inl e) new Ref.manager
              Ref.snapshot eq_refl) as (_ & _ & H).
  destruct (H Hch (lit "http://tv.example/new.m3u")) as [_ H'].
  - vm_compute. reflexivity.
  - reflexivity.
  - destruct (H' e eq_refl eq_refl) as (H1 & H2 & H3 & _).
    split; [exact H1 |]. split; [| exact H3].
    unfold CacheManager.getCachedData. fold r in H2. by rewrite H2.
Defined.

Lemma pollTick_idle_witness :
  let NET := Ref.offline Ref.t0 1000 in
  let m := @CacheManager.create Ref.insertionOrder true None (Some ∅) in
  let held := {| CacheManager.stremioData := None;
                 CacheManager.lastUpdated := None;
                 CacheManager.updateInProgress := false;
                 CacheManager.m3uUrl := None;
                 CacheManager.epgUrls := Some [] |} in
  CacheManager.cache (CacheManager.state m) = Some held
  ∧ CacheManager.calls (NET := NET)
      [CacheManager.Tick (inr Ref.lineup);
       CacheManager.Tick (inl (Failure "ECONNREFUSED"))] m
    = m.
Proof.
  intros NET m held. split; [reflexivity |].
  destruct (pollTick_idle (NET := NET) m held eq_refl) as [H _].
  exact (H eq_refl [inr Ref.lineup; inl (Failure "ECONNREFUSED")]).
Defined.

Lemma getFilteredChannels_cases_witness :
  let rai2 := Ref.channel "tv|rai2" "Rai 2" "rai2.it" in
  CacheManager.cachedChannels (CacheManager.state Ref.manager)
  = Some (CacheManager.channels Ref.lineup)
  ∧ @CacheManager.getFilteredChannels Ref.runtime
      (CacheManager.setLastFilter (lit "search") (Some (lit "Rai 2"))
         Ref.manager).2
    = [rai2]
  ∧ @CacheManager.getFilteredChannels Ref.runtime
      (CacheManager.setLastFilter (lit "genre") None Ref.manager).2
    = [].
Proof.
  intros rai2. split; [reflexivity |].
  destruct (getFilteredChannels_cases (RT := Ref.runtime) Ref.manager _
              eq_refl) as (_ & _ & _ & H4 & H5 & _).
  split; [| exact H5].
  rewrite H4. vm_compute. reflexivity.
Defined.


Lemma validateAndSetTimezone_cases_witness :
  let india := EPGManager.construct (Some (lit "+5:30")) None in
  let named := EPGManager.construct (Some (lit "Europe/Rome")) None in
  EPGManager.offsetMinutes (EPGManager.state india) = Some 330
  ∧ EPGManager.timeZoneOffset named = Some (lit "+2:00")
  ∧ EPGManager.offsetMinutes (EPGManager.state named) = None
  ∧ EPGManager.offsetMinutes
      (EPGManager.state (EPGManager.construct None None)) = Some 120.
Proof.
  intros india named.
  destruct (validateAndSetTimezone_cases (RT := Ref.runtime)
              (Some (lit "+5:30")) None)
    as (_ & H2 & _).
  destruct (H2 43%N (lit "5") (lit "30") eq_refl) as (_ & Ha & _);
    [by left | simpl; lia | reflexivity | reflexivity | reflexivity |].
  destruct (validateAndSetTimezone_cases (RT := Ref.runtime)
              (Some (lit "Europe/Rome")) None)
    as (_ & _ & H3).
  destruct (H3 _ eq_refl eq_refl eq_refl) as (Hb & Hc & _).
  destruct (validateAndSetTimezone_cases (RT := Ref.runtime) None None)
    as (H1 & _).
  destruct (H1 eq_refl) as (_ & Hd).
  split; [exact Ha |]. split; [exact Hb |]. split; [exact Hc | exact Hd].
Defined.

Lemma initializeEPG_again_witness :
  let NET := Ref.serving Ref.t0 1000 Ref.document in
  let url := lit "http://epg.example/guide.xml.gz" in
  let m := (@EPGManager.initializeEPG Ref.runtime NET url
              (@EPGManager.calls Ref.runtime NET [EPGManager.Open true]
                 (EPGManager.construct None None))).2 in
  (EPGManager.isEPGAvailable (EPGManager.state m)).1 = Ret true
  ∧ @EPGManager.initializeEPG Ref.runtime NET url m = (Ret tt, m).
Proof.
  intros NET url m.
  assert ((EPGManager.isEPGAvailable (EPGManager.state m)).1 = Ret true)
    as Hav by (vm_compute; reflexivity).
  split; [exact Hav |].
  destruct (initializeEPG_again (RT := Ref.runtime) (NET := NET) url
              (@EPGManager.calls Ref.runtime NET [EPGManager.Open true]
                 (EPGManager.construct None None))) as [_ H].
  exact (proj1 (H Hav)).
Defined.

Lemma addSuffix_normalizeId_witness :
  let s := CacheManager.with_config
             (Some {[ "id_suffix"%string := lit "it" ]}) Ref.catalog in
  CacheManager.addSuffix s (Some (lit "rai1")) = Some (lit "rai1.it")
  ∧ @CacheManager.normalizeId Ref.runtime s
      (CacheManager.addSuffix s (Some (lit "rai1"))) true
    = lit "rai1".
Proof.
  intros s. split; [vm_compute; reflexivity |].
  destruct (addSuffix_normalizeId (RT := Ref.runtime) s (Some (lit "rai1")))
    as [_ H].
  destruct (H (lit "rai1") (lit "it") eq_refl) as [_ H'].
  - vm_compute. reflexivity.
  - repeat constructor.
  - repeat constructor.
  - apply H'. vm_compute. reflexivity.
Defined.

(** ** The guide on a channel page, and the status of the guide *)

Section GuidePage.
Context {RT : JsRuntime} {NET : Network} {SQL : EPGManager.SqlEngine}.
Import EPGManager MetaHandler.

(** X26. The channel page. With the guide disabled the page is left
    alone and the guide not consulted. Otherwise the handler may be
    given any spelling of the identifier, it normalises before it
    asks; it never throws; and when no programme of the channel is on
    air the page comes back as it was, the programmes coming up not
    being shown on their own. *)
Theorem enrichWithDetailedEPG_cases (HL : LowerCaseSound) meta id s :
  enrichWithDetailedEPG meta id false s = (Ret meta, s)
  ∧ (∀ b, enrichWithDetailedEPG meta (Some (normalizeExpr id)) b s
          = enrichWithDetailedEPG meta id b s)
  ∧ (∃ page, (enrichWithDetailedEPG meta id true s).1 = Ret page)
  ∧ ((getCurrentProgram (Some (normalizeExpr id)) s).1 = Ret None →
     (enrichWithDetailedEPG meta id true s).1 = Ret meta)
  ∧ (∀ cur, (getCurrentProgram (Some (normalizeExpr id)) s).1
            = Ret (Some cur) →
       ∃ page, (enrichWithDetailedEPG meta id true s).1 = Ret page
         ∧ meta_releaseInfo page
           = sh_title cur ++ lit " (" ++ sh_start cur ++ lit ")").
Proof.
  split; [done |]. split.
  { intros b. unfold enrichWithDetailedEPG, MetaHandler.normalizeId.
    by rewrite normalizeExpr_idempotent. }
  unfold enrichWithDetailedEPG, MetaHandler.normalizeId.
  cbn [negb]. unfold Eff.bind. rewrite !getCurrentProgram_run.
  set (n := normalizeExpr id).
  destruct (absent (Some n)) eqn:Ha.
  { rewrite getUpcomingPrograms_run, Ha. cbn [fst snd Eff.ret].
    split; [by eexists |]. split; [done |]. by intros cur [=]. }
  destruct (db s) as [d |] eqn:Hd.
  2: { rewrite getUpcomingPrograms_run, Ha, Hd. cbn [fst snd Eff.ret].
       split; [by eexists |]. split; [done |]. by intros cur [=]. }
  rewrite getUpcomingPrograms_run, Ha. cbn [fst snd db with_ticks].
  rewrite Hd.
  destruct (head (selectCurrent _ _ _)) as [row |];
    cbn [fmap option_fmap option_map fst snd Eff.ret].
  - split; [by eexists |]. split; [done |].
    intros cur [= <-]. by eexists.
  - split; [by eexists |]. split; [done |]. by intros cur [=].
Qed.

Lemma remove_dups_length {A} `{EqDecision A} (l : list A) :
  (length (remove_dups l) ≤ length l)%nat
  ∧ (length (remove_dups l) = 0%nat ↔ length l = 0%nat).
Proof.
  split.
  - induction l as [| x l IH]; [done |]. simpl.
    destruct (decide_rel _ x l); simpl; lia.
  - destruct l as [| x l]; [done |]. split; [| done].
    intros H. apply nil_length_inv in H.
    assert (x ∈ remove_dups (x :: l)) as Hin.
    { apply elem_of_remove_dups, list_elem_of_here. }
    rewrite H in Hin. by apply not_elem_of_nil in Hin.
Qed.

(** X27. [getStatus] changes nothing and its counts agree: there are
    never more channels than programmes, and none exactly when there
    are no programmes; without a database every count is zero; and
    the guide is available exactly when the status shows programmes
    and no update running. *)
Theorem getStatus_consistent m :
  ∃ st,
    getStatus m = (Ret st, m)
    ∧ (st_channelsCount st ≤ st_programsCount st)%nat
    ∧ (st_channelsCount st = 0%nat ↔ st_programsCount st = 0%nat)
    ∧ st_programsCount st = length (stored (state m))
    ∧ st_timezone st = timeZoneOffset m
    ∧ (db (state m) = None →
       st_channelsCount st = 0%nat ∧ st_iconsCount st = 0%nat
       ∧ st_programsCount st = 0%nat)
    ∧ ((isEPGAvailable (state m)).1 = Ret true ↔
       (0 < st_programsCount st)%nat ∧ st_isUpdating st = false).
Proof.
  eexists. split; [reflexivity |]. cbn [st_channelsCount st_programsCount
    st_timezone st_iconsCount st_isUpdating].
  unfold isEPGAvailable, Eff.bind, Eff.get, stored. cbn [fst snd].
  destruct (db (state m)) as [d |].
  - destruct (remove_dups_length (channel_id <$> programs d)) as [H1 H2].
    rewrite length_fmap in H1, H2.
    split; [exact H1 |]. split; [exact H2 |]. split; [done |].
    split; [done |]. split; [done |].
    destruct (isUpdating (state m)); cbn [fst Eff.ret].
    + split; [done | by intros [_ ?]].
    + split.
      * intros [= H]. apply Nat.ltb_lt in H. done.
      * intros [H _]. apply Nat.ltb_lt in H. by rewrite H.
  - split; [done |]. split; [done |]. split; [done |]. split; [done |].
    split; [done |]. cbn [fst Eff.ret]. split; [done |]. intros [H _]. lia.
Qed.

End GuidePage.

Lemma enrichWithDetailedEPG_cases_witness :
  let NET := Ref.offline Ref.t0 1000 in
  let meta := {| MetaHandler.meta_description := [];
                 MetaHandler.meta_releaseInfo := lit "LIVE" |} in
  (∃ page,
     (@MetaHandler.enrichWithDetailedEPG Ref.runtime NET Ref.rowidOrder meta
        (Some (lit "RAI 1")) true Ref.guide).1 = Ret page
     ∧ MetaHandler.meta_releaseInfo page = lit "TG1 (00:03)")
  ∧ (@MetaHandler.enrichWithDetailedEPG Ref.runtime NET Ref.rowidOrder meta
       (Some (lit "Rai 2")) true Ref.guide).1 = Ret meta.
Proof.
  intros NET meta.
  destruct (enrichWithDetailedEPG_cases (RT := Ref.runtime) (NET := NET)
              (SQL := Ref.rowidOrder) Ref_lower_sound meta
              (Some (lit "RAI 1")) Ref.guide) as (_ & _ & _ & _ & H).
  destruct (H (@EPGManager.show Ref.runtime Ref.guide
                 (Ref.row "rai1" "TG1" (Ref.t0 - 600000) (Ref.t0 + 1200000))))
    as (page & H1 & H2); [vm_compute; reflexivity |].
  destruct (enrichWithDetailedEPG_cases (RT := Ref.runtime) (NET := NET)
              (SQL := Ref.rowidOrder) Ref_lower_sound meta
              (Some (lit "Rai 2")) Ref.guide) as (_ & _ & _ & H' & _).
  split.
  - exists page. split; [exact H1 |]. rewrite H2. vm_compute. reflexivity.
  - apply H'. vm_compute. reflexivity.
Defined.
